(** * AI screening service: the evaluation core, embedded and verified

  The development follows the Python sources

    - [scripts/ingest.py]  : paragraph chunker and content-addressed ids,
    - [app/services.py]    : retrieval, LLM client with retry, structured
                             output parsing, the three-stage pipeline and
                             document ingestion,
    - [app/worker.py]      : the task wrapper that turns a pipeline run
                             into a job outcome.

  Python values are modelled as the interpreter has them: a [str] is a
  sequence of Unicode code points, an [int] is an unbounded integer,
  exceptions are values of an explicit type carried by a state-and-error
  monad whose state records every call made to a collaborator. *)

From Stdlib Require Import List ZArith NArith Lia Bool String Ascii.
From Stdlib Require Import DecimalString.
Import ListNotations.

Set Implicit Arguments.
Set Warnings "-register-all".

(** ** Python strings *)

Module Py.

(** A character is a code point; [len] counts code points. *)
Definition char := N.
Definition str := list char.

Definition char_eqb : char -> char -> bool := N.eqb.

Fixpoint eqb (a b : str) : bool :=
  match a, b with
  | [], [] => true
  | x :: a', y :: b' => char_eqb x y && eqb a' b'
  | _, _ => false
  end.

(** A literal of the source, written as a Rocq string of one-byte
    characters. *)
Definition lit (s : string) : str :=
  map N_of_ascii (list_ascii_of_string s).

Definition len (s : str) : Z := Z.of_nat (List.length s).

(** [len] of a list. *)
Definition len_list {A} (l : list A) : Z := Z.of_nat (List.length l).

(** Truth value of a string in a condition: non-empty. *)
Definition truthy (s : str) : bool :=
  match s with [] => false | _ :: _ => true end.

(** [str.isspace] for one character: the code points Python treats as
    whitespace (Unicode White_Space, plus the separators 0x1C..0x1F). *)
Definition isspace (c : char) : bool :=
  ((9 <=? c) && (c <=? 13) || (28 <=? c) && (c <=? 32)
   || (c =? 133) || (c =? 160) || (c =? 5760)
   || (8192 <=? c) && (c <=? 8202)
   || (c =? 8232) || (c =? 8233) || (c =? 8239) || (c =? 8287)
   || (c =? 12288))%N.

Fixpoint lstrip (s : str) : str :=
  match s with
  | c :: r => if isspace c then lstrip r else s
  | [] => []
  end.

Definition rstrip (s : str) : str := rev (lstrip (rev s)).

(** [s.strip()] with no argument. *)
Definition strip (s : str) : str := rstrip (lstrip s).

Fixpoint startswith (s pre : str) : bool :=
  match pre, s with
  | [], _ => true
  | p :: pre', c :: s' => char_eqb p c && startswith s' pre'
  | _ :: _, [] => false
  end.

Definition endswith (s suf : str) : bool := startswith (rev s) (rev suf).

(** [s.split(sep)] for a non-empty separator: scan left to right, cut at
    every occurrence of [sep] (occurrences do not overlap).  [skip] counts
    the characters of a matched separator still to be passed over and
    [cur] holds the piece being read, last character first. *)
Fixpoint split_go (sep : str) (skip : nat) (cur : str) (s : str)
  : list str :=
  match s with
  | [] => [rev cur]
  | c :: r =>
      match skip with
      | S k => split_go sep k cur r
      | O =>
          if startswith s sep
          then rev cur :: split_go sep (List.length sep - 1) [] r
          else split_go sep 0 (c :: cur) r
      end
  end.

Definition split (s sep : str) : list str := split_go sep 0 [] s.

(** [sep.join(parts)] *)
Fixpoint join (sep : str) (parts : list str) : str :=
  match parts with
  | [] => []
  | [p] => p
  | p :: rest => p ++ sep ++ join sep rest
  end.

Definition NL : char := 10%N.

End Py.

Abbreviation str := Py.str.

(** ** Exceptions *)

Module Exn.

(** The exceptions the code raises or lets through.  [ServiceError] is
    whatever a collaborator (LLM service, PDF reader, vector store)
    raises; its text is the collaborator's. *)
Inductive exn :=
| Exception (msg : str)
| ValueError (msg : str)
| TypeError (msg : str)
| JSONDecodeError (msg : str)
| ValidationError (msg : str)
| UnicodeDecodeError (msg : str)
| UnicodeEncodeError (msg : str)
| RecursionError (msg : str)
| HTTPException (status_code : Z) (detail : str)
| ServiceError (msg : str).

Definition str_of_int (z : Z) : str :=
  Py.lit (NilEmpty.string_of_int (Z.to_int z)).

(** [str(e)] as the f-strings of the source print it. *)
Definition exn_str (e : exn) : str :=
  match e with
  | Exception m | ValueError m | TypeError m | JSONDecodeError m
  | ValidationError m | UnicodeDecodeError m | UnicodeEncodeError m
  | RecursionError m | ServiceError m => m
  | HTTPException c d => str_of_int c ++ Py.lit ": " ++ d
  end.

End Exn.

Import Exn.

(** ** Bytes, UTF-8 and MD5 *)

Module Bytes.

(** A [bytes] value: octets as numbers below 256. *)
Definition bytes := list N.

Definition cont (c : N) : N := (128 + c mod 64)%N.

(** UTF-8 form of one code point; surrogates have none. *)
Definition encode_char (c : Py.char) : option bytes :=
  if (c <? 128)%N then Some [c]
  else if (c <? 2048)%N then Some [(192 + c / 64)%N; cont c]
  else if ((55296 <=? c) && (c <=? 57343))%N then None
  else if (c <? 65536)%N
  then Some [(224 + c / 4096)%N; cont (c / 64); cont c]
  else if (c <? 1114112)%N
  then Some [(240 + c / 262144)%N; cont (c / 4096); cont (c / 64); cont c]
  else None.

(** [s.encode('utf-8')] *)
Fixpoint encode_utf8 (s : str) : exn + bytes :=
  match s with
  | [] => inr []
  | c :: r =>
      match encode_char c, encode_utf8 r with
      | Some b, inr rest => inr (b ++ rest)
      | None, _ =>
          inl (UnicodeEncodeError (Py.lit "surrogates not allowed"))
      | _, inl e => inl e
      end
  end.

Definition in_range (lo hi b : N) : bool := ((lo <=? b) && (b <=? hi))%N.

Definition decode_error : exn :=
  UnicodeDecodeError (Py.lit "invalid utf-8 byte sequence").

Definition push (c : Py.char) (rest : exn + str) : exn + str :=
  match rest with inr s => inr (c :: s) | inl e => inl e end.

(** [b.decode('utf-8')]: only well-formed sequences are accepted
    (shortest form, no surrogate, at most U+10FFFF). *)
Fixpoint decode_utf8 (b : bytes) : exn + str :=
  match b with
  | [] => inr []
  | b0 :: r0 =>
      if (b0 <? 128)%N then push b0 (decode_utf8 r0)
      else
        match r0 with
        | [] => inl decode_error
        | b1 :: r1 =>
            if in_range 194 223 b0 then
              if in_range 128 191 b1
              then push ((b0 - 192) * 64 + (b1 - 128))%N (decode_utf8 r1)
              else inl decode_error
            else
              match r1 with
              | [] => inl decode_error
              | b2 :: r2 =>
                  if in_range 224 239 b0 then
                    if in_range (if (b0 =? 224)%N then 160 else 128)
                                (if (b0 =? 237)%N then 159 else 191) b1
                       && in_range 128 191 b2
                    then push ((b0 - 224) * 4096 + (b1 - 128) * 64
                               + (b2 - 128))%N (decode_utf8 r2)
                    else inl decode_error
                  else
                    match r2 with
                    | [] => inl decode_error
                    | b3 :: r3 =>
                        if in_range 240 244 b0
                           && in_range (if (b0 =? 240)%N then 144 else 128)
                                (if (b0 =? 244)%N then 143 else 191) b1
                           && in_range 128 191 b2 && in_range 128 191 b3
                        then push ((b0 - 240) * 262144 + (b1 - 128) * 4096
                                   + (b2 - 128) * 64 + (b3 - 128))%N
                                  (decode_utf8 r3)
                        else inl decode_error
                    end
              end
        end
  end.

End Bytes.

Module Md5.

Definition word := N.
Definition MASK : N := 0xFFFFFFFF.
Definition wrap (x : N) : word := N.land x MASK.
Definition add (x y : word) : word := wrap (x + y).
Definition neg (x : word) : word := N.lxor x MASK.
Definition rotl (x : word) (n : N) : word :=
  wrap (N.lor (N.shiftl x n) (N.shiftr x (32 - n))).

(** The sine table and the shift amounts of the algorithm. *)
Definition K : list word :=
  [0xd76aa478; 0xe8c7b756; 0x242070db; 0xc1bdceee;
   0xf57c0faf; 0x4787c62a; 0xa8304613; 0xfd469501;
   0x698098d8; 0x8b44f7af; 0xffff5bb1; 0x895cd7be;
   0x6b901122; 0xfd987193; 0xa679438e; 0x49b40821;
   0xf61e2562; 0xc040b340; 0x265e5a51; 0xe9b6c7aa;
   0xd62f105d; 0x02441453; 0xd8a1e681; 0xe7d3fbc8;
   0x21e1cde6; 0xc33707d6; 0xf4d50d87; 0x455a14ed;
   0xa9e3e905; 0xfcefa3f8; 0x676f02d9; 0x8d2a4c8a;
   0xfffa3942; 0x8771f681; 0x6d9d6122; 0xfde5380c;
   0xa4beea44; 0x4bdecfa9; 0xf6bb4b60; 0xbebfbc70;
   0x289b7ec6; 0xeaa127fa; 0xd4ef3085; 0x04881d05;
   0xd9d4d039; 0xe6db99e5; 0x1fa27cf8; 0xc4ac5665;
   0xf4292244; 0x432aff97; 0xab9423a7; 0xfc93a039;
   0x655b59c3; 0x8f0ccc92; 0xffeff47d; 0x85845dd1;
   0x6fa87e4f; 0xfe2ce6e0; 0xa3014314; 0x4e0811a1;
   0xf7537e82; 0xbd3af235; 0x2ad7d2bb; 0xeb86d391]%N.

Definition S : list N :=
  [7; 12; 17; 22; 7; 12; 17; 22; 7; 12; 17; 22; 7; 12; 17; 22;
   5; 9; 14; 20; 5; 9; 14; 20; 5; 9; 14; 20; 5; 9; 14; 20;
   4; 11; 16; 23; 4; 11; 16; 23; 4; 11; 16; 23; 4; 11; 16; 23;
   6; 10; 15; 21; 6; 10; 15; 21; 6; 10; 15; 21; 6; 10; 15; 21]%N.

(** Little-endian words of a block of bytes. *)
Fixpoint words (b : Bytes.bytes) : list word :=
  match b with
  | b0 :: b1 :: b2 :: b3 :: r =>
      (b0 + 256 * b1 + 65536 * b2 + 16777216 * b3)%N :: words r
  | _ => []
  end.

Definition le_bytes (n : nat) (x : N) : Bytes.bytes :=
  map (fun i => (N.shiftr x (8 * N.of_nat i) mod 256)%N) (seq 0 n).

(** The message, a one bit, zeros up to 56 modulo 64, and the length
    in bits on eight bytes. *)
Definition pad (msg : Bytes.bytes) : Bytes.bytes :=
  let n := List.length msg in
  let zeros := ((55 + 64 - n mod 64) mod 64)%nat in
  msg ++ [128%N] ++ repeat 0%N zeros
      ++ le_bytes 8 ((8 * N.of_nat n) mod 2 ^ 64)%N.

Definition round (m : list word) (st : word * word * word * word)
    (i : nat) : word * word * word * word :=
  let '(a, b, c, d) := st in
  let '(f, g) :=
    if (i <? 16)%nat
    then (N.lor (N.land b c) (N.land (neg b) d), i)
    else if (i <? 32)%nat
    then (N.lor (N.land d b) (N.land (neg d) c), ((5 * i + 1) mod 16)%nat)
    else if (i <? 48)%nat
    then (N.lxor (N.lxor b c) d, ((3 * i + 5) mod 16)%nat)
    else (N.lxor c (N.lor b (neg d)), ((7 * i) mod 16)%nat) in
  let f' := add (add (add f a) (nth i K 0%N)) (nth g m 0%N) in
  (d, add b (rotl f' (nth i S 0%N)), b, c).

Definition compress (st : word * word * word * word)
    (block : Bytes.bytes) : word * word * word * word :=
  let '(a0, b0, c0, d0) := st in
  let '(a, b, c, d) := fold_left (round (words block)) (seq 0 64) st in
  (add a0 a, add b0 b, add c0 c, add d0 d).

(** The blocks of 64 bytes of a padded message; [n] bounds their
    number. *)
Fixpoint blocks (n : nat) (b : Bytes.bytes) : list Bytes.bytes :=
  match n, b with
  | Datatypes.S k, _ :: _ => firstn 64 b :: blocks k (skipn 64 b)
  | _, _ => []
  end.

Definition IV : word * word * word * word :=
  (0x67452301, 0xefcdab89, 0x98badcfe, 0x10325476)%N.

(** [hashlib.md5(msg).digest()] *)
Definition digest (msg : Bytes.bytes) : Bytes.bytes :=
  let p := pad msg in
  let '(a, b, c, d) :=
    fold_left compress (blocks (List.length p) p) IV in
  le_bytes 4 a ++ le_bytes 4 b ++ le_bytes 4 c ++ le_bytes 4 d.

Definition hex_char (x : N) : Py.char :=
  if (x <? 10)%N then (48 + x)%N else (87 + x)%N.

(** [hashlib.md5(msg).hexdigest()] *)
Definition hexdigest (msg : Bytes.bytes) : str :=
  flat_map (fun x => [hex_char (x / 16); hex_char (x mod 16)]%N)
           (digest msg).

End Md5.

(** ** scripts/ingest.py : the chunker *)

Module Ingest.

Record metadata := { source : str }.
Record chunk := { text : str; meta : metadata }.

(** The separator ["\n\n"]. *)
Definition blank : str := [Py.NL; Py.NL].

(** [[p.strip() for p in text.split("\n\n") if p.strip()]] *)
Definition paragraphs (text : str) : list str :=
  map Py.strip
      (filter (fun p => Py.truthy (Py.strip p)) (Py.split text blank)).

Definition mk_chunk (current_chunk source_name : str) : chunk :=
  {| text := Py.strip current_chunk;
     meta := {| source := source_name |} |}.

(** One iteration of the packing loop over the pair
    [(chunks, current_chunk)]. *)
Definition pack_step (source_name : str) (chunk_size : Z)
    (st : list chunk * str) (paragraph : str) : list chunk * str :=
  let '(chunks, current_chunk) := st in
  if (Py.len current_chunk + Py.len paragraph + 2 <=? chunk_size)%Z
  then (chunks, current_chunk ++ paragraph ++ blank)
  else
    ((if Py.truthy current_chunk
      then chunks ++ [mk_chunk current_chunk source_name]
      else chunks),
     paragraph ++ blank).

Definition pack_loop (source_name : str) (chunk_size : Z)
    (ps : list str) (st : list chunk * str) : list chunk * str :=
  fold_left (pack_step source_name chunk_size) ps st.

(** [split_text_into_chunks(text, source_name, chunk_size, chunk_overlap)];
    the defaults of the source are [default_chunk_size] and
    [default_chunk_overlap]. *)
Definition default_chunk_size : Z := 1000.
Definition default_chunk_overlap : Z := 100.

Definition split_text_into_chunks (text source_name : str)
    (chunk_size chunk_overlap : Z) : list chunk :=
  let '(chunks, current_chunk) :=
    pack_loop source_name chunk_size (paragraphs text) ([], []) in
  if Py.truthy current_chunk
  then chunks ++ [mk_chunk current_chunk source_name]
  else chunks.

(** [hashlib.md5(text_chunk.encode('utf-8')).hexdigest()] *)
Definition generate_document_id (text_chunk : str) : exn + str :=
  match Bytes.encode_utf8 text_chunk with
  | inl e => inl e
  | inr b => inr (Md5.hexdigest b)
  end.

End Ingest.

(** ** The vector index *)

Module Chroma.

(** One stored chunk: identifier, text and source tag.  The embedding is
    a function of the text and is represented by [distance] below. *)
Record entry := { id : str; document : str; metadata : Ingest.metadata }.

Definition collection := list entry.

Definition has_id (i : str) (c : collection) : bool :=
  existsb (fun e => Py.eqb (id e) i) c.

(** Modelled from the spec: the store's [upsert] is the vector database's
    and not part of the sources; section 4.2 has it insert or overwrite
    chunks by id.  An entry whose id is present is overwritten where it
    stands, a new id is appended. *)
Definition upsert_one (e : entry) (c : collection) : collection :=
  if has_id (id e) c
  then map (fun x => if Py.eqb (id x) (id e) then e else x) c
  else c ++ [e].

Fixpoint zip3 (ids docs : list str) (metas : list Ingest.metadata)
  : list entry :=
  match ids, docs, metas with
  | i :: ids', d :: docs', m :: metas' =>
      {| id := i; document := d; metadata := m |} :: zip3 ids' docs' metas'
  | _, _, _ => []
  end.

Definition upsert (ids documents : list str)
    (metadatas : list Ingest.metadata) (c : collection) : collection :=
  fold_left (fun acc e => upsert_one e acc) (zip3 ids documents metadatas) c.

(** The answer of a query, as the client library returns it: a mapping
    whose ["documents"] entry, when present, holds one list of texts per
    query text. *)
Record query_result := { documents : option (list (list str)) }.

Fixpoint insert_by (key : entry -> Z) (e : entry) (l : list entry)
  : list entry :=
  match l with
  | [] => [e]
  | x :: r => if (key e <? key x)%Z then e :: l else x :: insert_by key e r
  end.

Definition sort_by (key : entry -> Z) (l : list entry) : list entry :=
  fold_right (insert_by key) [] l.

Definition source_in (sources : list str) (e : entry) : bool :=
  existsb (Py.eqb (Ingest.source (metadata e))) sources.

(** Modelled from the spec: [query] is the vector database's; section 4.2
    has it restrict the candidates to the chunks whose source is among
    [sources] and return up to [n_results] texts by decreasing
    similarity.  [distance q d] stands for the distance between the
    embeddings of [q] and [d]. *)
Definition query (distance : str -> str -> Z) (c : collection)
    (query_text : str) (sources : list str) (n_results : Z)
  : query_result :=
  let candidates := filter (source_in sources) c in
  let ranked := sort_by (fun e => distance query_text (document e))
                        candidates in
  {| documents :=
       Some [map document (firstn (Z.to_nat n_results) ranked)] |}.

End Chroma.

(** ** The standard JSON decoder *)

Module Json.

(** A Python [float] read from a decimal literal is kept as that
    literal: sign, digits and decimal exponent ([0.8] is
    [FDec false 8 (-1)]); rounding to binary is not modelled. *)
Inductive pyfloat :=
| FDec (negative : bool) (digits : N) (exp10 : Z)
| FNaN
| FInf (negative : bool).

(** What [json.loads] builds: [None], [bool], [int], [float], [str],
    [list] and [dict] (keys in insertion order). *)
Inductive value :=
| JNull
| JBool (b : bool)
| JInt (z : Z)
| JFloat (f : pyfloat)
| JStr (s : str)
| JList (l : list value)
| JDict (d : list (str * value)).

(** [d[key] = v] on a [dict]: overwrite in place or append. *)
Fixpoint dict_set (d : list (str * value)) (key : str) (v : value)
  : list (str * value) :=
  match d with
  | [] => [(key, v)]
  | (k, x) :: r =>
      if Py.eqb k key then (k, v) :: r else (k, x) :: dict_set r key v
  end.

Fixpoint dict_get (d : list (str * value)) (key : str) : option value :=
  match d with
  | [] => None
  | (k, x) :: r => if Py.eqb k key then Some x else dict_get r key
  end.

(** Outcome of a scanner: a value and the unread rest, a syntax error, or
    the recursion budget used up. *)
Inductive res (A : Type) :=
| Ok (a : A) (rest : str)
| Err (msg : str)
| OutOfFuel.
Arguments Err {A} msg.
Arguments OutOfFuel {A}.

Definition is_ws (c : Py.char) : bool :=
  ((c =? 32) || (c =? 9) || (c =? 10) || (c =? 13))%N.

Fixpoint skip_ws (s : str) : str :=
  match s with
  | c :: r => if is_ws c then skip_ws r else s
  | [] => []
  end.

Definition is_digit (c : Py.char) : bool := ((48 <=? c) && (c <=? 57))%N.

(** Leading decimal digits of [s] and what follows them. *)
Fixpoint span_digits (s : str) : str * str :=
  match s with
  | c :: r =>
      if is_digit c
      then let '(ds, rest) := span_digits r in (c :: ds, rest)
      else ([], s)
  | [] => ([], [])
  end.

Definition digits_value (ds : str) : N :=
  fold_left (fun acc c => (10 * acc + (c - 48))%N) ds 0%N.

Definition hex_digit (c : Py.char) : option N :=
  if is_digit c then Some (c - 48)%N
  else if ((97 <=? c) && (c <=? 102))%N then Some (c - 87)%N
  else if ((65 <=? c) && (c <=? 70))%N then Some (c - 55)%N
  else None.

Definition hex4 (a b c d : Py.char) : option N :=
  match hex_digit a, hex_digit b, hex_digit c, hex_digit d with
  | Some x, Some y, Some z, Some w =>
      Some (4096 * x + 256 * y + 16 * z + w)%N
  | _, _, _, _ => None
  end.

Definition is_high (u : N) : bool := ((55296 <=? u) && (u <=? 56319))%N.
Definition is_low (u : N) : bool := ((56320 <=? u) && (u <=? 57343))%N.
Definition join_surrogates (hi lo : N) : N :=
  (65536 + (hi - 55296) * 1024 + (lo - 56320))%N.

(** Character denoted by a one-letter escape. *)
Definition escape (e : Py.char) : option Py.char :=
  if (e =? 34)%N then Some 34%N          (* quote *)
  else if (e =? 92)%N then Some 92%N     (* backslash *)
  else if (e =? 47)%N then Some 47%N     (* slash *)
  else if (e =? 98)%N then Some 8%N      (* b *)
  else if (e =? 102)%N then Some 12%N    (* f *)
  else if (e =? 110)%N then Some 10%N    (* n *)
  else if (e =? 114)%N then Some 13%N    (* r *)
  else if (e =? 116)%N then Some 9%N     (* t *)
  else None.

Definition flush (hi : option Py.char) (acc : str) : str :=
  match hi with Some h => h :: acc | None => acc end.

(** Body of a string after its opening quote (strict mode).  [hi] is a
    high surrogate just read from a [\u] escape and waiting for its low
    half; [acc] is the text read so far, last character first. *)
Fixpoint scan_string (hi : option Py.char) (acc : str) (s : str)
  : res str :=
  match s with
  | [] => Err (Py.lit "Unterminated string")
  | c :: r =>
      if (c =? 34)%N then Ok (rev (flush hi acc)) r
      else if (c =? 92)%N then
        match r with
        | [] => Err (Py.lit "Unterminated string")
        | e :: r1 =>
            if (e =? 117)%N then
              match r1 with
              | h1 :: h2 :: h3 :: h4 :: r2 =>
                  match hex4 h1 h2 h3 h4 with
                  | None => Err (Py.lit "Invalid \uXXXX escape")
                  | Some u =>
                      match hi with
                      | Some h =>
                          if is_low u
                          then scan_string None
                                 (join_surrogates h u :: acc) r2
                          else if is_high u
                          then scan_string (Some u) (h :: acc) r2
                          else scan_string None (u :: h :: acc) r2
                      | None =>
                          if is_high u
                          then scan_string (Some u) acc r2
                          else scan_string None (u :: acc) r2
                      end
                  end
              | _ => Err (Py.lit "Invalid \uXXXX escape")
              end
            else
              match escape e with
              | Some x => scan_string None (x :: flush hi acc) r1
              | None => Err (Py.lit "Invalid \escape")
              end
        end
      else if (c <=? 31)%N then Err (Py.lit "Invalid control character")
      else scan_string None (c :: flush hi acc) r
  end.

(** Integer part of a number: [0] or a non-zero digit and more digits. *)
Definition span_int (s : str) : option (str * str) :=
  match s with
  | c :: r =>
      if (c =? 48)%N then Some ([c], r)
      else if is_digit c
      then let '(ds, rest) := span_digits r in Some (c :: ds, rest)
      else None
  | [] => None
  end.

(** [.digits], if a point and at least one digit follow. *)
Definition span_frac (s : str) : option (str * str) :=
  match s with
  | c :: r =>
      if (c =? 46)%N then
        match span_digits r with
        | ([], _) => None
        | (ds, rest) => Some (ds, rest)
        end
      else None
  | [] => None
  end.

(** [e], an optional sign and at least one digit, if they follow. *)
Definition span_exp (s : str) : option (Z * str) :=
  match s with
  | c :: r =>
      if ((c =? 101) || (c =? 69))%N then
        let '(neg, r1) :=
          match r with
          | sg :: r' =>
              if (sg =? 45)%N then (true, r')
              else if (sg =? 43)%N then (false, r') else (false, r)
          | [] => (false, r)
          end in
        match span_digits r1 with
        | ([], _) => None
        | (ds, rest) =>
            let e := Z.of_N (digits_value ds) in
            Some ((if neg then - e else e)%Z, rest)
        end
      else None
  | [] => None
  end.

(** A number at the head of [s]: an [int] without fraction and
    exponent, a [float] otherwise. *)
Definition scan_number (s : str) : option (value * str) :=
  let '(neg, s1) :=
    match s with
    | c :: r => if (c =? 45)%N then (true, r) else (false, s)
    | [] => (false, s)
    end in
  match span_int s1 with
  | None => None
  | Some (ip, s2) =>
      let '(fp, s3) :=
        match span_frac s2 with
        | Some (ds, rest) => (Some ds, rest)
        | None => (None, s2)
        end in
      let '(ep, s4) :=
        match span_exp s3 with
        | Some (e, rest) => (Some e, rest)
        | None => (None, s3)
        end in
      match fp, ep with
      | None, None =>
          let n := Z.of_N (digits_value ip) in
          Some (JInt (if neg then - n else n)%Z, s4)
      | _, _ =>
          let fd := match fp with Some ds => ds | None => [] end in
          let e := match ep with Some e => e | None => 0%Z end in
          Some (JFloat (FDec neg (digits_value (ip ++ fd))
                             (e - Z.of_nat (List.length fd))%Z), s4)
      end
  end.

(** The rest of [s] after the literal [w], if [s] starts with it. *)
Fixpoint after (w s : str) : option str :=
  match w, s with
  | [], _ => Some s
  | x :: w', c :: s' => if Py.char_eqb x c then after w' s' else None
  | _ :: _, [] => None
  end.

(** Named constants and numbers. *)
Definition scan_atom (s : str) : res value :=
  match after (Py.lit "null") s with
  | Some r => Ok JNull r
  | None =>
  match after (Py.lit "true") s with
  | Some r => Ok (JBool true) r
  | None =>
  match after (Py.lit "false") s with
  | Some r => Ok (JBool false) r
  | None =>
  match after (Py.lit "NaN") s with
  | Some r => Ok (JFloat FNaN) r
  | None =>
  match after (Py.lit "Infinity") s with
  | Some r => Ok (JFloat (FInf false)) r
  | None =>
  match after (Py.lit "-Infinity") s with
  | Some r => Ok (JFloat (FInf true)) r
  | None =>
  match scan_number s with
  | Some (v, r) => Ok v r
  | None => Err (Py.lit "Expecting value")
  end end end end end end end.

(** One JSON term at the head of [s]; [members] and [elements] read the
    inside of an object and of an array.  [fuel] bounds the nesting. *)
Fixpoint scan_once (fuel : nat) (s : str) : res value :=
  match fuel with
  | O => OutOfFuel
  | S f =>
      match s with
      | [] => Err (Py.lit "Expecting value")
      | c :: r =>
          if (c =? 34)%N then
            match scan_string None [] r with
            | Ok t rest => Ok (JStr t) rest
            | Err m => Err m
            | OutOfFuel => OutOfFuel
            end
          else if (c =? 123)%N then
            match skip_ws r with
            | c1 :: r1 =>
                if (c1 =? 125)%N then Ok (JDict []) r1
                else members f [] (c1 :: r1)
            | [] => members f [] []
            end
          else if (c =? 91)%N then
            match skip_ws r with
            | c1 :: r1 =>
                if (c1 =? 93)%N then Ok (JList []) r1
                else elements f [] (c1 :: r1)
            | [] => elements f [] []
            end
          else scan_atom s
      end
  end

with members (fuel : nat) (acc : list (str * value)) (s : str)
  : res value :=
  match fuel with
  | O => OutOfFuel
  | S f =>
      match s with
      | c :: r =>
          if (c =? 34)%N then
            match scan_string None [] r with
            | Ok key r1 =>
                match skip_ws r1 with
                | c2 :: r2 =>
                    if (c2 =? 58)%N then
                      match scan_once f (skip_ws r2) with
                      | Ok v r3 =>
                          match skip_ws r3 with
                          | c4 :: r4 =>
                              if (c4 =? 125)%N
                              then Ok (JDict (dict_set acc key v)) r4
                              else if (c4 =? 44)%N
                              then members f (dict_set acc key v)
                                           (skip_ws r4)
                              else Err (Py.lit "Expecting ',' delimiter")
                          | [] => Err (Py.lit "Expecting ',' delimiter")
                          end
                      | Err m => Err m
                      | OutOfFuel => OutOfFuel
                      end
                    else Err (Py.lit "Expecting ':' delimiter")
                | [] => Err (Py.lit "Expecting ':' delimiter")
                end
            | Err m => Err m
            | OutOfFuel => OutOfFuel
            end
          else Err (Py.lit "Expecting property name enclosed in double quotes")
      | [] => Err (Py.lit "Expecting property name enclosed in double quotes")
      end
  end

with elements (fuel : nat) (acc : list value) (s : str) : res value :=
  match fuel with
  | O => OutOfFuel
  | S f =>
      match scan_once f s with
      | Ok v r1 =>
          match skip_ws r1 with
          | c2 :: r2 =>
              if (c2 =? 93)%N then Ok (JList (acc ++ [v])) r2
              else if (c2 =? 44)%N
              then elements f (acc ++ [v]) (skip_ws r2)
              else Err (Py.lit "Expecting ',' delimiter")
          | [] => Err (Py.lit "Expecting ',' delimiter")
          end
      | Err m => Err m
      | OutOfFuel => OutOfFuel
      end
  end.

(** Every level of nesting uses two units and at least one character,
    so this budget is never used up ([JsonFacts.loads_total] below). *)
Definition budget (s : str) : nat := S (2 * List.length s).

(** [json.loads(s)]: one term, surrounded by optional whitespace, and
    nothing else.  The texts of the errors are shortened and carry no
    position; the limits of the interpreter are left to
    [Cpython.loads]. *)
Definition loads (s : str) : exn + value :=
  match scan_once (budget s) (skip_ws s) with
  | Ok v rest =>
      match skip_ws rest with
      | [] => inr v
      | _ :: _ => inl (JSONDecodeError (Py.lit "Extra data"))
      end
  | Err m => inl (JSONDecodeError m)
  | OutOfFuel => inl (RecursionError (Py.lit "maximum recursion depth exceeded"))
  end.

End Json.

(** ** Schema validation *)

Module Pydantic.

(** How the validation library converts, for a [float] field, a value
    that is not a [float]: these conversions belong to the library and
    are left open.  [None] means the value is refused. *)
Record coercions := {
  float_of_int : Z -> option Json.pyfloat;
  float_of_str : str -> option Json.pyfloat;
  float_of_bool : bool -> option Json.pyfloat
}.

Inductive field_type := TFloat | TStr.

(** Validation of one value against [float]: a [float] is taken as it
    is, [None], lists and mappings are refused. *)
Definition validate_float (co : coercions) (v : Json.value)
  : option Json.pyfloat :=
  match v with
  | Json.JFloat f => Some f
  | Json.JInt z => float_of_int co z
  | Json.JStr s => float_of_str co s
  | Json.JBool b => float_of_bool co b
  | Json.JNull | Json.JList _ | Json.JDict _ => None
  end.

(** Validation of one value against [str]: only a [str] is accepted. *)
Definition validate_str (v : Json.value) : option str :=
  match v with
  | Json.JStr s => Some s
  | _ => None
  end.

Definition accepts (co : coercions) (t : field_type) (v : Json.value)
  : bool :=
  match t with
  | TFloat => match validate_float co v with Some _ => true | None => false end
  | TStr => match validate_str v with Some _ => true | None => false end
  end.

(** A model class: its name, its required fields, and its constructor
    from keyword arguments, which raises [ValidationError] when a field
    is missing or refused (keywords that name no field are ignored). *)
Record model (T : Type) := {
  name : str;
  fields : list (str * field_type);
  construct : coercions -> list (str * Json.value) -> exn + T
}.

Definition validation_error (model_name : str) : exn :=
  ValidationError (Py.lit "validation error for " ++ model_name).

Definition required_float (co : coercions) (model_name : str)
    (d : list (str * Json.value)) (field : str) : exn + Json.pyfloat :=
  match Json.dict_get d field with
  | None => inl (validation_error model_name)
  | Some v =>
      match validate_float co v with
      | Some f => inr f
      | None => inl (validation_error model_name)
      end
  end.

Definition required_str (model_name : str)
    (d : list (str * Json.value)) (field : str) : exn + str :=
  match Json.dict_get d field with
  | None => inl (validation_error model_name)
  | Some v =>
      match validate_str v with
      | Some s => inr s
      | None => inl (validation_error model_name)
      end
  end.

(** Every field of [fs] is present in [d] with a value its type
    accepts. *)
Definition conforms (co : coercions) (fs : list (str * field_type))
    (d : list (str * Json.value)) : bool :=
  forallb (fun ft =>
             match Json.dict_get d (fst ft) with
             | Some v => accepts co (snd ft) v
             | None => false
             end) fs.

End Pydantic.

(** ** The regular expression of the JSON extraction *)

Module Re.

Definition OPEN : Py.char := 123%N.
Definition CLOSE : Py.char := 125%N.

(** What follows the first opening brace of [s]. *)
Fixpoint after_first_open (s : str) : option str :=
  match s with
  | [] => None
  | c :: r => if Py.char_eqb c OPEN then Some r else after_first_open r
  end.

(** Longest prefix of [s] that ends with a closing brace. *)
Fixpoint upto_last_close (s : str) : option str :=
  match s with
  | [] => None
  | c :: r =>
      match upto_last_close r with
      | Some m => Some (c :: m)
      | None => if Py.char_eqb c CLOSE then Some [c] else None
      end
  end.

(** [re.search(r"\{.*\}", s, re.DOTALL)] and [match.group(0)]: the
    search starts at the leftmost opening brace that a closing brace
    follows, and the greedy [.*], which with DOTALL matches every
    character, runs to the last closing brace of the text. *)
Definition search_braces (s : str) : option str :=
  match after_first_open s with
  | None => None
  | Some r =>
      match upto_last_close r with
      | None => None
      | Some m => Some (OPEN :: m)
      end
  end.

End Re.

(** ** Effects *)

Module Eff.

(** Calls that leave the process, in the order they are made. *)
Inductive event :=
| EvReadPdf (file_path : str)
| EvQuery (query_text : str) (sources : list str) (n_results : Z)
| EvGenerate (prompt : str)
| EvSleep (delay : Z)
| EvUpsert (ids : list str).

Definition is_generate (e : event) : bool :=
  match e with EvGenerate _ => true | _ => false end.

Definition is_sleep (e : event) : bool :=
  match e with EvSleep _ => true | _ => false end.

Definition trace := list event.

(** The state a run threads: the calls made so far and the contents of
    the persisted collection. *)
Record state := { log : trace; db : Chroma.collection }.

(** Number of LLM calls recorded in a trace. *)
Definition llm_calls (t : trace) : nat :=
  List.length (filter is_generate t).

(** A computation reads and updates the state and either returns or
    raises. *)
Definition M (A : Type) : Type := state -> (exn + A) * state.

Definition ret {A} (a : A) : M A := fun t => (inr a, t).
Definition raise {A} (e : exn) : M A := fun t => (inl e, t).

Definition bind {A B} (m : M A) (k : A -> M B) : M B :=
  fun t =>
    match m t with
    | (inr a, t') => k a t'
    | (inl e, t') => (inl e, t')
    end.

(** [try: m  except Exception as e: h e] *)
Definition try_except {A} (m : M A) (h : exn -> M A) : M A :=
  fun t =>
    match m t with
    | (inr a, t') => (inr a, t')
    | (inl e, t') => h e t'
    end.

Definition emit (e : event) : M unit :=
  fun t => (inr tt, {| log := log t ++ [e]; db := db t |}).

Definition get_state : M state := fun t => (inr t, t).

Definition set_db (c : Chroma.collection) : M unit :=
  fun t => (inr tt, {| log := log t; db := c |}).

(** A value that is either an exception or a result, lifted. *)
Definition lift {A} (r : exn + A) : M A := fun t => (r, t).

End Eff.

Import Eff.

Declare Scope eff_scope.
Delimit Scope eff_scope with eff.
Notation "x <- m ;; k" := (Eff.bind m (fun x => k))
(at level 61, m at next level, right associativity) : eff_scope.
Notation "m ;;; k" := (Eff.bind m (fun _ => k))
(at level 61, right associativity) : eff_scope.
(** ** app/models.py *)

Module Models.

Record EvaluationResultData := {
  cv_match_rate : Json.pyfloat;
  cv_feedback : str;
  project_score : Json.pyfloat;
  project_feedback : str;
  overall_summary : str
}.

End Models.

(** ** app/services.py *)

Module Services.

Import Pydantic.

(** *** The three output models *)

Record CvEvaluationOutput := {
  cv_match_rate : Json.pyfloat;
  cv_feedback : str
}.

Record ProjectEvaluationOutput := {
  project_score : Json.pyfloat;
  project_feedback : str
}.

Record FinalSummaryOutput := { overall_summary : str }.

Definition CvEvaluationOutput_model : model CvEvaluationOutput :=
  let n := Py.lit "CvEvaluationOutput" in
  {| name := n;
     fields := [(Py.lit "cv_match_rate", TFloat);
                (Py.lit "cv_feedback", TStr)];
     construct := fun co d =>
       match required_float co n d (Py.lit "cv_match_rate") with
       | inl e => inl e
       | inr r =>
           match required_str n d (Py.lit "cv_feedback") with
           | inl e => inl e
           | inr f => inr {| cv_match_rate := r; cv_feedback := f |}
           end
       end |}.

Definition ProjectEvaluationOutput_model : model ProjectEvaluationOutput :=
  let n := Py.lit "ProjectEvaluationOutput" in
  {| name := n;
     fields := [(Py.lit "project_score", TFloat);
                (Py.lit "project_feedback", TStr)];
     construct := fun co d =>
       match required_float co n d (Py.lit "project_score") with
       | inl e => inl e
       | inr r =>
           match required_str n d (Py.lit "project_feedback") with
           | inl e => inl e
           | inr f => inr {| project_score := r; project_feedback := f |}
           end
       end |}.

Definition FinalSummaryOutput_model : model FinalSummaryOutput :=
  let n := Py.lit "FinalSummaryOutput" in
  {| name := n;
     fields := [(Py.lit "overall_summary", TStr)];
     construct := fun co d =>
       match required_str n d (Py.lit "overall_summary") with
       | inl e => inl e
       | inr s => inr {| overall_summary := s |}
       end |}.

Definition cv_to_dict (x : CvEvaluationOutput) : Json.value :=
  Json.JDict [(Py.lit "cv_match_rate", Json.JFloat (cv_match_rate x));
              (Py.lit "cv_feedback", Json.JStr (cv_feedback x))].

Definition project_to_dict (x : ProjectEvaluationOutput) : Json.value :=
  Json.JDict [(Py.lit "project_score", Json.JFloat (project_score x));
              (Py.lit "project_feedback", Json.JStr (project_feedback x))].

(** *** The collaborators

    Everything outside the process is gathered in one record, so that
    every statement below quantifies over all of its behaviours. *)
Record World := {
  (** the configured LLM model, [None] when its configuration failed at
      start-up; [generate n prompt] is the outcome of the call made
      after [n] earlier calls: the response text, or the exception of
      the transport or of reading the text *)
  llm_model : option (nat -> str -> exn + str);
  (** text of the pages of the PDF at a path, and of a PDF in memory *)
  pdf_reader : str -> exn + list str;
  pdf_reader_bytes : Bytes.bytes -> exn + list str;
  (** whether the module-level [collection] handle was obtained, and
      whether a later attempt to open the collection succeeds *)
  collection_loaded : bool;
  reconnect_ok : bool;
  (** whether the backing store answers *)
  store_up : bool;
  (** distance between the embeddings of a query and of a text *)
  distance : str -> str -> Z;
  (** conversions of the validation library *)
  coercions : Pydantic.coercions;
  (** [json.dumps(Model.model_json_schema(), indent=2)] by model name *)
  model_json_schema : str -> str;
  (** [x.model_dump_json(indent=2)] of the fields of [x] *)
  model_dump_json : Json.value -> str
}.

(** Separator of the pages and of the paragraphs: ["\n\n"]. *)
Definition blank : str := Ingest.blank.

Local Open Scope eff_scope.

(** *** Helpers *)

Definition parse_pdf (W : World) (file_path : str) : M str :=
  emit (EvReadPdf file_path) ;;;
  match pdf_reader W file_path with
  | inl e => raise e
  | inr pages => ret (List.concat (map (fun page => page ++ blank) pages))
  end.

(** [collection.query(...)] on the persisted collection. *)
Definition collection_query (W : World) (query_text : str)
    (sources : list str) (n_results : Z)
  : M (option Chroma.query_result) :=
  emit (EvQuery query_text sources n_results) ;;;
  if store_up W
  then st <- get_state ;;
       ret (Some (Chroma.query (distance W) (db st)
                               query_text sources n_results))
  else raise (ServiceError (Py.lit "StoreUnavailable")).

Definition default_n_results : Z := 5.

Definition query_rag (W : World) (query_text : str) (sources : list str)
    (n_results : Z) : M str :=
  if negb (collection_loaded W)
  then raise (Exception (Py.lit "Koneksi ChromaDB tidak tersedia."))
  else
    results <- collection_query W query_text sources n_results ;;
    match results with
    | None => ret []
    | Some r =>
        match Chroma.documents r with
        | None | Some [] => ret []
        | Some (docs0 :: _) =>
            match docs0 with
            | [] => ret []
            | _ :: _ =>
                ret (Py.join ([Py.NL] ++ Py.lit "---" ++ [Py.NL]) docs0)
            end
        end
    end.

(** [time.sleep(delay)], which refuses a negative length. *)
Definition sleep (delay : Z) : M unit :=
  if (delay <? 0)%Z
  then raise (ValueError (Py.lit "sleep length must be non-negative"))
  else emit (EvSleep delay).

(** [llm_model.generate_content(prompt)] followed by [response.text]. *)
Definition generate_content (g : nat -> str -> exn + str) (prompt : str)
  : M str :=
  st <- get_state ;;
  emit (EvGenerate prompt) ;;;
  lift (g (llm_calls (log st)) prompt).

(** The [for attempt in range(retries)] loop: [remaining] iterations are
    left and the next one is number [attempt]. *)
Fixpoint retry_loop (g : nat -> str -> exn + str) (prompt : str)
    (retries delay : Z) (remaining : nat) (attempt : Z) : M str :=
  match remaining with
  | O => ret []
  | S k =>
      try_except (generate_content g prompt)
        (fun e =>
           if (attempt <? retries - 1)%Z
           then sleep delay ;;;
                retry_loop g prompt retries delay k (attempt + 1)%Z
           else raise e)
  end.

Definition default_retries : Z := 3.
Definition default_delay : Z := 5.

Definition call_gemini_with_retry (W : World) (prompt : str)
    (retries delay : Z) : M str :=
  match llm_model W with
  | None =>
      raise (Exception (Py.lit "Model LLM (Gemini) tidak terinisialisasi."))
  | Some g => retry_loop g prompt retries delay (Z.to_nat retries) 0%Z
  end.

(** The text handed to the JSON decoder: the match of the regular
    expression, or the whole output when there is none. *)
Definition json_str (llm_output : str) : str :=
  match Re.search_braces llm_output with
  | None => llm_output
  | Some m => m
  end.

Definition parse_llm_json {T} (co : Pydantic.coercions)
    (llm_output : str) (output_model : model T) : exn + T :=
  match Json.loads (json_str llm_output) with
  | inr (Json.JDict json_data) =>
      match construct output_model co json_data with
      | inr validated_data => inr validated_data
      | inl (ValidationError m) =>
          inl (Exception (Py.lit "LLM output schema mismatch: " ++ m))
      | inl e => inl e
      end
  | inr _ =>
      inl (TypeError (Py.lit "argument after ** must be a mapping"))
  | inl (JSONDecodeError m) =>
      inl (Exception (Py.lit "Invalid JSON response from LLM: " ++ m))
  | inl e => inl e
  end.

(** The three prompt templates, character for character. *)
Definition create_cv_prompt (W : World)
    (cv_text jd_context rubric_context : str) : str :=
  Py.lit "
    Anda adalah seorang Manajer Perekrutan Teknis senior.
    Tugas Anda adalah mengevaluasi CV kandidat berdasarkan Deskripsi Pekerjaan (Job Description) dan Rubrik Penilaian CV.
    
    Hitung skor rata-rata tertimbang (skala 1-5) berdasarkan Rubrik, lalu KONVERSIKAN ke skala 0.0 - 1.0 (Skor / 5.0).
    Berikan feedback yang jujur dan ringkas.

    KONTEKS PENTING:
    --- Rubrik Penilaian CV ---
    "
  ++ rubric_context
  ++ Py.lit "
    
    --- Deskripsi Pekerjaan (Job Description) ---
    "
  ++ jd_context
  ++ Py.lit "

    DATA KANDIDAT:
    --- CV Kandidat (Teks) ---
    "
  ++ cv_text
  ++ Py.lit "
    
    INSTRUKSI OUTPUT:
    Anda HARUS memberikan jawaban HANYA dalam format JSON yang valid, sesuai dengan skema ini.
    JANGAN tambahkan salam, penjelasan, atau teks lain di luar blok JSON.
    
    Skema JSON:
    "
  ++ model_json_schema W (Pydantic.name CvEvaluationOutput_model)
  ++ Py.lit "
    ".

Definition create_project_prompt (W : World)
    (report_text brief_context rubric_context : str) : str :=
  Py.lit "
    Anda adalah seorang Senior Backend Engineer.
    Tugas Anda adalah mengevaluasi Laporan Proyek kandidat berdasarkan Case Study Brief (soal) dan Rubrik Penilaian Proyek.
    
    Hitung skor rata-rata tertimbang (skala 1.0 - 5.0) berdasarkan Rubrik.
    Berikan feedback yang jujur dan ringkas.

    KONTEKS PENTING:
    --- Rubrik Penilaian Proyek ---
    "
  ++ rubric_context
  ++ Py.lit "
    
    --- Case Study Brief (Soal) ---
    "
  ++ brief_context
  ++ Py.lit "

    DATA KANDIDAT:
    --- Laporan Proyek Kandidat (Teks) ---
    "
  ++ report_text
  ++ Py.lit "
    
    INSTRUKSI OUTPUT:
    Anda HARUS memberikan jawaban HANYA dalam format JSON yang valid, sesuai dengan skema ini.
    JANGAN tambahkan salam, penjelasan, atau teks lain di luar blok JSON.
    
    Skema JSON:
    "
  ++ model_json_schema W (Pydantic.name ProjectEvaluationOutput_model)
  ++ Py.lit "
    ".

Definition create_summary_prompt (W : World)
    (cv_eval : CvEvaluationOutput) (project_eval : ProjectEvaluationOutput)
  : str :=
  Py.lit "
    Anda adalah seorang Hiring Manager.
    Anda telah menerima dua laporan evaluasi untuk seorang kandidat.
    Tugas Anda adalah mensintesis kedua evaluasi ini menjadi satu ringkasan akhir (3-5 kalimat)
    yang menyoroti kekuatan, kelemahan, dan rekomendasi.
    
    EVALUASI 1: CV
    "
  ++ model_dump_json W (cv_to_dict cv_eval)
  ++ Py.lit "
    
    EVALUASI 2: Laporan Proyek
    "
  ++ model_dump_json W (project_to_dict project_eval)
  ++ Py.lit "
    
    INSTRUKSI OUTPUT:
    Anda HARUS memberikan jawaban HANYA dalam format JSON yang valid, sesuai dengan skema ini.
    JANGAN tambahkan salam, penjelasan, atau teks lain di luar blok JSON.
    
    Skema JSON:
    "
  ++ model_json_schema W (Pydantic.name FinalSummaryOutput_model)
  ++ Py.lit "
    ".

(** *** The pipeline *)

Definition run_real_evaluation_pipeline (W : World)
    (job_id cv_path report_path job_title : str)
  : M Models.EvaluationResultData :=
  try_except
    (cv_text <- parse_pdf W cv_path ;;
     report_text <- parse_pdf W report_path ;;

     jd_context <- query_rag W (Py.lit "skills untuk " ++ job_title)
                     [Py.lit "job_description"] default_n_results ;;
     cv_rubric_context <- query_rag W (Py.lit "rubrik penilaian cv")
                            [Py.lit "cv_rubric"] default_n_results ;;
     let cv_prompt := create_cv_prompt W cv_text jd_context
                        cv_rubric_context in
     cv_response_str <- call_gemini_with_retry W cv_prompt
                          default_retries default_delay ;;
     cv_eval <- lift (parse_llm_json (coercions W) cv_response_str
                        CvEvaluationOutput_model) ;;

     brief_context <- query_rag W (Py.lit "persyaratan case study")
                        [Py.lit "case_study_brief"] default_n_results ;;
     project_rubric_context <- query_rag W
                                 (Py.lit "rubrik penilaian proyek")
                                 [Py.lit "project_rubric"]
                                 default_n_results ;;
     let project_prompt := create_project_prompt W report_text
                             brief_context project_rubric_context in
     project_response_str <- call_gemini_with_retry W project_prompt
                               default_retries default_delay ;;
     project_eval <- lift (parse_llm_json (coercions W)
                             project_response_str
                             ProjectEvaluationOutput_model) ;;

     let summary_prompt := create_summary_prompt W cv_eval project_eval in
     summary_response_str <- call_gemini_with_retry W summary_prompt
                               default_retries default_delay ;;
     summary_eval <- lift (parse_llm_json (coercions W)
                             summary_response_str
                             FinalSummaryOutput_model) ;;

     ret {| Models.cv_match_rate := cv_match_rate cv_eval;
            Models.cv_feedback := cv_feedback cv_eval;
            Models.project_score := project_score project_eval;
            Models.project_feedback := project_feedback project_eval;
            Models.overall_summary := overall_summary summary_eval |})
    (fun e => raise e).

(** *** Ingestion *)

(** [_get_chroma_collection]: the module-level handle if there is one,
    else one more attempt to open the collection.  [true] stands for a
    handle, [false] for [None]. *)
Definition _get_chroma_collection (W : World) : bool :=
  if collection_loaded W then true else reconnect_ok W.

(** [coll.upsert(documents, metadatas, ids)] on the persisted
    collection. *)
Definition collection_upsert (W : World) (documents : list str)
    (metadatas : list Ingest.metadata) (ids : list str) : M unit :=
  emit (EvUpsert ids) ;;;
  if store_up W
  then st <- get_state ;;
       set_db (Chroma.upsert ids documents metadatas (db st))
  else raise (ServiceError (Py.lit "StoreUnavailable")).

(** The loop that fills [all_chunks_text], [all_metadatas] and
    [all_ids]. *)
Fixpoint collect_chunks (chunks : list Ingest.chunk)
    (acc : list str * list Ingest.metadata * list str)
  : exn + list str * list Ingest.metadata * list str :=
  match chunks with
  | [] => inr acc
  | chunk :: rest =>
      let '(all_chunks_text, all_metadatas, all_ids) := acc in
      let chunk_text := Ingest.text chunk in
      match Ingest.generate_document_id chunk_text with
      | inl e => inl e
      | inr chunk_id =>
          collect_chunks rest
            (all_chunks_text ++ [chunk_text],
             all_metadatas ++ [Ingest.meta chunk],
             all_ids ++ [chunk_id])
      end
  end.

Record ingest_report := {
  message : str;
  source_name : str;
  chunks_added : Z
}.

(** Lines 377-389: the text of the uploaded file. *)
Definition read_content (W : World) (file_bytes : Bytes.bytes)
    (file_name : str) : M str :=
  try_except
    (if Py.endswith file_name (Py.lit ".pdf")
     then match pdf_reader_bytes W file_bytes with
          | inl e => raise e
          | inr pages =>
              ret (List.concat (map (fun page => page ++ blank) pages))
          end
     else if Py.endswith file_name (Py.lit ".txt")
     then lift (Bytes.decode_utf8 file_bytes)
     else raise (ValueError
                   (Py.lit "Tipe file tidak didukung. Hanya .pdf atau .txt")))
    (fun e =>
       raise (HTTPException 400
                (Py.lit "Gagal mem-parsing file: " ++ exn_str e))).

Definition ingest_document (W : World) (file_bytes : Bytes.bytes)
    (file_name source_name : str) : M ingest_report :=
  content <- read_content W file_bytes file_name ;;
  let chunks := Ingest.split_text_into_chunks content source_name
                  Ingest.default_chunk_size Ingest.default_chunk_overlap in
  lists <- lift (collect_chunks chunks ([], [], [])) ;;
  let '(all_chunks_text, all_metadatas, all_ids) := lists in
  if negb (_get_chroma_collection W)
  then raise (HTTPException 500 (Py.lit "Database Chroma tidak tersedia"))
  else
    collection_upsert W all_chunks_text all_metadatas all_ids ;;;
    ret {| message := Py.lit "Dokumen berhasil di-ingest";
           source_name := source_name;
           chunks_added := Py.len_list all_chunks_text |}.

End Services.

(** ** app/worker.py *)

Module Worker.

(** What the task queue records for a finished task: its return value,
    or the exception it raised. *)
Inductive task_state :=
| SUCCESS (result : Models.EvaluationResultData)
| FAILURE (error : exn).

(** [evaluate_candidate_task]: the pipeline's result is returned, its
    exception is raised again. *)
Definition evaluate_candidate_task (W : Services.World)
    (job_id cv_path report_path job_title : str)
  : M Models.EvaluationResultData :=
  try_except
    (Services.run_real_evaluation_pipeline W job_id cv_path report_path
       job_title)
    (fun e => raise e).

(** State of the task after a run from state [s], and the state left. *)
Definition run_task (W : Services.World)
    (job_id cv_path report_path job_title : str) (s : state)
  : task_state * state :=
  match evaluate_candidate_task W job_id cv_path report_path job_title s
  with
  | (inr r, s') => (SUCCESS r, s')
  | (inl e, s') => (FAILURE e, s')
  end.

End Worker.

(** ** Vocabulary of the statements *)

Module Vocab.

(** A text that starts and ends with a character that is not
    whitespace. *)
Definition clean (p : str) : Prop :=
  (exists c r, p = c :: r /\ Py.isspace c = false) /\
  (exists c r, rev p = c :: r /\ Py.isspace c = false).

(** The text [current_chunk] holds after the paragraphs of [g] were
    appended to it. *)
Definition render (g : list str) : str :=
  List.concat (map (fun p => p ++ Ingest.blank) g).

(** A group fits when its accumulated text does, or when it is one
    paragraph. *)
Definition fits (cs : Z) (g : list str) : Prop :=
  (Py.len (render g) <= cs)%Z \/ exists p, g = [p].

(** A text without its whitespace. *)
Definition squash (s : str) : str :=
  filter (fun c => negb (Py.isspace c)) s.

(** The chunk made of the paragraphs of [g]. *)
Definition chunk_of (source_name : str) (g : list str) : Ingest.chunk :=
  {| Ingest.text := Py.join Ingest.blank g;
     Ingest.meta := {| Ingest.source := source_name |} |}.

(** The calls of three attempts on [prompt]: three calls to the model,
    a pause of [delay] between consecutive ones. *)
Definition three_attempts (prompt : str) (delay : Z) : trace :=
  [EvGenerate prompt; EvSleep delay;
   EvGenerate prompt; EvSleep delay;
   EvGenerate prompt].

(** What the three scanners guarantee with a budget [fuel]: a term read
    ends strictly after its start, and a budget of more than twice the
    length of the text is not used up. *)
Definition scanners_progress (fuel : nat) : Prop :=
  (forall s,
      (forall v r, Json.scan_once fuel s = Json.Ok v r -> List.length r < List.length s)
      /\ (2 * List.length s < fuel -> Json.scan_once fuel s <> Json.OutOfFuel))
  /\ (forall acc s,
         (forall v r, Json.members fuel acc s = Json.Ok v r -> List.length r < List.length s)
         /\ (2 * List.length s + 2 <= fuel -> Json.members fuel acc s <> Json.OutOfFuel))
  /\ (forall acc s,
         (forall v r, Json.elements fuel acc s = Json.Ok v r -> List.length r < List.length s)
         /\ (2 * List.length s + 2 <= fuel -> Json.elements fuel acc s <> Json.OutOfFuel)).

(** *** Structured output *)

(** Follows the words of the specification, section 4.4 step 3: the
    first balanced [{...}] of a text, found by counting braces from each
    opening brace in turn.  [balanced_from depth s] is the part of [s]
    up to the brace that closes [depth + 1] open ones. *)
Fixpoint balanced_from (depth : nat) (s : str) : option str :=
  match s with
  | [] => None
  | c :: r =>
      if Py.char_eqb c Re.CLOSE then
        match depth with
        | O => Some [c]
        | S d => option_map (cons c) (balanced_from d r)
        end
      else if Py.char_eqb c Re.OPEN
      then option_map (cons c) (balanced_from (S depth) r)
      else option_map (cons c) (balanced_from depth r)
  end.

Fixpoint first_balanced_object (s : str) : option str :=
  match s with
  | [] => None
  | c :: r =>
      if Py.char_eqb c Re.OPEN then
        match balanced_from 0 r with
        | Some m => Some (c :: m)
        | None => first_balanced_object r
        end
      else first_balanced_object r
  end.

(** A field of a schema is missing from a mapping, or holds a value its
    type refuses. *)
Definition field_missing (d : list (str * Json.value)) (f : str) : Prop :=
  Json.dict_get d f = None.

Definition field_mistyped (co : Pydantic.coercions)
    (d : list (str * Json.value)) (f : str) (t : Pydantic.field_type)
  : Prop :=
  exists v, Json.dict_get d f = Some v /\ Pydantic.accepts co t v = false.

(** A model class whose constructor succeeds exactly on the mappings
    that conform to its fields, and raises [ValidationError] on the
    others. *)
Definition lawful {T} (m : Pydantic.model T) : Prop :=
  forall co d,
    match Pydantic.construct m co d with
    | inr _ => Pydantic.conforms co (Pydantic.fields m) d = true
    | inl e =>
        Pydantic.conforms co (Pydantic.fields m) d = false
        /\ e = Pydantic.validation_error (Pydantic.name m)
    end.

(** The three model classes the pipeline validates against. *)
Inductive output_model : Type -> Type :=
| CvModel : output_model Services.CvEvaluationOutput
| ProjectModel : output_model Services.ProjectEvaluationOutput
| SummaryModel : output_model Services.FinalSummaryOutput.

Definition model_of {T} (k : output_model T) : Pydantic.model T :=
  match k with
  | CvModel => Services.CvEvaluationOutput_model
  | ProjectModel => Services.ProjectEvaluationOutput_model
  | SummaryModel => Services.FinalSummaryOutput_model
  end.

(** *** The pipeline, stage by stage

    The blocks of [run_real_evaluation_pipeline], named.  [invoke] is
    the pair of statements each stage ends with: the call to the model
    and the parsing of its answer. *)
Definition invoke {T} (W : Services.World) (prompt : str)
    (output_model : Pydantic.model T) : M T :=
  Eff.bind
    (Services.call_gemini_with_retry W prompt Services.default_retries
       Services.default_delay)
    (fun response =>
       lift (Services.parse_llm_json (Services.coercions W) response
               output_model)).

Definition extract_stage (W : Services.World) (cv_path report_path : str)
  : M (str * str) :=
  Eff.bind (Services.parse_pdf W cv_path) (fun cv_text =>
  Eff.bind (Services.parse_pdf W report_path) (fun report_text =>
  ret (cv_text, report_text))).

Definition cv_stage (W : Services.World) (job_title cv_text : str)
  : M Services.CvEvaluationOutput :=
  Eff.bind (Services.query_rag W (Py.lit "skills untuk " ++ job_title)
              [Py.lit "job_description"] Services.default_n_results)
    (fun jd_context =>
  Eff.bind (Services.query_rag W (Py.lit "rubrik penilaian cv")
              [Py.lit "cv_rubric"] Services.default_n_results)
    (fun cv_rubric_context =>
  invoke W (Services.create_cv_prompt W cv_text jd_context
              cv_rubric_context)
         Services.CvEvaluationOutput_model)).

Definition project_stage (W : Services.World) (report_text : str)
  : M Services.ProjectEvaluationOutput :=
  Eff.bind (Services.query_rag W (Py.lit "persyaratan case study")
              [Py.lit "case_study_brief"] Services.default_n_results)
    (fun brief_context =>
  Eff.bind (Services.query_rag W (Py.lit "rubrik penilaian proyek")
              [Py.lit "project_rubric"] Services.default_n_results)
    (fun project_rubric_context =>
  invoke W (Services.create_project_prompt W report_text brief_context
              project_rubric_context)
         Services.ProjectEvaluationOutput_model)).

Definition summary_stage (W : Services.World)
    (cv_eval : Services.CvEvaluationOutput)
    (project_eval : Services.ProjectEvaluationOutput)
  : M Services.FinalSummaryOutput :=
  invoke W (Services.create_summary_prompt W cv_eval project_eval)
         Services.FinalSummaryOutput_model.

Definition assemble (cv_eval : Services.CvEvaluationOutput)
    (project_eval : Services.ProjectEvaluationOutput)
    (summary_eval : Services.FinalSummaryOutput)
  : Models.EvaluationResultData :=
  {| Models.cv_match_rate := Services.cv_match_rate cv_eval;
     Models.cv_feedback := Services.cv_feedback cv_eval;
     Models.project_score := Services.project_score project_eval;
     Models.project_feedback := Services.project_feedback project_eval;
     Models.overall_summary := Services.overall_summary summary_eval |}.

(** The calls of the CV stage when its three attempts are made. *)
Definition cv_stage_calls (job_title prompt : str) : trace :=
  [EvQuery (Py.lit "skills untuk " ++ job_title)
     [Py.lit "job_description"] Services.default_n_results;
   EvQuery (Py.lit "rubrik penilaian cv") [Py.lit "cv_rubric"]
     Services.default_n_results]
  ++ three_attempts prompt Services.default_delay.

(** *** The index *)

(** Number of entries of a collection stored under an id. *)
Definition stored_under (i : str) (c : Chroma.collection) : nat :=
  List.length (filter (fun e => Py.eqb (Chroma.id e) i) c).

(** What a batch leaves in the place of an entry: the last entry of the
    batch with the same id, if there is one. *)
Definition final (batch : list Chroma.entry) (x : Chroma.entry)
  : Chroma.entry :=
  fold_left
    (fun acc e => if Py.eqb (Chroma.id acc) (Chroma.id e) then e else acc)
    batch x.

(** The entry a chunk is stored as under an id. *)
Definition stored_chunk (chunk_id : str) (chunk : Ingest.chunk)
  : Chroma.entry :=
  {| Chroma.id := chunk_id;
     Chroma.document := Ingest.text chunk;
     Chroma.metadata := Ingest.meta chunk |}.

End Vocab.

Import Vocab.

(** ** Sample data *)

Module Sample.

Definition QUOTE : str := [34%N].

(** A string literal of JSON. *)
Definition q (s : string) : str := QUOTE ++ Py.lit s ++ QUOTE.

(** The answer [here you go: {...}] of the specification, section 8. *)
Definition wrapped_answer : str :=
  Py.lit "here you go: {" ++ q "cv_match_rate" ++ Py.lit ": 0.8, "
  ++ q "cv_feedback" ++ Py.lit ": " ++ q "ok" ++ Py.lit "}".

Definition answer_object (rate feedback : string) : str :=
  Py.lit "{" ++ q "cv_match_rate" ++ Py.lit ": " ++ Py.lit rate
  ++ Py.lit ", " ++ q "cv_feedback" ++ Py.lit ": " ++ q feedback
  ++ Py.lit "}".

(** An answer that holds two objects. *)
Definition two_objects : str :=
  answer_object "0.8" "ok" ++ Py.lit " or " ++ answer_object "0.1" "no".

(** An answer that holds the fields of the three models. *)
Definition full_answer : str :=
  Py.lit "{" ++ q "cv_match_rate" ++ Py.lit ": 0.8, "
  ++ q "cv_feedback" ++ Py.lit ": " ++ q "ok" ++ Py.lit ", "
  ++ q "project_score" ++ Py.lit ": 4.5, "
  ++ q "project_feedback" ++ Py.lit ": " ++ q "fine" ++ Py.lit ", "
  ++ q "overall_summary" ++ Py.lit ": " ++ q "hire" ++ Py.lit "}".

(** A validation library that converts nothing. *)
Definition no_coercion : Pydantic.coercions :=
  {| Pydantic.float_of_int := fun _ => None;
     Pydantic.float_of_str := fun _ => None;
     Pydantic.float_of_bool := fun _ => None |}.

Definition unavailable : exn := ServiceError (Py.lit "503 unavailable").

(** A service whose first [failures] calls fail and whose later calls
    answer [answer]. *)
Definition flaky (failures : nat) (answer : str) (n : nat) (prompt : str)
  : exn + str :=
  if (n <? failures)%nat then inl unavailable else inr answer.

Definition world (g : nat -> str -> exn + str) : Services.World :=
  {| Services.llm_model := Some g;
     Services.pdf_reader := fun path => inr [Py.lit "page of " ++ path];
     Services.pdf_reader_bytes := fun b => inr [b];
     Services.collection_loaded := true;
     Services.reconnect_ok := true;
     Services.store_up := true;
     Services.distance := fun a b => Py.len a - Py.len b;
     Services.coercions := no_coercion;
     Services.model_json_schema := fun n => Py.lit "{}";
     Services.model_dump_json := fun v => Py.lit "{}" |}%Z.

Definition empty_state : state := {| log := []; db := [] |}.

Definition entry (i d src : string) : Chroma.entry :=
  {| Chroma.id := Py.lit i; Chroma.document := Py.lit d;
     Chroma.metadata := {| Ingest.source := Py.lit src |} |}.

(** An index that holds one chunk, of another source than the ones the
    pipeline asks for. *)
Definition other_state : state :=
  {| log := []; db := [entry "id0" "some text" "other_source"] |}.

(** The bytes of a text file of two paragraphs. *)
Definition notes : Bytes.bytes :=
  match Bytes.encode_utf8
          (Py.lit "first paragraph" ++ [Py.NL; Py.NL]
           ++ Py.lit "second paragraph")
  with
  | inr b => b
  | inl _ => []
  end.

End Sample.

(** ** app/services.py : the list of ground-truth documents *)

Module Documents.

Import Services.

Local Open Scope eff_scope.

(** A metadata mapping as the store returns it: a [dict] from [str] to
    [str], keys in insertion order. *)
Definition mapping := list (str * str).

(** [meta.get(key, default)] *)
Fixpoint get (meta : mapping) (key default : str) : str :=
  match meta with
  | [] => default
  | (k, v) :: r => if Py.eqb k key then v else get r key default
  end.

(** The mapping stored with a chunk: [{"source": source_name}]. *)
Definition metadata_dict (m : Ingest.metadata) : mapping :=
  [(Py.lit "source", Ingest.source m)].

(** Modelled from the spec: [coll.get(include=["metadatas"])["metadatas"]]
    is the vector database's; by section 4.2 the index holds one entry
    per chunk id, and the call returns the metadata of every entry, in
    the order of the index. *)
Definition get_metadatas (c : Chroma.collection) : list mapping :=
  map (fun e => metadata_dict (Chroma.metadata e)) c.

(** [coll.get(include=["metadatas"])['metadatas']] on the persisted
    collection.  Reading is not one of the calls the log records. *)
Definition collection_get (W : World) : M (list mapping) :=
  if store_up W
  then st <- get_state ;; ret (get_metadatas (db st))
  else raise (ServiceError (Py.lit "StoreUnavailable")).

(** The [sources] dictionary: names to counts, in insertion order. *)
Definition counter := list (str * Z).

(** [key in d] *)
Fixpoint contains (d : counter) (key : str) : bool :=
  match d with
  | [] => false
  | (k, _) :: r => Py.eqb k key || contains r key
  end.

(** [d[key] = v]: overwrite in place or append. *)
Fixpoint setitem (d : counter) (key : str) (v : Z) : counter :=
  match d with
  | [] => [(key, v)]
  | (k, x) :: r =>
      if Py.eqb k key then (k, v) :: r else (k, x) :: setitem r key v
  end.

(** [d[key]]; [None] stands for [KeyError]. *)
Fixpoint getitem (d : counter) (key : str) : option Z :=
  match d with
  | [] => None
  | (k, x) :: r => if Py.eqb k key then Some x else getitem r key
  end.

(** One iteration of [for meta in metadatas]. *)
Definition count_step (acc : option counter) (meta : mapping)
  : option counter :=
  match acc with
  | None => None
  | Some sources =>
      let source_name := get meta (Py.lit "source") (Py.lit "unknown") in
      let sources :=
        if negb (contains sources source_name)
        then setitem sources source_name 0
        else sources in
      match getitem sources source_name with
      | None => None
      | Some n => Some (setitem sources source_name (n + 1))
      end
  end.

Definition count_sources (metadatas : list mapping) : option counter :=
  fold_left count_step metadatas (Some []).

(** [models.DocumentSummary]; the service returns dictionaries with
    these two keys. *)
Record DocumentSummary := { source_name : str; chunk_count : Z }.

Definition summaries (sources : counter) : list DocumentSummary :=
  map (fun kv => {| source_name := fst kv; chunk_count := snd kv |})
      sources.

Definition list_ground_truth_documents (W : World)
  : M (list DocumentSummary) :=
  if negb (_get_chroma_collection W)
  then ret []
  else
    metadatas <- collection_get W ;;
    match metadatas with
    | [] => ret []
    | _ :: _ =>
        match count_sources metadatas with
        | Some sources => ret (summaries sources)
        | None => raise (Exception (Py.lit "KeyError"))
        end
    end.

End Documents.

(** ** os.path, as the sources use it *)

Module OsPath.

Definition sep : Py.char := 47%N.
Definition extsep : Py.char := 46%N.

(** [os.path.join(a, b)] on a POSIX system. *)
Definition join (a b : str) : str :=
  if Py.startswith b [sep] then b
  else if negb (Py.truthy a) || Py.endswith a [sep] then a ++ b
  else a ++ [sep] ++ b.

(** [p.rfind(c)]: the index of the last [c] in [p], or [-1]. *)
Fixpoint rfind_from (c : Py.char) (p : str) (i last : Z) : Z :=
  match p with
  | [] => last
  | x :: r => rfind_from c r (i + 1) (if Py.char_eqb x c then i else last)
  end.

Definition rfind (c : Py.char) (p : str) : Z := rfind_from c p 0 (-1).

(** [p[a:b]] for [0 <= a]. *)
Definition slice (p : str) (a b : Z) : str :=
  firstn (Z.to_nat (b - a)) (skipn (Z.to_nat a) p).

(** [os.path.splitext(p)]: cut at the last dot of the last component,
    unless only dots come before it in that component. *)
Definition splitext (p : str) : str * str :=
  let sepIndex := rfind sep p in
  let dotIndex := rfind extsep p in
  if (sepIndex <? dotIndex)%Z
  then
    if existsb (fun ch => negb (Py.char_eqb ch extsep))
         (slice p (sepIndex + 1) dotIndex)
    then (firstn (Z.to_nat dotIndex) p, skipn (Z.to_nat dotIndex) p)
    else (p, [])
  else (p, []).

End OsPath.

(** ** app/main.py : the endpoints *)

Module Main.

Import Services Worker Pydantic.

(** *** The result of an evaluation, as a model and as a mapping *)

(** [models.EvaluationResultData] as a class to validate against. *)
Definition EvaluationResultData_model : model Models.EvaluationResultData :=
  let n := Py.lit "EvaluationResultData" in
  {| name := n;
     fields := [(Py.lit "cv_match_rate", TFloat);
                (Py.lit "cv_feedback", TStr);
                (Py.lit "project_score", TFloat);
                (Py.lit "project_feedback", TStr);
                (Py.lit "overall_summary", TStr)];
     construct := fun co d =>
       match required_float co n d (Py.lit "cv_match_rate") with
       | inl e => inl e
       | inr rate =>
       match required_str n d (Py.lit "cv_feedback") with
       | inl e => inl e
       | inr feedback =>
       match required_float co n d (Py.lit "project_score") with
       | inl e => inl e
       | inr score =>
       match required_str n d (Py.lit "project_feedback") with
       | inl e => inl e
       | inr project =>
       match required_str n d (Py.lit "overall_summary") with
       | inl e => inl e
       | inr summary =>
           inr {| Models.cv_match_rate := rate;
                  Models.cv_feedback := feedback;
                  Models.project_score := score;
                  Models.project_feedback := project;
                  Models.overall_summary := summary |}
       end end end end end |}.

(** [final_result.model_dump()], the value the worker's task returns
    (worker.py, line 42). *)
Definition model_dump (r : Models.EvaluationResultData)
  : list (str * Json.value) :=
  [(Py.lit "cv_match_rate", Json.JFloat (Models.cv_match_rate r));
   (Py.lit "cv_feedback", Json.JStr (Models.cv_feedback r));
   (Py.lit "project_score", Json.JFloat (Models.project_score r));
   (Py.lit "project_feedback", Json.JStr (Models.project_feedback r));
   (Py.lit "overall_summary", Json.JStr (Models.overall_summary r))].

(** *** GET /result/{id} *)

(** What [AsyncResult(id)] gives: the status of the task, the value
    [get()] returns and the exception kept in [info]. *)
Record AsyncResult := {
  status : str;
  result : Json.value;
  info : exn
}.

(** The union of the four response models. *)
Inductive EvaluationResponse :=
| JobStatusCompleted (id : str) (result : Models.EvaluationResultData)
| JobStatusFailed (id : str) (error : str)
| JobStatusProcessing (id : str)
| JobStatusQueued (id : str).

Definition invalid_result (id : str) : exn :=
  HTTPException 500
    (Py.lit "Job " ++ id
     ++ Py.lit " status 'SUCCESS' but result data is invalid or missing.").

Definition job_not_found (id : str) : exn :=
  HTTPException 404 (Py.lit "Job with ID " ++ id ++ Py.lit " not found.").

(** [not result_data or not isinstance(result_data, dict)] lets through
    the non-empty mappings only. *)
Definition get_evaluation_result (co : coercions) (id : str)
    (task_result : AsyncResult) : exn + EvaluationResponse :=
  let status := status task_result in
  if Py.eqb status (Py.lit "SUCCESS") then
    match result task_result with
    | Json.JDict ((_ :: _) as result_data) =>
        match construct EvaluationResultData_model co result_data with
        | inl e => inl e
        | inr r => inr (JobStatusCompleted id r)
        end
    | _ => inl (invalid_result id)
    end
  else if Py.eqb status (Py.lit "FAILURE") then
    inr (JobStatusFailed id (exn_str (info task_result)))
  else if Py.eqb status (Py.lit "STARTED") || Py.eqb status (Py.lit "RETRY")
  then inr (JobStatusProcessing id)
  else if Py.eqb status (Py.lit "PENDING") then inr (JobStatusQueued id)
  else inl (job_not_found id).

(** *** POST /documents *)

(** An uploaded file: its declared type, its name and its bytes. *)
Record UploadFile := {
  content_type : option str;
  filename : option str;
  content : Bytes.bytes
}.

Definition upload_document (W : World) (file : UploadFile)
    (source_name : str) : M (Z * ingest_report) :=
  match filename file with
  | None | Some [] =>
      raise (HTTPException 400 (Py.lit "Nama file tidak ditemukan"))
  | Some name =>
      try_except
        (Eff.bind (ingest_document W (content file) name source_name)
           (fun result => ret (201%Z, result)))
        (fun e =>
           match e with
           | HTTPException _ _ => raise e
           | _ =>
               raise (HTTPException 500
                        (Py.lit "Gagal ingest dokumen: " ++ exn_str e))
           end)
  end.

(** *** POST /upload and POST /evaluate *)

(** The collaborators of the two endpoints: the generator of
    identifiers ([uuid4 n] is the text of the identifier drawn after [n]
    earlier ones), the file system ([open_write path] is the exception
    that opening and writing the file at [path] raises, if any) and the
    task queue ([delay n ...] is the identifier given to the task
    submitted after [n] earlier ones, or the exception of the broker). *)
Record Env := {
  uuid4 : nat -> str;
  open_write : str -> option exn;
  delay : nat -> str -> str -> str -> exn + str
}.

(** An entry of [file_database]. *)
Record file_entry := { entry_filename : str; path : str }.

(** The module-level [file_database], the files written, the tasks
    submitted and the number of identifiers drawn. *)
Record api_state := {
  file_database : list (str * file_entry);
  disk : list (str * Bytes.bytes);
  queue : list (str * str * str);
  drawn : nat
}.

Definition Api (A : Type) : Type := api_state -> (exn + A) * api_state.

Definition pure {A} (a : A) : Api A := fun st => (inr a, st).
Definition fail {A} (e : exn) : Api A := fun st => (inl e, st).

Definition andthen {A B} (m : Api A) (k : A -> Api B) : Api B :=
  fun st =>
    match m st with
    | (inr a, st') => k a st'
    | (inl e, st') => (inl e, st')
    end.

Definition catch {A} (m : Api A) (h : exn -> Api A) : Api A :=
  fun st =>
    match m st with
    | (inr a, st') => (inr a, st')
    | (inl e, st') => h e st'
    end.

(** [key in file_database] and [file_database[key]]. *)
Fixpoint lookup (d : list (str * file_entry)) (key : str)
  : option file_entry :=
  match d with
  | [] => None
  | (k, v) :: r => if Py.eqb k key then Some v else lookup r key
  end.

(** [file_database[key] = v]: overwrite in place or append. *)
Fixpoint store (d : list (str * file_entry)) (key : str) (v : file_entry)
  : list (str * file_entry) :=
  match d with
  | [] => [(key, v)]
  | (k, x) :: r =>
      if Py.eqb k key then (k, v) :: r else (k, x) :: store r key v
  end.

(** [str(uuid.uuid4())] *)
Definition new_uuid (E : Env) : Api str :=
  fun st =>
    (inr (uuid4 E (drawn st)),
     {| file_database := file_database st; disk := disk st;
        queue := queue st; drawn := S (drawn st) |}).

(** [with open(path, "wb") as buffer: buffer.write(data)] *)
Definition write_file (E : Env) (path : str) (data : Bytes.bytes)
  : Api unit :=
  fun st =>
    match open_write E path with
    | Some e => (inl e, st)
    | None =>
        (inr tt,
         {| file_database := file_database st;
            disk := disk st ++ [(path, data)];
            queue := queue st; drawn := drawn st |})
    end.

Definition register (key : str) (v : file_entry) : Api unit :=
  fun st =>
    (inr tt,
     {| file_database := store (file_database st) key v;
        disk := disk st; queue := queue st; drawn := drawn st |}).

(** [evaluate_candidate_task.delay(cv_path, report_path, job_title)]
    and [task.id]. *)
Definition submit (E : Env) (cv_path report_path job_title : str)
  : Api str :=
  fun st =>
    match delay E (List.length (queue st)) cv_path report_path job_title
    with
    | inl e => (inl e, st)
    | inr task_id =>
        (inr task_id,
         {| file_database := file_database st; disk := disk st;
            queue := queue st ++ [(cv_path, report_path, job_title)];
            drawn := drawn st |})
    end.

Definition UPLOADS_DIR : str := Py.lit "uploads".

Definition is_pdf (f : UploadFile) : bool :=
  match content_type f with
  | Some t => Py.eqb t (Py.lit "application/pdf")
  | None => false
  end.

(** The content of the response of [/upload]. *)
Record upload_response := {
  upload_message : str;
  cv_id : str;
  project_report_id : str
}.

Definition upload_files (E : Env) (cv project_report : UploadFile)
  : Api upload_response :=
  if negb (is_pdf cv) || negb (is_pdf project_report)
  then fail (HTTPException 400
               (Py.lit "Invalid file type. Only PDF is allowed."))
  else
    catch
      (andthen (new_uuid E) (fun cv_id =>
       andthen (new_uuid E) (fun project_id =>
       let cv_filepath :=
         OsPath.join UPLOADS_DIR (cv_id ++ Py.lit "_cv.pdf") in
       let project_filepath :=
         OsPath.join UPLOADS_DIR (project_id ++ Py.lit "_project.pdf") in
       andthen (write_file E cv_filepath (content cv)) (fun _ =>
       andthen (write_file E project_filepath (content project_report))
         (fun _ =>
       andthen (register cv_id
                  {| entry_filename := cv_id ++ Py.lit "_cv.pdf";
                     path := cv_filepath |}) (fun _ =>
       andthen (register project_id
                  {| entry_filename := project_id ++ Py.lit "_project.pdf";
                     path := project_filepath |}) (fun _ =>
       pure {| upload_message := Py.lit "Files uploaded successfully";
               cv_id := cv_id;
               project_report_id := project_id |})))))))
      (fun e =>
         fail (HTTPException 500
                 (Py.lit "Failed to upload files: " ++ exn_str e))).

(** [models.EvaluateRequest] *)
Record EvaluateRequest := {
  job_title : str;
  request_cv_id : str;
  request_project_report_id : str
}.

Definition evaluate_candidate (E : Env) (request : EvaluateRequest)
  : Api EvaluationResponse :=
  fun st =>
    match lookup (file_database st) (request_cv_id request) with
    | None =>
        (inl (HTTPException 404
                (Py.lit "CV with ID " ++ request_cv_id request
                 ++ Py.lit " not found.")), st)
    | Some cv_entry =>
        match lookup (file_database st) (request_project_report_id request)
        with
        | None =>
            (inl (HTTPException 404
                    (Py.lit "Project Report with ID "
                     ++ request_project_report_id request
                     ++ Py.lit " not found.")), st)
        | Some report_entry =>
            andthen (submit E (path cv_entry) (path report_entry)
                       (job_title request))
              (fun task_id => pure (JobStatusQueued task_id)) st
        end
    end.

End Main.

(** ** scripts/ingest.py : the ingestion of a folder *)

Module Script.

Import Services.

(** The collaborators of the script: where the project lives, the
    exception that opening the client, the embedding function and the
    collection raises, if any, the names [os.listdir] gives for a
    folder, and the bytes of the file at a path, or the exception that
    opening it raises. *)
Record Folder := {
  project_root : str;
  collection_setup : option exn;
  listdir : str -> exn + list str;
  read_bytes : str -> exn + Bytes.bytes
}.

Definition CR : Py.char := 13%N.

(** What reading in text mode does to the ends of lines: a carriage
    return followed by a line feed, and a carriage return alone, are
    given as one line feed. *)
Fixpoint universal_newlines (s : str) : str :=
  match s with
  | [] => []
  | c :: r =>
      if Py.char_eqb c CR
      then match r with
           | c' :: r' =>
               if Py.char_eqb c' Py.NL
               then Py.NL :: universal_newlines r'
               else Py.NL :: universal_newlines r
           | [] => [Py.NL]
           end
      else c :: universal_newlines r
  end.

(** [open(filepath, 'r', encoding='utf-8').read()] *)
Definition read_text (F : Folder) (filepath : str) : exn + str :=
  match read_bytes F filepath with
  | inl e => inl e
  | inr b =>
      match Bytes.decode_utf8 b with
      | inl e => inl e
      | inr text => inr (universal_newlines text)
      end
  end.

Definition GROUND_TRUTH_DIR (F : Folder) : str :=
  OsPath.join (project_root F) (Py.lit "docs_ground_truth").

(** An element of [documents]. *)
Record document := { source : str; content : str }.

(** The body of the [try]: the text of one file, empty for a file that
    is neither [.txt] nor [.pdf]. *)
Definition read_file (W : World) (F : Folder) (filename filepath : str)
  : exn + str :=
  if Py.endswith filename (Py.lit ".txt") then read_text F filepath
  else if Py.endswith filename (Py.lit ".pdf") then
    match pdf_reader W filepath with
    | inl e => inl e
    | inr pages => inr (List.concat (map (fun page => page ++ blank) pages))
    end
  else inr [].

(** One iteration of the loop over the names of the folder. *)
Definition load_step (W : World) (F : Folder) (directory_path : str)
    (documents : list document) (filename : str) : list document :=
  let filepath := OsPath.join directory_path filename in
  let source_name := fst (OsPath.splitext filename) in
  match read_file W F filename filepath with
  | inr content =>
      if Py.truthy content
      then documents ++ [{| source := source_name; content := content |}]
      else documents
  | inl _ => documents
  end.

Definition load_documents_from_directory (W : World) (F : Folder)
    (directory_path : str) : exn + list document :=
  match listdir F directory_path with
  | inl e => inl e
  | inr names => inr (fold_left (load_step W F directory_path) names [])
  end.

(** The loop over [raw_documents]; its inner loop over the chunks is
    the one of [ingest_document]. *)
Fixpoint collect_documents (raw_documents : list document)
    (acc : list str * list Ingest.metadata * list str)
  : exn + list str * list Ingest.metadata * list str :=
  match raw_documents with
  | [] => inr acc
  | doc :: rest =>
      let chunks :=
        Ingest.split_text_into_chunks (content doc) (source doc)
          Ingest.default_chunk_size Ingest.default_chunk_overlap in
      match collect_chunks chunks acc with
      | inl e => inl e
      | inr acc' => collect_documents rest acc'
      end
  end.

(** [main()]; what it prints, the count of the collection included, is
    left out. *)
Definition main (W : World) (F : Folder) : M unit :=
  match collection_setup F with
  | Some e => raise e
  | None =>
      Eff.bind (lift (load_documents_from_directory W F (GROUND_TRUTH_DIR F)))
        (fun raw_documents =>
      Eff.bind (lift (collect_documents raw_documents ([], [], [])))
        (fun lists =>
      let '(all_chunks_text, all_metadatas, all_ids) := lists in
      match all_chunks_text with
      | [] => ret tt
      | _ :: _ =>
          try_except
            (collection_upsert W all_chunks_text all_metadatas all_ids)
            (fun _ => ret tt)
      end))
  end.

End Script.

(** ** json.loads as the interpreter runs it

    [Json.loads] is the grammar of the decoder.  The interpreter runs
    the decoder under two limits, which make it raise on texts the
    grammar accepts: the depth of the calls it may still make, one for
    every array and object entered, and the length of the integer
    literals it converts. *)

Module Cpython.

Import Pydantic.

(** The limits where [json.loads] is called: the number of arrays and
    objects, one inside the other, that the decoder may enter (the
    recursion limit, 1000 unless changed, less the calls in progress),
    and [sys.get_int_max_str_digits()] (4300 unless changed; 0 for no
    limit). *)
Record limits := {
  recursion_remaining : nat;
  int_max_str_digits : nat
}.

(** Outcome of a scanner: a value and the unread rest, a syntax error,
    an exception of the interpreter, or the budget of the definition
    used up. *)
Inductive res (A : Type) :=
| Ok (a : A) (rest : str)
| Err (msg : str)
| Raise (e : exn)
| OutOfFuel.
Arguments Err {A} msg.
Arguments Raise {A} e.
Arguments OutOfFuel {A}.

Definition recursion_error (what : string) : exn :=
  RecursionError
    (Py.lit "maximum recursion depth exceeded while decoding a JSON "
     ++ Py.lit what ++ Py.lit " from a unicode string").

(** Number of digits of the integer literal at the head of [s]. *)
Definition int_digits (s : str) : nat :=
  let s1 :=
    match s with
    | c :: r => if (c =? 45)%N then r else s
    | [] => s
    end in
  match Json.span_int s1 with
  | Some (ip, _) => List.length ip
  | None => 0
  end.

(** The conversion of a literal of [digits] digits to [int] is
    refused: shorter literals than 641 digits are never checked. *)
Definition too_long (py : limits) (digits : nat) : bool :=
  (640 <? digits) && (0 <? int_max_str_digits py)
  && (int_max_str_digits py <? digits).

Definition digits_error (py : limits) (digits : nat) : exn :=
  ValueError
    (Py.lit "Exceeds the limit (" ++ str_of_int (Z.of_nat (int_max_str_digits py))
     ++ Py.lit " digits) for integer string conversion: value has "
     ++ str_of_int (Z.of_nat digits)
     ++ Py.lit " digits; use sys.set_int_max_str_digits() to increase the limit").

(** Named constants and numbers: an integer literal is converted by
    [int], which checks its length. *)
Definition scan_atom (py : limits) (s : str) : res Json.value :=
  match Json.scan_atom s with
  | Json.Ok (Json.JInt z) rest =>
      if too_long py (int_digits s)
      then Raise (digits_error py (int_digits s))
      else Ok (Json.JInt z) rest
  | Json.Ok v rest => Ok v rest
  | Json.Err m => Err m
  | Json.OutOfFuel => OutOfFuel
  end.

(** One JSON term at the head of [s], as [Json.scan_once] reads it;
    [depth] is the number of arrays and objects that may still be
    entered. *)
Fixpoint scan_once (py : limits) (fuel depth : nat) (s : str)
  : res Json.value :=
  match fuel with
  | O => OutOfFuel
  | S f =>
      match s with
      | [] => Err (Py.lit "Expecting value")
      | c :: r =>
          if (c =? 34)%N then
            match Json.scan_string None [] r with
            | Json.Ok t rest => Ok (Json.JStr t) rest
            | Json.Err m => Err m
            | Json.OutOfFuel => OutOfFuel
            end
          else if (c =? 123)%N then
            match depth with
            | O => Raise (recursion_error "object")
            | S d =>
                match Json.skip_ws r with
                | c1 :: r1 =>
                    if (c1 =? 125)%N then Ok (Json.JDict []) r1
                    else members py f d [] (c1 :: r1)
                | [] => members py f d [] []
                end
            end
          else if (c =? 91)%N then
            match depth with
            | O => Raise (recursion_error "array")
            | S d =>
                match Json.skip_ws r with
                | c1 :: r1 =>
                    if (c1 =? 93)%N then Ok (Json.JList []) r1
                    else elements py f d [] (c1 :: r1)
                | [] => elements py f d [] []
                end
            end
          else scan_atom py s
      end
  end

with members (py : limits) (fuel depth : nat)
    (acc : list (str * Json.value)) (s : str) : res Json.value :=
  match fuel with
  | O => OutOfFuel
  | S f =>
      match s with
      | c :: r =>
          if (c =? 34)%N then
            match Json.scan_string None [] r with
            | Json.Ok key r1 =>
                match Json.skip_ws r1 with
                | c2 :: r2 =>
                    if (c2 =? 58)%N then
                      match scan_once py f depth (Json.skip_ws r2) with
                      | Ok v r3 =>
                          match Json.skip_ws r3 with
                          | c4 :: r4 =>
                              if (c4 =? 125)%N
                              then Ok (Json.JDict (Json.dict_set acc key v))
                                      r4
                              else if (c4 =? 44)%N
                              then members py f depth
                                     (Json.dict_set acc key v)
                                     (Json.skip_ws r4)
                              else Err (Py.lit "Expecting ',' delimiter")
                          | [] => Err (Py.lit "Expecting ',' delimiter")
                          end
                      | Err m => Err m
                      | Raise e => Raise e
                      | OutOfFuel => OutOfFuel
                      end
                    else Err (Py.lit "Expecting ':' delimiter")
                | [] => Err (Py.lit "Expecting ':' delimiter")
                end
            | Json.Err m => Err m
            | Json.OutOfFuel => OutOfFuel
            end
          else Err (Py.lit "Expecting property name enclosed in double quotes")
      | [] => Err (Py.lit "Expecting property name enclosed in double quotes")
      end
  end

with elements (py : limits) (fuel depth : nat) (acc : list Json.value)
    (s : str) : res Json.value :=
  match fuel with
  | O => OutOfFuel
  | S f =>
      match scan_once py f depth s with
      | Ok v r1 =>
          match Json.skip_ws r1 with
          | c2 :: r2 =>
              if (c2 =? 93)%N then Ok (Json.JList (acc ++ [v])) r2
              else if (c2 =? 44)%N
              then elements py f depth (acc ++ [v]) (Json.skip_ws r2)
              else Err (Py.lit "Expecting ',' delimiter")
          | [] => Err (Py.lit "Expecting ',' delimiter")
          end
      | Err m => Err m
      | Raise e => Raise e
      | OutOfFuel => OutOfFuel
      end
  end.

(** [json.loads(s)] under the limits [py].  The budget of the
    definition is the one of [Json.loads] and is never used up
    ([Decoding.loads_outcomes] below). *)
Definition loads (py : limits) (s : str) : exn + Json.value :=
  match scan_once py (Json.budget s) (recursion_remaining py)
          (Json.skip_ws s)
  with
  | Ok v rest =>
      match Json.skip_ws rest with
      | [] => inr v
      | _ :: _ => inl (JSONDecodeError (Py.lit "Extra data"))
      end
  | Err m => inl (JSONDecodeError m)
  | Raise e => inl e
  | OutOfFuel =>
      inl (RecursionError (Py.lit "maximum recursion depth exceeded"))
  end.

(** [parse_llm_json], run by an interpreter with the limits [py]: the
    [except] clauses turn the decoder's [JSONDecodeError] and the
    model's [ValidationError] into an [Exception] whose text is a fixed
    prefix followed by the text of the error, and raise every other
    exception again.  The texts of the errors of the decoder, of the
    library and of the call with [**] are shortened. *)
Definition parse_llm_json {T} (py : limits) (co : coercions)
    (llm_output : str) (output_model : model T) : exn + T :=
  match loads py (Services.json_str llm_output) with
  | inr (Json.JDict json_data) =>
      match construct output_model co json_data with
      | inr validated_data => inr validated_data
      | inl (ValidationError m) =>
          inl (Exception (Py.lit "LLM output schema mismatch: " ++ m))
      | inl e => inl e
      end
  | inr _ =>
      inl (TypeError (Py.lit "argument after ** must be a mapping"))
  | inl (JSONDecodeError m) =>
      inl (Exception (Py.lit "Invalid JSON response from LLM: " ++ m))
  | inl e => inl e
  end.

(** The pair of statements each stage of the pipeline ends with: the
    call to the model and the parsing of its answer. *)
Definition invoke {T} (py : limits) (W : Services.World) (prompt : str)
    (output_model : model T) : M T :=
  Eff.bind
    (Services.call_gemini_with_retry W prompt Services.default_retries
       Services.default_delay)
    (fun response =>
       lift (parse_llm_json py (Services.coercions W) response
               output_model)).

End Cpython.

(** ** Further vocabulary *)

Module Notions.

(** *** Packing *)

(** No run could have taken the first paragraph of the run that follows
    it: the text of the run, a blank line, the paragraph and its blank
    line are more than [chunk_size] characters. *)
Fixpoint maximal (chunk_size : Z) (runs : list (list str)) : Prop :=
  match runs with
  | [] => True
  | run :: rest =>
      match rest with
      | (paragraph :: _) :: _ =>
          (chunk_size
           < Py.len (Py.join Ingest.blank run) + Py.len paragraph + 4)%Z
      | _ => True
      end
      /\ maximal chunk_size rest
  end.

(** *** Calls *)

(** [k] failed attempts on [prompt], each followed by its pause. *)
Definition failed_attempts (prompt : str) (delay : Z) (k : nat) : trace :=
  List.concat (repeat [EvGenerate prompt; EvSleep delay] k).

(** Number of pauses recorded in a trace. *)
Definition pauses (t : trace) : nat := List.length (filter is_sleep t).

(** *** What a computation may do *)

Definition is_read (e : event) : bool :=
  match e with EvReadPdf _ => true | _ => false end.

Definition is_query (e : event) : bool :=
  match e with EvQuery _ _ _ => true | _ => false end.

Definition is_upsert (e : event) : bool :=
  match e with EvUpsert _ => true | _ => false end.

Definition count (p : event -> bool) (t : trace) : nat :=
  List.length (filter p t).

(** Numbers of PDF reads, retrievals, LLM calls and pauses. *)
Record budget := { reads : nat; queries : nat; calls : nat; naps : nat }.

Definition both (a b : budget) : budget :=
  {| reads := reads a + reads b; queries := queries a + queries b;
     calls := calls a + calls b; naps := naps a + naps b |}.

(** A trace stays within a budget and writes nothing to the index. *)
Definition spends (t : trace) (b : budget) : Prop :=
  count is_read t <= reads b
  /\ count is_query t <= queries b
  /\ llm_calls t <= calls b
  /\ pauses t <= naps b
  /\ count is_upsert t = 0.

(** A computation that, from every state and whatever its outcome,
    leaves the index as it is and adds to the log a trace within [b]. *)
Definition within (b : budget) {A} (m : M A) : Prop :=
  forall s,
    db (snd (m s)) = db s
    /\ exists t, log (snd (m s)) = log s ++ t /\ spends t b.

(** The budgets of one PDF read, one retrieval and one call of the
    client with its default three attempts. *)
Definition one_read : budget :=
  {| reads := 1; queries := 0; calls := 0; naps := 0 |}.
Definition one_query : budget :=
  {| reads := 0; queries := 1; calls := 0; naps := 0 |}.
Definition three_calls : budget :=
  {| reads := 0; queries := 0; calls := 3; naps := 2 |}.
Definition nothing : budget :=
  {| reads := 0; queries := 0; calls := 0; naps := 0 |}.

(** *** Worlds *)

Definition set_llm_model (W : Services.World)
    (m : option (nat -> str -> exn + str)) : Services.World :=
  {| Services.llm_model := m;
     Services.pdf_reader := Services.pdf_reader W;
     Services.pdf_reader_bytes := Services.pdf_reader_bytes W;
     Services.collection_loaded := Services.collection_loaded W;
     Services.reconnect_ok := Services.reconnect_ok W;
     Services.store_up := Services.store_up W;
     Services.distance := Services.distance W;
     Services.coercions := Services.coercions W;
     Services.model_json_schema := Services.model_json_schema W;
     Services.model_dump_json := Services.model_dump_json W |}.

Definition set_pdf_reader (W : Services.World)
    (r : str -> exn + list str) : Services.World :=
  {| Services.llm_model := Services.llm_model W;
     Services.pdf_reader := r;
     Services.pdf_reader_bytes := Services.pdf_reader_bytes W;
     Services.collection_loaded := Services.collection_loaded W;
     Services.reconnect_ok := Services.reconnect_ok W;
     Services.store_up := Services.store_up W;
     Services.distance := Services.distance W;
     Services.coercions := Services.coercions W;
     Services.model_json_schema := Services.model_json_schema W;
     Services.model_dump_json := Services.model_dump_json W |}.

(** The collection handle: whether it was obtained at start-up and
    whether opening it later succeeds. *)
Definition set_collection (W : Services.World) (loaded reconnect : bool)
  : Services.World :=
  {| Services.llm_model := Services.llm_model W;
     Services.pdf_reader := Services.pdf_reader W;
     Services.pdf_reader_bytes := Services.pdf_reader_bytes W;
     Services.collection_loaded := loaded;
     Services.reconnect_ok := reconnect;
     Services.store_up := Services.store_up W;
     Services.distance := Services.distance W;
     Services.coercions := Services.coercions W;
     Services.model_json_schema := Services.model_json_schema W;
     Services.model_dump_json := Services.model_dump_json W |}.

Definition set_store_up (W : Services.World) (up : bool) : Services.World :=
  {| Services.llm_model := Services.llm_model W;
     Services.pdf_reader := Services.pdf_reader W;
     Services.pdf_reader_bytes := Services.pdf_reader_bytes W;
     Services.collection_loaded := Services.collection_loaded W;
     Services.reconnect_ok := Services.reconnect_ok W;
     Services.store_up := up;
     Services.distance := Services.distance W;
     Services.coercions := Services.coercions W;
     Services.model_json_schema := Services.model_json_schema W;
     Services.model_dump_json := Services.model_dump_json W |}.

(** A reader that refuses the file at [bad] and reads the others. *)
Definition unreadable (bad : str) (path : str) : exn + list str :=
  if Py.eqb path bad
  then inl (ServiceError (Py.lit "not a PDF"))
  else inr [Py.lit "page of " ++ path].

(** *** Texts and identifiers *)

(** A code point UTF-8 has a form for: not a surrogate, and at most
    U+10FFFF. *)
Definition encodable (c : Py.char) : bool :=
  match Bytes.encode_char c with Some _ => true | None => false end.

(** A lowercase hexadecimal digit. *)
Definition is_hex (c : Py.char) : bool :=
  ((48 <=? c) && (c <=? 57) || (97 <=? c) && (c <=? 102))%N.

(** The detail of the error that [ingest_document] raises when the file
    cannot be read: the f-string of the source around the text of the
    exception caught. *)
Definition parse_failure (e : exn) : exn :=
  HTTPException 400 (Py.lit "Gagal mem-parsing file: " ++ exn_str e).

(** The report of a successful ingestion. *)
Definition ingested (source_name : str) (chunks_added : Z)
  : Services.ingest_report :=
  {| Services.message := Py.lit "Dokumen berhasil di-ingest";
     Services.source_name := source_name;
     Services.chunks_added := chunks_added |}.

(** *** Counting sources *)

(** The source a metadata mapping is counted under. *)
Definition source_of (meta : Documents.mapping) : str :=
  Documents.get meta (Py.lit "source") (Py.lit "unknown").

(** Number of occurrences of a name in a list of names. *)
Definition occurrences (name : str) (names : list str) : nat :=
  List.length (filter (Py.eqb name) names).

(** The names of a list, each once, in the order they first appear. *)
Definition first_seen (names : list str) : list str :=
  fold_left
    (fun seen name =>
       if existsb (Py.eqb name) seen then seen else seen ++ [name])
    names [].

(** Sum of the counts of a counter. *)
Definition total (d : Documents.counter) : Z :=
  fold_right Z.add 0%Z (map snd d).

(** The sources of the entries of an index, in its order. *)
Definition sources_of (c : Chroma.collection) : list str :=
  map (fun e => Ingest.source (Chroma.metadata e)) c.

(** The answers of [/evaluate] to an id that was never uploaded. *)
Definition unknown_cv (id : str) : exn :=
  HTTPException 404 (Py.lit "CV with ID " ++ id ++ Py.lit " not found.").

Definition unknown_report (id : str) : exn :=
  HTTPException 404
    (Py.lit "Project Report with ID " ++ id ++ Py.lit " not found.").

(** The response of a successful [/upload]. *)
Definition uploaded (cv_id project_id : str) : Main.upload_response :=
  {| Main.upload_message := Py.lit "Files uploaded successfully";
     Main.cv_id := cv_id;
     Main.project_report_id := project_id |}.

(** Where [/upload] writes the two files. *)
Definition cv_file (cv_id : str) : str :=
  OsPath.join Main.UPLOADS_DIR (cv_id ++ Py.lit "_cv.pdf").

Definition report_file (project_id : str) : str :=
  OsPath.join Main.UPLOADS_DIR (project_id ++ Py.lit "_project.pdf").

(** Status codes an endpoint answers an error with. *)
Definition http_status (e : exn) : option Z :=
  match e with
  | HTTPException code _ => Some code
  | _ => None
  end.

(** An environment where identifiers are [id-0], [id-1], ... by the
    number of earlier ones, every file can be written and the queue
    accepts every task. *)
Definition sample_env : Main.Env :=
  {| Main.uuid4 := fun n => Py.lit "id-" ++ repeat 49%N n;
     Main.open_write := fun _ => None;
     Main.delay := fun n _ _ _ => inr (Py.lit "task-" ++ repeat 49%N n) |}.

Definition pdf_upload (data : Bytes.bytes) : Main.UploadFile :=
  {| Main.content_type := Some (Py.lit "application/pdf");
     Main.filename := Some (Py.lit "file.pdf");
     Main.content := data |}.

Definition fresh_api : Main.api_state :=
  {| Main.file_database := []; Main.disk := []; Main.queue := [];
     Main.drawn := 0 |}.

(** A folder that holds the one text file [rubric.txt], whose bytes are
    [Sample.notes]. *)
Definition sample_folder : Script.Folder :=
  {| Script.project_root := Py.lit "/srv/app";
     Script.collection_setup := None;
     Script.listdir := fun _ => inr [Py.lit "rubric.txt"];
     Script.read_bytes := fun _ => inr Sample.notes |}.

(** The bytes of the same two paragraphs, with the line ends of another
    system. *)
Definition notes_crlf : Bytes.bytes :=
  match Bytes.encode_utf8
          (Py.lit "first paragraph" ++ [13; 10; 13; 10]%N
           ++ Py.lit "second paragraph")
  with
  | inr b => b
  | inl _ => []
  end.

Definition crlf_folder : Script.Folder :=
  {| Script.project_root := Py.lit "/srv/app";
     Script.collection_setup := None;
     Script.listdir := fun _ => inr [Py.lit "rubric.txt"];
     Script.read_bytes := fun _ => inr notes_crlf |}.

(** *** Ids of chunks *)

(** The id under which a text is stored, for a text that has one. *)
Definition id_of (text : str) : str :=
  match Ingest.generate_document_id text with
  | inr chunk_id => chunk_id
  | inl _ => []
  end.

(** The upsert an ingestion of [chunks] under [source_name] sends, and
    the report that follows it when the store accepts it. *)
Definition send_chunks (W : Services.World) (chunks : list Ingest.chunk)
    (source_name : str) : M Services.ingest_report :=
  Eff.bind
    (Services.collection_upsert W (map Ingest.text chunks)
       (map Ingest.meta chunks)
       (map (fun chunk => id_of (Ingest.text chunk)) chunks))
    (fun _ => ret (ingested source_name (Py.len_list chunks))).

(** The bytes of a text file of two paragraphs that do not fit in one
    chunk: 600 times [a], a blank line, 600 times [b]. *)
Definition two_chunk_file : Bytes.bytes :=
  repeat 97%N 600 ++ [10; 10]%N ++ repeat 98%N 600.

(** *** Limits of the interpreter and conversions of the library *)

(** The exceptions the limits of the interpreter make the decoder
    raise. *)
Definition interpreter_limit (py : Cpython.limits) (e : exn) : Prop :=
  e = Cpython.recursion_error "array"
  \/ e = Cpython.recursion_error "object"
  \/ exists digits,
       Cpython.too_long py digits = true
       /\ e = Cpython.digits_error py digits.

(** A number written with digits only, or with digits, a point and
    digits. *)
Definition plain_decimal (s : str) : bool :=
  match Json.span_digits s with
  | ([], _) => false
  | (_ :: _, []) => true
  | (_ :: _, c :: r) =>
      (c =? 46)%N
      && match Json.span_digits r with
         | (_ :: _, []) => true
         | _ => false
         end
  end.

(** A text in which no number can be read: its characters are ASCII,
    none is a digit and none is the letter [n] (which [inf], [infinity]
    and [nan] hold). *)
Definition hopeless (s : str) : bool :=
  forallb (fun c => (c <? 128)%N && negb (Json.is_digit c)
                    && negb ((c =? 110)%N || (c =? 78)%N)) s.

(** What the conversions of the validation library do for sure in its
    default mode, as far as a number field is concerned: an integer
    that a float holds exactly and a boolean are taken, a plain decimal
    number written as text is taken, and a text in which no number can
    be read is refused. *)
Definition lax (co : Pydantic.coercions) : Prop :=
  (forall z, (Z.abs z <= 2 ^ 53)%Z -> Pydantic.float_of_int co z <> None)
  /\ (forall b, Pydantic.float_of_bool co b <> None)
  /\ (forall s, plain_decimal s = true -> Pydantic.float_of_str co s <> None)
  /\ (forall s, hopeless s = true -> Pydantic.float_of_str co s = None).

(** What a field of type [t] refuses for sure: no value at all, [null],
    a list, an object, anything but a text in a text field, and in a
    number field a text in which no number can be read. *)
Definition surely_refused (t : Pydantic.field_type)
    (v : option Json.value) : bool :=
  match v with
  | None => true
  | Some (Json.JNull | Json.JList _ | Json.JDict _) => true
  | Some (Json.JStr s) =>
      match t with Pydantic.TFloat => hopeless s | Pydantic.TStr => false end
  | Some _ =>
      match t with Pydantic.TFloat => false | Pydantic.TStr => true end
  end.

(** What a field of type [t] takes for sure: a text in a text field; in
    a number field a float (not-a-number and the infinities included),
    an integer that a float holds exactly, a boolean, and a plain
    decimal number written as text. *)
Definition surely_accepted (t : Pydantic.field_type)
    (v : option Json.value) : bool :=
  match t, v with
  | Pydantic.TStr, Some (Json.JStr _) => true
  | Pydantic.TFloat, Some (Json.JFloat _) => true
  | Pydantic.TFloat, Some (Json.JInt z) => (Z.abs z <=? 2 ^ 53)%Z
  | Pydantic.TFloat, Some (Json.JBool _) => true
  | Pydantic.TFloat, Some (Json.JStr s) => plain_decimal s
  | _, _ => false
  end.

(** *** Sample interpreter, library and answers *)

(** An interpreter with the limits it starts with. *)
Definition interpreter : Cpython.limits :=
  {| Cpython.recursion_remaining := 1000;
     Cpython.int_max_str_digits := 4300 |}.

(** A library that converts integers, booleans and plain decimal
    numbers written as text, and nothing else. *)
Definition lax_coercion : Pydantic.coercions :=
  {| Pydantic.float_of_int := fun z =>
       Some (Json.FDec (z <? 0)%Z (Z.abs_N z) 0);
     Pydantic.float_of_str := fun s =>
       if plain_decimal s
       then match Json.scan_number s with
            | Some (Json.JFloat f, _) => Some f
            | Some (Json.JInt z, _) => Some (Json.FDec false (Z.abs_N z) 0)
            | _ => None
            end
       else None;
     Pydantic.float_of_bool := fun b =>
       Some (Json.FDec false (if b then 1 else 0) 0) |}.

(** A CV evaluation that carries, besides its two fields, [depth]
    arrays one inside the other. *)
Definition deep_answer (depth : nat) : str :=
  Py.lit "{" ++ Sample.q "cv_match_rate" ++ Py.lit ": 0.8, "
  ++ Sample.q "cv_feedback" ++ Py.lit ": " ++ Sample.q "ok" ++ Py.lit ", "
  ++ Sample.q "notes" ++ Py.lit ": "
  ++ repeat 91%N depth ++ repeat 93%N depth ++ Py.lit "}".

(** A CV evaluation whose rate is not a number of JSON. *)
Definition nan_answer : str :=
  Py.lit "{" ++ Sample.q "cv_match_rate" ++ Py.lit ": NaN, "
  ++ Sample.q "cv_feedback" ++ Py.lit ": " ++ Sample.q "ok" ++ Py.lit "}".

(** A CV evaluation whose rate is a word. *)
Definition worded_answer : str :=
  Py.lit "{" ++ Sample.q "cv_match_rate" ++ Py.lit ": "
  ++ Sample.q "high" ++ Py.lit ", "
  ++ Sample.q "cv_feedback" ++ Py.lit ": " ++ Sample.q "ok" ++ Py.lit "}".

End Notions.

Import Notions.

(** * Properties *)

(** ** Strings *)

Module PyFacts.

Lemma lstrip_length s : (List.length (Py.lstrip s) <= List.length s)%nat.
Proof.
  induction s as [|c r IH]; simpl; [lia|].
  destruct (Py.isspace c); simpl; lia.
Qed.

Lemma strip_length s : (List.length (Py.strip s) <= List.length s)%nat.
Proof.
  unfold Py.strip, Py.rstrip.
  rewrite length_rev.
  etransitivity; [apply lstrip_length|].
  rewrite length_rev. apply lstrip_length.
Qed.

Lemma lstrip_head s :
  Py.lstrip s = [] \/
  exists c r, Py.lstrip s = c :: r /\ Py.isspace c = false.
Proof.
  induction s as [|c r IH]; simpl; [now left|].
  destruct (Py.isspace c) eqn:E; [exact IH|].
  right. now exists c, r.
Qed.

Lemma lstrip_suffix s : exists ws, s = ws ++ Py.lstrip s /\
                                   forallb Py.isspace ws = true.
Proof.
  induction s as [|c r [ws [H1 H2]]]; simpl.
  - now exists [].
  - destruct (Py.isspace c) eqn:E.
    + exists (c :: ws). simpl. rewrite E, H2. split; [now f_equal|reflexivity].
    + now exists [].
Qed.

Lemma lstrip_fix c r : Py.isspace c = false -> Py.lstrip (c :: r) = c :: r.
Proof. intros H. simpl. now rewrite H. Qed.

Lemma lstrip_ws ws s :
  forallb Py.isspace ws = true -> Py.lstrip (ws ++ s) = Py.lstrip s.
Proof.
  induction ws as [|c r IH]; simpl; [reflexivity|].
  intros H. apply andb_true_iff in H as [H1 H2]. rewrite H1. now apply IH.
Qed.

Lemma strip_clean s : Py.truthy (Py.strip s) = true -> clean (Py.strip s).
Proof.
  unfold Py.strip, Py.rstrip. intros H.
  destruct (lstrip_head (rev (Py.lstrip s))) as [E|(c & r & E & Hc)].
  - rewrite E in H. discriminate.
  - split.
    + (* first character *)
      destruct (lstrip_head s) as [E0|(c0 & r0 & E0 & Hc0)].
      * rewrite E0 in E. discriminate.
      * rewrite E0 in *.
        destruct (lstrip_suffix (rev (c0 :: r0))) as (ws & Hw & _).
        rewrite E in *.
        apply (f_equal (@rev _)) in Hw. rewrite rev_involutive in Hw.
        rewrite rev_app_distr in Hw.
        destruct (rev (c :: r)) as [|x y] eqn:Er.
        { apply (f_equal (@List.length _)) in Er.
          rewrite length_rev in Er. discriminate. }
        simpl in Hw. injection Hw as -> _.
        now exists x, y.
    + rewrite E, rev_involutive. now exists c, r.
Qed.

Lemma strip_of_clean p : clean p -> Py.strip p = p.
Proof.
  intros [(c & r & -> & Hc) (c' & r' & E & Hc')].
  unfold Py.strip, Py.rstrip.
  rewrite (lstrip_fix _ _ Hc), E, (lstrip_fix _ _ Hc'), <- E.
  apply rev_involutive.
Qed.

Lemma clean_nonempty p : clean p -> p <> [].
Proof. intros [(c & r & -> & _) _]. discriminate. Qed.

End PyFacts.

(** ** The chunker *)

Module ChunkFacts.

Import PyFacts.

Lemma render_app g h : render (g ++ h) = render g ++ render h.
Proof. unfold render. now rewrite map_app, concat_app. Qed.

Lemma render_single p : render [p] = p ++ Ingest.blank.
Proof. unfold render. cbn [map List.concat]. apply app_nil_r. Qed.

Lemma render_join g :
  g <> [] -> render g = Py.join Ingest.blank g ++ Ingest.blank.
Proof.
  induction g as [|p g IH]; [congruence|]. intros _.
  destruct g as [|q g].
  - apply render_single.
  - change (render (p :: q :: g)) with ((p ++ Ingest.blank) ++ render (q :: g)).
    rewrite IH by discriminate.
    change (Py.join Ingest.blank (p :: q :: g))
      with (p ++ Ingest.blank ++ Py.join Ingest.blank (q :: g)).
    now rewrite <- !app_assoc.
Qed.

Lemma render_nil_iff g : render g = [] <-> g = [].
Proof.
  split; [|now intros ->].
  destruct g as [|p g]; [reflexivity|].
  unfold render. simpl. intros H.
  apply (f_equal (@List.length _)) in H.
  rewrite !length_app in H. simpl in H. lia.
Qed.

Lemma join_clean g :
  g <> [] -> Forall clean g -> clean (Py.join Ingest.blank g).
Proof.
  induction g as [|p g IH]; [congruence|]. intros _ HF.
  inversion HF as [|? ? Hp Hg]; subst.
  destruct g as [|q g]; [exact Hp|].
  specialize (IH ltac:(discriminate) Hg).
  change (Py.join Ingest.blank (p :: q :: g))
    with (p ++ Ingest.blank ++ Py.join Ingest.blank (q :: g)).
  destruct Hp as [(c & r & -> & Hc) _].
  destruct IH as [_ (c' & r' & E & Hc')].
  split.
  - now exists c, (r ++ Ingest.blank ++ Py.join Ingest.blank (q :: g)).
  - rewrite !rev_app_distr, E. simpl.
    eexists c', _. split; [reflexivity|exact Hc'].
Qed.

Lemma rstrip_blank s :
  (exists c r, rev s = c :: r /\ Py.isspace c = false) ->
  Py.rstrip (s ++ Ingest.blank) = s.
Proof.
  intros (c & r & E & Hc). unfold Py.rstrip.
  rewrite rev_app_distr. simpl. rewrite E. simpl. rewrite Hc.
  rewrite <- E. apply rev_involutive.
Qed.

(** Stripping the accumulated text of a group gives its paragraphs
    joined by blank lines. *)
Lemma strip_render g :
  g <> [] -> Forall clean g ->
  Py.strip (render g) = Py.join Ingest.blank g.
Proof.
  intros Hne HF. rewrite (render_join Hne).
  destruct (join_clean Hne HF) as [(c & r & E & Hc) Hlast].
  unfold Py.strip.
  replace (Py.lstrip (Py.join Ingest.blank g ++ Ingest.blank))
    with (Py.join Ingest.blank g ++ Ingest.blank).
  - now apply rstrip_blank.
  - rewrite E. simpl. now rewrite Hc.
Qed.

Lemma mk_chunk_render src g :
  g <> [] -> Forall clean g ->
  Ingest.mk_chunk (render g) src = chunk_of src g.
Proof.
  intros. unfold Ingest.mk_chunk, chunk_of. now rewrite strip_render.
Qed.

Lemma len_render_join g :
  g <> [] -> Py.len (render g) = (Py.len (Py.join Ingest.blank g) + 2)%Z.
Proof.
  intros H. rewrite (render_join H). unfold Py.len.
  rewrite length_app. simpl. lia.
Qed.

Lemma pack_loop_cons src cs p ps st :
  Ingest.pack_loop src cs (p :: ps) st
  = Ingest.pack_loop src cs ps (Ingest.pack_step src cs st p).
Proof. reflexivity. Qed.

Lemma pack_step_fit src cs chunks cur p :
  (Py.len cur + Py.len p + 2 <= cs)%Z ->
  Ingest.pack_step src cs (chunks, cur) p
  = (chunks, cur ++ p ++ Ingest.blank).
Proof.
  intros H. unfold Ingest.pack_step.
  apply Z.leb_le in H. now rewrite H.
Qed.

Lemma pack_step_close src cs chunks cur p :
  (cs < Py.len cur + Py.len p + 2)%Z ->
  Ingest.pack_step src cs (chunks, cur) p
  = ((if Py.truthy cur then chunks ++ [Ingest.mk_chunk cur src]
      else chunks), p ++ Ingest.blank).
Proof.
  intros H. unfold Ingest.pack_step.
  apply Z.leb_gt in H. now rewrite H.
Qed.

Lemma truthy_render g : g <> [] -> Py.truthy (render g) = true.
Proof.
  intros H. destruct (render g) eqn:E; [|reflexivity].
  now apply render_nil_iff in E.
Qed.

(** The loop started with the paragraphs of [g] accumulated closes a
    sequence of groups [gs] and is left with a group [g']; together they
    are [g] followed by the paragraphs read. *)
Lemma pack_loop_groups src cs ps :
  Forall clean ps ->
  forall chunks g,
    Forall clean g -> (g = [] \/ fits cs g) ->
    exists gs g',
      Ingest.pack_loop src cs ps (chunks, render g)
      = (chunks ++ map (chunk_of src) gs, render g')
      /\ g ++ ps = List.concat gs ++ g'
      /\ Forall (fun h => h <> [] /\ fits cs h) gs
      /\ Forall clean g'
      /\ (g' = [] \/ fits cs g').
Proof.
  induction ps as [|p ps IH]; intros HF chunks g Hg Hfit.
  - exists [], g. unfold Ingest.pack_loop. simpl.
    rewrite (app_nil_r chunks), (app_nil_r g). repeat split; auto.
  - inversion HF as [|? ? Hp Hps]; subst.
    rewrite pack_loop_cons.
    destruct (Z_le_gt_dec (Py.len (render g) + Py.len p + 2) cs) as [E|E].
    + (* the paragraph joins the current group *)
      rewrite (pack_step_fit _ _ _ _ E).
      assert (R : render g ++ p ++ Ingest.blank = render (g ++ [p])).
      { now rewrite render_app, render_single. }
      rewrite R.
      destruct (IH Hps chunks (g ++ [p])) as (gs & g' & H1 & H2 & H3 & H4 & H5).
      * apply Forall_app. split; auto.
      * right. left. rewrite <- R. unfold Py.len in *.
        rewrite !length_app. simpl. lia.
      * exists gs, g'. repeat split; auto.
        now rewrite <- H2, <- app_assoc.
    + (* the current group is closed, the paragraph opens the next *)
      rewrite pack_step_close by lia.
      rewrite <- render_single.
      destruct g as [|q g].
      * cbn [render map List.concat Py.truthy].
        destruct (IH Hps chunks [p]) as (gs & g' & H1 & H2 & H3 & H4 & H5).
        { now constructor. }
        { right. right. now exists p. }
        exists gs, g'. repeat split; auto.
      * rewrite truthy_render by discriminate.
        rewrite mk_chunk_render by (auto; discriminate).
        destruct (IH Hps (chunks ++ [chunk_of src (q :: g)]) [p])
          as (gs & g' & H1 & H2 & H3 & H4 & H5).
        { now constructor. }
        { right. right. now exists p. }
        exists ((q :: g) :: gs), g'. repeat split; auto.
        -- etransitivity; [exact H1|]. cbn [map]. now rewrite <- app_assoc.
        -- cbn [List.concat]. rewrite <- app_assoc, <- H2. reflexivity.
        -- constructor; auto. split; [discriminate|].
           destruct Hfit as [Hfit|Hfit]; [discriminate|exact Hfit].
Qed.

Lemma paragraphs_clean text : Forall clean (Ingest.paragraphs text).
Proof.
  unfold Ingest.paragraphs. apply Forall_forall. intros p Hp.
  apply in_map_iff in Hp as (q & <- & Hq).
  apply filter_In in Hq as [_ Hq]. now apply strip_clean.
Qed.

(** The chunks are the paragraphs, cut into consecutive non-empty
    groups, each group joined by blank lines. *)
Lemma chunks_structure text src cs ov :
  exists gs,
    Ingest.split_text_into_chunks text src cs ov = map (chunk_of src) gs
    /\ List.concat gs = Ingest.paragraphs text
    /\ Forall (fun h => h <> [] /\ fits cs h) gs.
Proof.
  unfold Ingest.split_text_into_chunks.
  destruct (@pack_loop_groups src cs (Ingest.paragraphs text)
              (paragraphs_clean text) [] [])
    as (gs & g' & H1 & H2 & H3 & H4 & H5); auto.
  match goal with
  | |- context [Ingest.pack_loop ?a ?b ?c ?d] =>
      replace (Ingest.pack_loop a b c d)
        with ([] ++ map (chunk_of src) gs, render g')
        by (symmetry; exact H1)
  end.
  simpl in *.
  destruct g' as [|q g'].
  - simpl. exists gs. rewrite app_nil_r in H2. auto.
  - rewrite truthy_render by discriminate.
    rewrite mk_chunk_render by (auto; discriminate).
    exists (gs ++ [q :: g']). repeat split.
    + now rewrite map_app.
    + rewrite concat_app. simpl. now rewrite app_nil_r.
    + apply Forall_app. split; auto. constructor; auto.
      split; [discriminate|]. destruct H5; [discriminate|auto].
Qed.

End ChunkFacts.

Module SquashFacts.

Import PyFacts ChunkFacts.

Lemma squash_app a b : squash (a ++ b) = squash a ++ squash b.
Proof. apply filter_app. Qed.

Lemma squash_ws ws : forallb Py.isspace ws = true -> squash ws = [].
Proof.
  induction ws as [|c r IH]; simpl; [reflexivity|].
  intros H. apply andb_true_iff in H as [H1 H2]. rewrite H1. simpl. auto.
Qed.

Lemma squash_rev s : squash (rev s) = rev (squash s).
Proof.
  induction s as [|c r IH]; simpl; [reflexivity|].
  rewrite squash_app, IH. simpl.
  destruct (Py.isspace c); simpl; [now rewrite app_nil_r|reflexivity].
Qed.

Lemma squash_lstrip s : squash (Py.lstrip s) = squash s.
Proof.
  destruct (lstrip_suffix s) as (ws & E & H).
  rewrite E at 2. now rewrite squash_app, (squash_ws _ H).
Qed.

Lemma squash_strip s : squash (Py.strip s) = squash s.
Proof.
  unfold Py.strip, Py.rstrip.
  now rewrite squash_rev, squash_lstrip, squash_rev, rev_involutive,
    squash_lstrip.
Qed.

Lemma squash_blank : squash Ingest.blank = [].
Proof. reflexivity. Qed.

Lemma squash_join g :
  squash (Py.join Ingest.blank g) = squash (List.concat g).
Proof.
  induction g as [|p g IH]; [reflexivity|].
  destruct g as [|q g].
  - simpl. now rewrite app_nil_r.
  - change (Py.join Ingest.blank (p :: q :: g))
      with (p ++ Ingest.blank ++ Py.join Ingest.blank (q :: g)).
    rewrite !squash_app, squash_blank, IH. simpl.
    now rewrite !squash_app.
Qed.

Lemma squash_concat_join gs :
  squash (List.concat (map (Py.join Ingest.blank) gs))
  = squash (List.concat (List.concat gs)).
Proof.
  induction gs as [|g gs IH]; [reflexivity|].
  simpl. now rewrite concat_app, !squash_app, squash_join, IH.
Qed.

Lemma startswith_firstn pre : forall s,
  Py.startswith s pre = true -> firstn (List.length pre) s = pre.
Proof.
  induction pre as [|x pre IH]; intros s H; [reflexivity|].
  destruct s as [|c s]; [discriminate|].
  simpl in H. apply andb_true_iff in H as [H1 H2].
  apply N.eqb_eq in H1. subst. simpl. f_equal. auto.
Qed.

(** Splitting at a separator made of whitespace and gluing the pieces
    back loses whitespace only. *)
Lemma squash_split_go sep :
  sep <> [] -> forallb Py.isspace sep = true ->
  forall s skip cur,
    forallb Py.isspace (firstn skip s) = true ->
    squash (List.concat (Py.split_go sep skip cur s))
    = squash (rev cur) ++ squash s.
Proof.
  intros Hne Hsep. induction s as [|c r IH]; intros skip cur Hskip.
  - cbn [Py.split_go List.concat]. rewrite squash_app. reflexivity.
  - destruct skip as [|k].
    + cbn [Py.split_go].
      destruct (Py.startswith (c :: r) sep) eqn:E.
      * apply startswith_firstn in E.
        destruct sep as [|x sep']; [congruence|].
        simpl in E. injection E as -> E.
        simpl in Hsep. apply andb_true_iff in Hsep as [Hx Hs].
        cbn [List.concat]. rewrite squash_app, IH.
        -- simpl. rewrite Hx. reflexivity.
        -- simpl. rewrite Nat.sub_0_r, E. exact Hs.
      * rewrite IH by reflexivity. simpl.
        rewrite squash_app. simpl.
        destruct (Py.isspace c); simpl; now rewrite <- app_assoc.
    + cbn [Py.split_go]. simpl in Hskip.
      apply andb_true_iff in Hskip as [Hc Hk].
      rewrite IH by exact Hk. simpl. now rewrite Hc.
Qed.

Lemma squash_split text :
  squash (List.concat (Py.split text Ingest.blank)) = squash text.
Proof.
  unfold Py.split.
  rewrite squash_split_go; [reflexivity|discriminate|reflexivity|reflexivity].
Qed.

Lemma squash_paragraphs text :
  squash (List.concat (Ingest.paragraphs text)) = squash text.
Proof.
  rewrite <- (squash_split text). unfold Ingest.paragraphs.
  induction (Py.split text Ingest.blank) as [|p l IH]; [reflexivity|].
  cbn [filter]. destruct (Py.truthy (Py.strip p)) eqn:E.
  - cbn [map List.concat].
    now rewrite !squash_app, squash_strip, IH.
  - cbn [List.concat]. rewrite squash_app, IH, <- (squash_strip p).
    destruct (Py.strip p); [reflexivity|discriminate].
Qed.

End SquashFacts.

Module Chunker.

Import PyFacts ChunkFacts SquashFacts.

(** C2: every chunk is at most [chunk_size] characters long, unless it
    is a single paragraph that alone is longer than [chunk_size]; and
    every such paragraph is the text of a chunk of its own. *)
Theorem chunks_within_size (text source_name : str)
    (chunk_size chunk_overlap : Z) :
  let chunks :=
    Ingest.split_text_into_chunks text source_name chunk_size
      chunk_overlap in
  Forall (fun c =>
            (Py.len (Ingest.text c) <= chunk_size)%Z
            \/ (In (Ingest.text c) (Ingest.paragraphs text)
                /\ (chunk_size < Py.len (Ingest.text c))%Z))
         chunks
  /\ Forall (fun p =>
               (chunk_size < Py.len p)%Z ->
               exists c, In c chunks /\ Ingest.text c = p)
            (Ingest.paragraphs text).
Proof.
  intros chunks. subst chunks.
  destruct (chunks_structure text source_name chunk_size chunk_overlap)
    as (gs & -> & Hcat & Hgs).
  split.
  - apply Forall_forall. intros c Hc.
    apply in_map_iff in Hc as (g & <- & Hg).
    pose proof (proj1 (Forall_forall _ _) Hgs g Hg) as [Hne [Hfit|[p ->]]].
    + left. cbn [chunk_of Ingest.text].
      rewrite (len_render_join Hne) in Hfit. lia.
    + cbn [chunk_of Ingest.text Py.join].
      destruct (Z_le_gt_dec (Py.len p) chunk_size); [now left|right].
      split; [|lia]. rewrite <- Hcat. apply in_concat.
      exists [p]. split; [exact Hg|now left].
  - apply Forall_forall. intros p Hp Hlong.
    rewrite <- Hcat in Hp. apply in_concat in Hp as (g & Hg & Hpg).
    pose proof (proj1 (Forall_forall _ _) Hgs g Hg) as [Hne [Hfit|[q ->]]].
    + exfalso.
      assert (Py.len p + 2 <= Py.len (render g))%Z; [|lia].
      clear - Hpg. induction g as [|q g IH]; [contradiction|].
      change (render (q :: g)) with ((q ++ Ingest.blank) ++ render g).
      unfold Py.len in *. rewrite !length_app. simpl.
      destruct Hpg as [->|Hin]; [lia|]. specialize (IH Hin). lia.
    + destruct Hpg as [->|[]].
      exists (chunk_of source_name [p]). split; [|reflexivity].
      apply in_map_iff. now exists [p].
Qed.

(** C7: the chunks are the non-empty paragraphs of the text, in their
    order, cut into consecutive non-empty runs, the paragraphs of a run
    joined by a blank line: no paragraph is lost, repeated or moved.
    Hence the chunks put end to end and the text are the same once
    whitespace is left out. *)
Theorem chunks_reconstruct_paragraphs (text source_name : str)
    (chunk_size chunk_overlap : Z) :
  let chunks :=
    Ingest.split_text_into_chunks text source_name chunk_size
      chunk_overlap in
  (exists runs : list (list str),
      List.concat runs = Ingest.paragraphs text
      /\ Forall (fun run => run <> []) runs
      /\ map Ingest.text chunks = map (Py.join Ingest.blank) runs)
  /\ squash (List.concat (map Ingest.text chunks)) = squash text.
Proof.
  intros chunks. subst chunks.
  destruct (chunks_structure text source_name chunk_size chunk_overlap)
    as (gs & -> & Hcat & Hgs).
  assert (T : map Ingest.text (map (chunk_of source_name) gs)
              = map (Py.join Ingest.blank) gs).
  { rewrite map_map. apply map_ext. reflexivity. }
  split.
  - exists gs. repeat split; auto.
    eapply Forall_impl; [|exact Hgs]. now intros g [H _].
  - now rewrite T, squash_concat_join, Hcat, squash_paragraphs.
Qed.

(** C9: the result does not depend on [chunk_overlap], and the chunks
    do not overlap: each paragraph of the text lies in exactly one
    chunk, so the chunks hold as many paragraphs as the text has. *)
Theorem chunk_overlap_no_effect (text source_name : str)
    (chunk_size o1 o2 : Z) :
  Ingest.split_text_into_chunks text source_name chunk_size o1
  = Ingest.split_text_into_chunks text source_name chunk_size o2
  /\ exists runs : list (list str),
       map Ingest.text
           (Ingest.split_text_into_chunks text source_name chunk_size o1)
       = map (Py.join Ingest.blank) runs
       /\ List.concat runs = Ingest.paragraphs text
       /\ list_sum (map (@List.length str) runs)
          = List.length (Ingest.paragraphs text).
Proof.
  split; [reflexivity|].
  destruct (chunks_structure text source_name chunk_size o1)
    as (gs & -> & Hcat & Hgs).
  exists gs. repeat split; auto.
  - rewrite map_map. apply map_ext. reflexivity.
  - rewrite <- Hcat. clear. induction gs as [|g gs IH]; [reflexivity|].
    simpl. rewrite length_app. lia.
Qed.

End Chunker.

(** ** The LLM client *)

Module LlmFacts.

Import Services.

Lemma llm_calls_app t u : llm_calls (t ++ u) = llm_calls t + llm_calls u.
Proof. unfold llm_calls. now rewrite filter_app, length_app. Qed.

(** One call to the model: it is recorded, and its outcome is the one
    the service gives to the call of that rank. *)
Lemma generate_content_run g prompt s :
  generate_content g prompt s
  = (g (llm_calls (log s)) prompt,
     {| log := log s ++ [EvGenerate prompt]; db := db s |}).
Proof. reflexivity. Qed.

Lemma sleep_run delay s :
  (0 <= delay)%Z ->
  sleep delay s = (inr tt, {| log := log s ++ [EvSleep delay]; db := db s |}).
Proof.
  intros H. unfold sleep. apply Z.ltb_ge in H. now rewrite H.
Qed.

(** One iteration of the retry loop. *)
Lemma retry_loop_step g prompt retries delay k attempt s :
  retry_loop g prompt retries delay (S k) attempt s
  = match g (llm_calls (log s)) prompt with
    | inr text =>
        (inr text, {| log := log s ++ [EvGenerate prompt]; db := db s |})
    | inl e =>
        let s1 := {| log := log s ++ [EvGenerate prompt]; db := db s |} in
        if (attempt <? retries - 1)%Z
        then bind (sleep delay)
               (fun _ => retry_loop g prompt retries delay k (attempt + 1)%Z)
               s1
        else (inl e, s1)
    end.
Proof.
  cbn [retry_loop]. unfold try_except. rewrite generate_content_run.
  destruct (g (llm_calls (log s)) prompt); [|reflexivity].
  cbn zeta. destruct (attempt <? retries - 1)%Z; reflexivity.
Qed.

Lemma retry_loop_retry g prompt retries delay k attempt s e :
  g (llm_calls (log s)) prompt = inl e ->
  (attempt < retries - 1)%Z -> (0 <= delay)%Z ->
  retry_loop g prompt retries delay (S k) attempt s
  = retry_loop g prompt retries delay k (attempt + 1)%Z
      {| log := log s ++ [EvGenerate prompt; EvSleep delay]; db := db s |}.
Proof.
  intros Hg Ha Hd. rewrite retry_loop_step, Hg. cbn zeta.
  apply Z.ltb_lt in Ha. rewrite Ha.
  unfold bind. rewrite sleep_run by assumption. cbn [log db].
  now rewrite <- app_assoc.
Qed.

Lemma retry_loop_last g prompt retries delay k attempt s e :
  g (llm_calls (log s)) prompt = inl e ->
  (retries - 1 <= attempt)%Z ->
  retry_loop g prompt retries delay (S k) attempt s
  = (inl e, {| log := log s ++ [EvGenerate prompt]; db := db s |}).
Proof.
  intros Hg Ha. rewrite retry_loop_step, Hg. cbn zeta.
  apply Z.ltb_ge in Ha. now rewrite Ha.
Qed.

Lemma retry_loop_success g prompt retries delay k attempt s text :
  g (llm_calls (log s)) prompt = inr text ->
  retry_loop g prompt retries delay (S k) attempt s
  = (inr text, {| log := log s ++ [EvGenerate prompt]; db := db s |}).
Proof. intros Hg. now rewrite retry_loop_step, Hg. Qed.

(** Three attempts of which the first two fail. *)
Lemma retry_three W g prompt delay s e1 e2 third :
  llm_model W = Some g ->
  (0 <= delay)%Z ->
  g (llm_calls (log s)) prompt = inl e1 ->
  g (llm_calls (log s) + 1) prompt = inl e2 ->
  g (llm_calls (log s) + 2) prompt = third ->
  call_gemini_with_retry W prompt 3 delay s
  = (third, {| log := log s ++ three_attempts prompt delay; db := db s |}).
Proof.
  intros HW Hd H1 H2 H3.
  unfold call_gemini_with_retry. rewrite HW.
  change (Z.to_nat 3) with 3%nat.
  rewrite (@retry_loop_retry g prompt 3 delay 2 0 s e1);
    [|assumption|lia|lia].
  assert (C1 : llm_calls (log s ++ [EvGenerate prompt; EvSleep delay])
               = llm_calls (log s) + 1).
  { now rewrite llm_calls_app. }
  rewrite (@retry_loop_retry g prompt 3 delay 1 (0 + 1) _ e2);
    [|cbn [log]; now rewrite C1|lia|lia].
  cbn [log db]. rewrite <- app_assoc. cbn [app].
  set (s2 := {| log := _; db := _ |}).
  assert (C2 : llm_calls (log s2) = llm_calls (log s) + 2).
  { subst s2. cbn [log]. now rewrite llm_calls_app. }
  destruct third as [e3|text].
  - rewrite (@retry_loop_last g prompt 3 delay 0 (0 + 1 + 1) s2 e3);
      [|now rewrite C2|lia].
    subst s2. cbn [log db]. rewrite <- app_assoc. reflexivity.
  - rewrite (@retry_loop_success g prompt 3 delay 0 (0 + 1 + 1) s2 text);
      [|now rewrite C2].
    subst s2. cbn [log db]. rewrite <- app_assoc. reflexivity.
Qed.

End LlmFacts.

Module LlmClient.

Import Services LlmFacts.

(** C1: with [retries = 3], when the first two calls fail and the third
    succeeds the client returns the text of the third after exactly
    three calls; when the three calls fail it raises the error of the
    third after exactly three calls.  In both cases it pauses [delay]
    between consecutive calls and nowhere else. *)
Theorem call_gemini_with_retry_budget
    (W : World) (g : nat -> str -> exn + str) (prompt : str) (delay : Z)
    (s : state) (e1 e2 : exn) (third : exn + str) :
  llm_model W = Some g ->
  (0 <= delay)%Z ->
  g (llm_calls (log s)) prompt = inl e1 ->
  g (llm_calls (log s) + 1) prompt = inl e2 ->
  g (llm_calls (log s) + 2) prompt = third ->
  let '(outcome, s') := call_gemini_with_retry W prompt 3 delay s in
  outcome = third
  /\ log s' = log s ++ three_attempts prompt delay
  /\ db s' = db s
  /\ llm_calls (log s') = llm_calls (log s) + 3.
Proof.
  intros HW Hd H1 H2 H3.
  rewrite (@retry_three W g prompt delay s e1 e2 third HW Hd H1 H2 H3).
  cbn [log db]. repeat split.
  rewrite llm_calls_app. reflexivity.
Qed.

(** C10: with [retries <= 0] the loop body never runs: no call is made,
    nothing is raised and the empty string is returned. *)
Theorem call_gemini_with_retry_no_attempt
    (W : World) (g : nat -> str -> exn + str) (prompt : str)
    (retries delay : Z) (s : state) :
  llm_model W = Some g ->
  (retries <= 0)%Z ->
  call_gemini_with_retry W prompt retries delay s = (inr [], s).
Proof.
  intros HW Hr. unfold call_gemini_with_retry. rewrite HW.
  replace (Z.to_nat retries) with 0%nat by lia. reflexivity.
Qed.

(** Two failures, then the answer: three calls, two pauses of five
    seconds. *)
Lemma call_gemini_with_retry_budget_witness :
  let W := Sample.world (Sample.flaky 2 (Py.lit "ok")) in
  let prompt := Py.lit "prompt" in
  (0 <= 5)%Z
  /\ let '(outcome, s') :=
       call_gemini_with_retry W prompt 3 5 Sample.empty_state in
     outcome = inr (Py.lit "ok")
     /\ log s' = log Sample.empty_state ++ three_attempts prompt 5
     /\ db s' = db Sample.empty_state
     /\ llm_calls (log s') = llm_calls (log Sample.empty_state) + 3.
Proof.
  intros W prompt. split; [lia|].
  apply (@call_gemini_with_retry_budget W
           (Sample.flaky 2 (Py.lit "ok")) prompt 5 Sample.empty_state
           Sample.unavailable Sample.unavailable (inr (Py.lit "ok")));
    [reflexivity|lia|reflexivity|reflexivity|reflexivity].
Defined.

Lemma call_gemini_with_retry_no_attempt_witness :
  let W := Sample.world (Sample.flaky 0 (Py.lit "ok")) in
  (0 <= 0)%Z
  /\ call_gemini_with_retry W (Py.lit "prompt") 0 5 Sample.empty_state
     = (inr [], Sample.empty_state).
Proof.
  intros W. split; [lia|].
  apply (@call_gemini_with_retry_no_attempt W
           (Sample.flaky 0 (Py.lit "ok")) (Py.lit "prompt") 0 5
           Sample.empty_state); [reflexivity|lia].
Defined.

End LlmClient.

(** ** The JSON decoder *)

Module JsonFacts.

Import Json.

Local Abbreviation sz := (@List.length Py.char).

Lemma skip_ws_le s : sz (skip_ws s) <= sz (s).
Proof.
  induction s as [|c r IH]; simpl; [lia|].
  destruct (is_ws c); simpl; lia.
Qed.

Lemma span_digits_length s :
  sz (fst (span_digits s)) + sz (snd (span_digits s)) = sz (s).
Proof.
  induction s as [|c r IH]; simpl; [reflexivity|].
  destruct (is_digit c); [|reflexivity].
  destruct (span_digits r) as [ds rest]. simpl in *. lia.
Qed.

Lemma span_digits_le s : sz (snd (span_digits s)) <= sz (s).
Proof. pose proof (span_digits_length s). lia. Qed.

Lemma after_length w : forall s r, after w s = Some r -> sz (s) = sz (w) + sz (r).
Proof.
  induction w as [|x w IH]; intros s r H; simpl in *.
  - now injection H as ->.
  - destruct s as [|c s]; [discriminate|].
    destruct (Py.char_eqb x c); [|discriminate].
    apply IH in H. simpl. lia.
Qed.

(** A string ends strictly after the place where it was entered, and
    reading it never uses the budget. *)
Lemma scan_string_aux n :
  forall s, sz (s) <= n ->
  forall hi acc,
    scan_string hi acc s <> OutOfFuel
    /\ forall v r, scan_string hi acc s = Ok v r -> sz (r) < sz (s).
Proof.
  induction n as [|n IH]; intros s Hn hi acc.
  - destruct s; [|simpl in Hn; lia]. split; [discriminate|]. discriminate.
  - destruct s as [|c s1]; [split; discriminate|].
    simpl in Hn. cbn [scan_string].
    destruct (c =? 34)%N.
    { split; [discriminate|]. intros v r H. injection H as _ <-.
      simpl. lia. }
    destruct (c =? 92)%N.
    + destruct s1 as [|e s2]; [split; discriminate|].
      simpl in Hn.
      destruct (e =? 117)%N.
      * destruct s2 as [|h1 [|h2 [|h3 [|h4 s6]]]];
          try (split; discriminate).
        simpl in Hn.
        assert (L : sz (s6) <= n) by lia.
        destruct (hex4 h1 h2 h3 h4) as [u|]; [|split; discriminate].
        destruct hi as [h|];
          [destruct (is_low u); [|destruct (is_high u)]
          |destruct (is_high u)];
          match goal with
          | |- context [scan_string ?a ?b s6] =>
              destruct (IH s6 L a b) as [F P]; split; [exact F|];
              intros v r H; apply P in H; simpl; lia
          end.
      * destruct (escape e) as [x|]; [|split; discriminate].
        destruct (IH s2 ltac:(lia) None (x :: flush hi acc)) as [F P].
        split; [exact F|]. intros v r H. apply P in H. simpl. lia.
    + destruct (c <=? 31)%N; [split; discriminate|].
      destruct (IH s1 ltac:(lia) None (c :: flush hi acc)) as [F P].
      split; [exact F|]. intros v r H. apply P in H. simpl. lia.
Qed.

Lemma scan_string_fuel hi acc s : scan_string hi acc s <> OutOfFuel.
Proof. now apply (@scan_string_aux (sz s) s (le_n _) hi acc). Qed.

Lemma scan_string_lt hi acc s v r :
  scan_string hi acc s = Ok v r -> sz (r) < sz (s).
Proof. now apply (@scan_string_aux (sz s) s (le_n _) hi acc). Qed.

Lemma span_int_lt s ip r : span_int s = Some (ip, r) -> sz (r) < sz (s).
Proof.
  destruct s as [|c s1]; [discriminate|]. unfold span_int.
  destruct (c =? 48)%N.
  - intros H. injection H as _ <-. simpl. lia.
  - destruct (is_digit c); [|discriminate].
    pose proof (span_digits_le s1) as L.
    destruct (span_digits s1) as [ds rest]. simpl in L.
    intros H. injection H as _ <-. simpl. lia.
Qed.

Lemma span_frac_le s ds r : span_frac s = Some (ds, r) -> sz (r) <= sz (s).
Proof.
  destruct s as [|c s1]; [discriminate|]. unfold span_frac.
  destruct (c =? 46)%N; [|discriminate].
  pose proof (span_digits_le s1) as L.
  destruct (span_digits s1) as [[|d ds'] rest]; [discriminate|].
  simpl in L. intros H. injection H as _ <-. simpl. lia.
Qed.

Lemma span_exp_le s e r : span_exp s = Some (e, r) -> sz r <= sz s.
Proof.
  destruct s as [|c s1]; [discriminate|]. unfold span_exp.
  destruct ((c =? 101) || (c =? 69))%N; [|discriminate].
  destruct s1 as [|sg s2];
    [|destruct (sg =? 45)%N; [|destruct (sg =? 43)%N]];
    match goal with
    | |- context [span_digits ?r1] =>
        pose proof (span_digits_le r1) as L;
        destruct (span_digits r1) as [[|d ds'] rest]; [discriminate|];
        simpl in L; intros H; injection H as _ <-; simpl; lia
    end.
Qed.

Lemma scan_number_lt s v r : scan_number s = Some (v, r) -> sz (r) < sz (s).
Proof.
  unfold scan_number.
  set (p := match s with
            | c :: r0 => if (c =? 45)%N then (true, r0) else (false, s)
            | [] => (false, s)
            end).
  assert (L1 : sz (snd p) <= sz (s)).
  { subst p. destruct s as [|c r0]; simpl; [lia|].
    destruct (c =? 45)%N; simpl; lia. }
  destruct p as [neg s1]. simpl in L1.
  destruct (span_int s1) as [[ip s2]|] eqn:E; [|discriminate].
  apply span_int_lt in E.
  set (q := match span_frac s2 with
            | Some (ds, rest) => (Some ds, rest)
            | None => (None, s2)
            end).
  assert (L2 : sz (snd q) <= sz (s2)).
  { subst q. destruct (span_frac s2) as [[ds rest]|] eqn:F; simpl; [|lia].
    now apply span_frac_le in F. }
  destruct q as [fp s3]. simpl in L2.
  set (q := match span_exp s3 with
            | Some (e, rest) => (Some e, rest)
            | None => (None, s3)
            end).
  assert (L3 : sz (snd q) <= sz (s3)).
  { subst q. destruct (span_exp s3) as [[e rest]|] eqn:F; simpl; [|lia].
    now apply span_exp_le in F. }
  destruct q as [ep s4]. simpl in L3.
  destruct fp, ep; intros H; injection H as _ <-; lia.
Qed.

Lemma scan_atom_fuel s : scan_atom s <> OutOfFuel.
Proof.
  unfold scan_atom.
  repeat match goal with
         | |- context [match ?x with _ => _ end] => destruct x
         end; discriminate.
Qed.

Lemma scan_atom_lt s v r : scan_atom s = Ok v r -> sz (r) < sz (s).
Proof.
  unfold scan_atom.
  repeat match goal with
         | |- context [match after ?w s with _ => _ end] =>
             let E := fresh "E" in
             destruct (after w s) eqn:E;
             [apply after_length in E; intros H; injection H as _ <-;
              simpl in E; lia|]
         end.
  destruct (scan_number s) as [[x y]|] eqn:En; [|discriminate].
  apply scan_number_lt in En. intros H. injection H as _ <-. exact En.
Qed.

End JsonFacts.

Module JsonTotal.

Import Json JsonFacts.

Local Abbreviation sz := (@List.length Py.char).

Ltac ws_le x := pose proof (skip_ws_le x).

Lemma progress_all fuel : scanners_progress fuel.
Proof.
  induction fuel as [|f (IHo & IHm & IHe)].
  { repeat split; intros; try discriminate; simpl in *; lia. }
  split; [|split].
  - (* scan_once *)
    intros s. cbn [scan_once]. destruct s as [|c r].
    { split; [discriminate|discriminate]. }
    destruct (c =? 34)%N.
    { destruct (scan_string None [] r) as [t rest| |] eqn:E.
      - apply scan_string_lt in E. split; [|discriminate].
        intros v r0 H. injection H as _ <-. simpl. lia.
      - split; discriminate.
      - now apply scan_string_fuel in E. }
    destruct (c =? 123)%N.
    { ws_le r. destruct (skip_ws r) as [|c1 r1].
      - destruct (IHm [] []) as [P F]. split.
        + intros v r0 Hq. apply P in Hq. simpl in *. lia.
        + intros L. apply F. simpl in *. lia.
      - destruct (c1 =? 125)%N.
        + split; [|discriminate]. intros v r0 Hq.
          injection Hq as _ <-. simpl in *. lia.
        + destruct (IHm [] (c1 :: r1)) as [P F]. split.
          * intros v r0 Hq. apply P in Hq. simpl in *. lia.
          * intros L. apply F. simpl in *. lia. }
    destruct (c =? 91)%N.
    { ws_le r. destruct (skip_ws r) as [|c1 r1].
      - destruct (IHe [] []) as [P F]. split.
        + intros v r0 Hq. apply P in Hq. simpl in *. lia.
        + intros L. apply F. simpl in *. lia.
      - destruct (c1 =? 93)%N.
        + split; [|discriminate]. intros v r0 Hq.
          injection Hq as _ <-. simpl in *. lia.
        + destruct (IHe [] (c1 :: r1)) as [P F]. split.
          * intros v r0 Hq. apply P in Hq. simpl in *. lia.
          * intros L. apply F. simpl in *. lia. }
    split; [apply scan_atom_lt|intros _; apply scan_atom_fuel].
  - (* members *)
    intros acc s. cbn [members]. destruct s as [|c r].
    { split; discriminate. }
    destruct (c =? 34)%N; [|split; discriminate].
    destruct (scan_string None [] r) as [key r1| |] eqn:E;
      [|split; discriminate|now apply scan_string_fuel in E].
    apply scan_string_lt in E. ws_le r1.
    destruct (skip_ws r1) as [|c2 r2]; [split; discriminate|].
    destruct (c2 =? 58)%N; [|split; discriminate].
    ws_le r2. destruct (IHo (skip_ws r2)) as [Po Fo].
    destruct (scan_once f (skip_ws r2)) as [v r3| |] eqn:E3.
    + specialize (Po v r3 eq_refl). ws_le r3.
      destruct (skip_ws r3) as [|c4 r4]; [split; discriminate|].
      destruct (c4 =? 125)%N.
      { split; [|discriminate]. intros v0 r0 Hq.
        injection Hq as _ <-. simpl in *. lia. }
      destruct (c4 =? 44)%N; [|split; discriminate].
      ws_le r4.
      destruct (IHm (dict_set acc key v) (skip_ws r4)) as [P F]. split.
      * intros v0 r0 Hq. apply P in Hq. simpl in *. lia.
      * intros L. apply F. simpl in *. lia.
    + split; discriminate.
    + split; [discriminate|]. intros L _. apply Fo; [|reflexivity].
      simpl in *. lia.
  - (* elements *)
    intros acc s. cbn [elements].
    destruct (IHo s) as [Po Fo].
    destruct (scan_once f s) as [v r1| |] eqn:E1.
    + specialize (Po v r1 eq_refl). ws_le r1.
      destruct (skip_ws r1) as [|c2 r2]; [split; discriminate|].
      destruct (c2 =? 93)%N.
      { split; [|discriminate]. intros v0 r0 Hq.
        injection Hq as _ <-. simpl in *. lia. }
      destruct (c2 =? 44)%N; [|split; discriminate].
      ws_le r2.
      destruct (IHe (acc ++ [v]) (skip_ws r2)) as [P F]. split.
      * intros v0 r0 Hq. apply P in Hq. simpl in *. lia.
      * intros L. apply F. simpl in *. lia.
    + split; discriminate.
    + split; [discriminate|]. intros L _. apply Fo; [|reflexivity]. lia.
Qed.

(** The decoder always answers: its budget is never used up. *)
Lemma scan_once_fuel s : scan_once (budget s) (skip_ws s) <> OutOfFuel.
Proof.
  destruct (progress_all (budget s)) as (Ho & _).
  apply Ho. pose proof (skip_ws_le s). unfold budget. lia.
Qed.

Lemma loads_total s msg : loads s <> inl (RecursionError msg).
Proof.
  unfold loads. pose proof (scan_once_fuel s) as F.
  destruct (scan_once (budget s) (skip_ws s)) as [v rest|m|];
    [|discriminate|congruence].
  destruct (skip_ws rest); discriminate.
Qed.

(** So [loads] either builds a value or raises [JSONDecodeError]. *)
Lemma loads_cases s :
  (exists v, loads s = inr v)
  \/ (exists msg, loads s = inl (JSONDecodeError msg)).
Proof.
  unfold loads. pose proof (scan_once_fuel s) as F.
  destruct (scan_once (budget s) (skip_ws s)) as [v rest|m|];
    [|right; eauto|congruence].
  destruct (skip_ws rest); [left|right]; eauto.
Qed.

End JsonTotal.

(** ** Structured output *)

Module ReFacts.

Import Re.

Lemma char_eqb_eq a b : Py.char_eqb a b = true <-> a = b.
Proof. apply N.eqb_eq. Qed.

Lemma char_eqb_neq a b : Py.char_eqb a b = false <-> a <> b.
Proof. apply N.eqb_neq. Qed.

(** The search for the opening brace stops at the first one. *)
Lemma after_first_open_spec s :
  match after_first_open s with
  | Some r => exists pre, s = pre ++ OPEN :: r /\ ~ In OPEN pre
  | None => ~ In OPEN s
  end.
Proof.
  induction s as [|c s IH]; cbn [after_first_open]; [tauto|].
  destruct (Py.char_eqb c OPEN) eqn:E.
  - apply char_eqb_eq in E. subst. exists []. split; [reflexivity|tauto].
  - apply char_eqb_neq in E. destruct (after_first_open s) as [r|].
    + destruct IH as (pre & -> & Hn). exists (c :: pre).
      split; [reflexivity|]. simpl. intros [H|H]; [congruence|tauto].
    + simpl. intros [H|H]; [congruence|tauto].
Qed.

(** The greedy part runs to the last closing brace. *)
Lemma upto_last_close_spec s :
  match upto_last_close s with
  | Some m =>
      exists mid post,
        s = mid ++ CLOSE :: post /\ m = mid ++ [CLOSE] /\ ~ In CLOSE post
  | None => ~ In CLOSE s
  end.
Proof.
  induction s as [|c s IH]; cbn [upto_last_close]; [tauto|].
  destruct (upto_last_close s) as [m|].
  - destruct IH as (mid & post & -> & -> & Hn).
    exists (c :: mid), post. now repeat split.
  - destruct (Py.char_eqb c CLOSE) eqn:E.
    + apply char_eqb_eq in E. subst. exists [], s. now repeat split.
    + apply char_eqb_neq in E. simpl.
      intros [H|H]; [congruence|tauto].
Qed.

(** What is handed to the decoder: the stretch from the first opening
    brace to the last closing brace after it, or the whole text when
    there is no such stretch. *)
Lemma json_str_spec text :
  (exists pre mid post,
      text = pre ++ OPEN :: mid ++ CLOSE :: post
      /\ ~ In OPEN pre /\ ~ In CLOSE post
      /\ Services.json_str text = OPEN :: mid ++ [CLOSE])
  \/ ((~ In OPEN text
       \/ exists pre r,
           text = pre ++ OPEN :: r /\ ~ In OPEN pre /\ ~ In CLOSE r)
      /\ Services.json_str text = text).
Proof.
  unfold Services.json_str, search_braces.
  pose proof (after_first_open_spec text) as H1.
  destruct (after_first_open text) as [r|].
  - destruct H1 as (pre & -> & Hpre).
    pose proof (upto_last_close_spec r) as H2.
    destruct (upto_last_close r) as [m|].
    + destruct H2 as (mid & post & -> & -> & Hpost).
      left. exists pre, mid, post. now repeat split.
    + right. split; [|reflexivity]. right. now exists pre, r.
  - right. split; [now left|reflexivity].
Qed.

End ReFacts.

Module ParseFacts.

Import Services Pydantic.

Lemma conforms_false_iff co fs d :
  conforms co fs d = false <->
  exists f t, In (f, t) fs /\ (field_missing d f \/ field_mistyped co d f t).
Proof.
  unfold conforms, field_missing, field_mistyped. split.
  - intros H.
    induction fs as [|[f t] fs IH]; [discriminate|].
    cbn [forallb fst snd] in H.
    destruct (Json.dict_get d f) as [v|] eqn:E.
    + destruct (accepts co t v) eqn:A.
      * destruct (IH H) as (f' & t' & Hin & Hc).
        exists f', t'. split; [now right|exact Hc].
      * exists f, t. split; [now left|]. right. now exists v.
    + exists f, t. split; [now left|]. now left.
  - intros (f & t & Hin & Hc).
    apply not_true_is_false. intros H.
    rewrite forallb_forall in H. specialize (H (f, t) Hin).
    cbn [fst snd] in H.
    destruct Hc as [Hm|(v & Hv & Ha)].
    + rewrite Hm in H. discriminate.
    + rewrite Hv, Ha in H. discriminate.
Qed.

Lemma required_float_cases co n d f :
  match required_float co n d f with
  | inr _ =>
      match Json.dict_get d f with
      | Some v => accepts co TFloat v = true
      | None => False
      end
  | inl e =>
      e = validation_error n
      /\ match Json.dict_get d f with
         | Some v => accepts co TFloat v = false
         | None => True
         end
  end.
Proof.
  unfold required_float, accepts.
  destruct (Json.dict_get d f) as [v|]; [|now split].
  destruct (validate_float co v); [reflexivity|now split].
Qed.

Lemma required_str_cases n d f :
  forall co,
  match required_str n d f with
  | inr _ =>
      match Json.dict_get d f with
      | Some v => accepts co TStr v = true
      | None => False
      end
  | inl e =>
      e = validation_error n
      /\ match Json.dict_get d f with
         | Some v => accepts co TStr v = false
         | None => True
         end
  end.
Proof.
  intros co. unfold required_str, accepts.
  destruct (Json.dict_get d f) as [v|]; [|now split].
  destruct (validate_str v); [reflexivity|now split].
Qed.

Ltac lawful_tac m :=
  intros co d; unfold conforms, m;
  cbn zeta; cbn [construct fields name forallb fst snd];
  repeat match goal with
    | |- context [required_float ?co ?n ?d ?f] =>
        let H := fresh "H" in
        pose proof (required_float_cases co n d f) as H;
        destruct (required_float co n d f);
        destruct (Json.dict_get d f)
    | |- context [required_str ?n ?d ?f] =>
        let H := fresh "H" in
        pose proof (required_str_cases n d f co) as H;
        destruct (required_str n d f);
        destruct (Json.dict_get d f)
    end;
  repeat match goal with
    | H : _ /\ _ |- _ => destruct H
    | H : False |- _ => destruct H
    end;
  subst;
  repeat match goal with
    | H : accepts _ _ _ = _ |- _ => rewrite H
    end;
  cbn [andb]; try rewrite andb_false_r; auto.

Lemma cv_lawful : lawful CvEvaluationOutput_model.
Proof. lawful_tac CvEvaluationOutput_model. Qed.

Lemma project_lawful : lawful ProjectEvaluationOutput_model.
Proof. lawful_tac ProjectEvaluationOutput_model. Qed.

Lemma summary_lawful : lawful FinalSummaryOutput_model.
Proof. lawful_tac FinalSummaryOutput_model. Qed.

End ParseFacts.

Module Structured.

Import Services Pydantic ReFacts ParseFacts JsonTotal LlmFacts.

Lemma model_of_lawful T (k : output_model T) : lawful (model_of k).
Proof.
  destruct k; [apply cv_lawful|apply project_lawful|apply summary_lawful].
Qed.

(** C5, as the code has it: the text handed to the decoder is the
    stretch from the first opening brace to the last closing brace of
    the answer (the match of a greedy pattern), so an object wrapped in
    prose that holds no brace is recovered; when no such stretch exists
    the whole answer is decoded.  The wrapped answer of the
    specification gives [cv_match_rate = 0.8], [cv_feedback = "ok"]. *)
Theorem json_extraction (text : str) :
  ((exists pre mid post,
       text = pre ++ Re.OPEN :: mid ++ Re.CLOSE :: post
       /\ ~ In Re.OPEN pre /\ ~ In Re.CLOSE post
       /\ json_str text = Re.OPEN :: mid ++ [Re.CLOSE])
   \/ ((~ In Re.OPEN text
        \/ exists pre r,
            text = pre ++ Re.OPEN :: r
            /\ ~ In Re.OPEN pre /\ ~ In Re.CLOSE r)
       /\ json_str text = text))
  /\ json_str Sample.wrapped_answer = Sample.answer_object "0.8" "ok"
  /\ forall co,
       parse_llm_json co Sample.wrapped_answer CvEvaluationOutput_model
       = inr {| cv_match_rate := Json.FDec false 8 (-1);
                cv_feedback := Py.lit "ok" |}.
Proof.
  split; [apply json_str_spec|]. split.
  - vm_compute. reflexivity.
  - intros co. vm_compute. reflexivity.
Qed.

(** C5, as stated, fails on an answer that holds two objects: the first
    balanced object is a valid answer, but the text handed to the
    decoder is the whole answer, which is not valid JSON. *)
Lemma first_balanced_object_not_extracted :
  first_balanced_object Sample.two_objects
  = Some (Sample.answer_object "0.8" "ok")
  /\ json_str Sample.two_objects = Sample.two_objects
  /\ json_str Sample.two_objects <> Sample.answer_object "0.8" "ok"
  /\ parse_llm_json Sample.no_coercion Sample.two_objects
       CvEvaluationOutput_model
     = inl (Exception
              (Py.lit "Invalid JSON response from LLM: Extra data"))
  /\ parse_llm_json Sample.no_coercion (Sample.answer_object "0.8" "ok")
       CvEvaluationOutput_model
     = inr {| cv_match_rate := Json.FDec false 8 (-1);
              cv_feedback := Py.lit "ok" |}.
Proof.
  repeat split; try (vm_compute; reflexivity).
  vm_compute. discriminate.
Qed.

End Structured.

(** ** Retrieval *)

Module RetrievalFacts.

Import Services.

Lemma filter_none {A} (f : A -> bool) (l : list A) :
  (forall x, In x l -> f x = false) -> filter f l = [].
Proof.
  induction l as [|x l IH]; intros H; [reflexivity|].
  simpl. rewrite (H x (or_introl eq_refl)). apply IH.
  intros y Hy. apply H. now right.
Qed.

(** The answer of the store when nothing matches: one empty list of
    texts. *)
Lemma query_no_match dist c query_text sources n_results :
  (forall e, In e c -> Chroma.source_in sources e = false) ->
  Chroma.query dist c query_text sources n_results
  = {| Chroma.documents := Some [[]] |}.
Proof.
  intros H. unfold Chroma.query. rewrite (@filter_none _ _ _ H).
  cbn [Chroma.sort_by fold_right]. now rewrite firstn_nil.
Qed.

(** With the store reachable, a retrieval records one query, leaves the
    index as it is and returns some context. *)
Lemma query_rag_run W query_text sources n_results s :
  collection_loaded W = true -> store_up W = true ->
  exists context,
    query_rag W query_text sources n_results s
    = (inr context,
       {| log := log s ++ [EvQuery query_text sources n_results];
          db := db s |}).
Proof.
  intros HL HU. unfold query_rag, collection_query, bind, emit, get_state,
    ret. rewrite HL, HU. cbn [negb log db].
  match goal with
  | |- context [Chroma.documents ?r] => destruct (Chroma.documents r) as [[|d0 ?]|]
  end; try (eexists; reflexivity).
  destruct d0; eexists; reflexivity.
Qed.

End RetrievalFacts.

Module Retrieval.

Import Services RetrievalFacts.

(** C8: when the store is reachable and no chunk of the index has a
    source among the ones asked for (an empty index is such an index),
    the query raises nothing and answers with an empty list of texts, and
    the retriever returns the empty string. *)
Theorem query_rag_no_match (W : World) (query_text : str)
    (sources : list str) (n_results : Z) (s : state) :
  collection_loaded W = true ->
  store_up W = true ->
  (forall e, In e (db s) -> Chroma.source_in sources e = false) ->
  let s' := {| log := log s ++ [EvQuery query_text sources n_results];
               db := db s |} in
  collection_query W query_text sources n_results s
  = (inr (Some {| Chroma.documents := Some [[]] |}), s')
  /\ query_rag W query_text sources n_results s = (inr [], s').
Proof.
  intros HL HU Hno s'.
  assert (Q : collection_query W query_text sources n_results s
              = (inr (Some {| Chroma.documents := Some [[]] |}), s')).
  { unfold collection_query, bind, emit, get_state, ret. rewrite HU.
    cbn [log db].
    now rewrite (@query_no_match _ _ query_text _ n_results Hno). }
  split; [exact Q|].
  unfold query_rag. rewrite HL. cbn [negb]. unfold bind. rewrite Q.
  reflexivity.
Qed.

(** An index that holds one chunk of another source, and the empty
    index. *)
Lemma query_rag_no_match_witness :
  let W := Sample.world (Sample.flaky 0 []) in
  let q := Py.lit "rubrik penilaian cv" in
  let sources := [Py.lit "cv_rubric"] in
  (query_rag W q sources 5 Sample.other_state
   = (inr [], {| log := [EvQuery q sources 5];
                 db := db Sample.other_state |}))
  /\ query_rag W q sources 5 Sample.empty_state
     = (inr [], {| log := [EvQuery q sources 5]; db := [] |}).
Proof.
  intros W q sources. split.
  - apply (@query_rag_no_match W q sources 5 Sample.other_state);
      [reflexivity|reflexivity|].
    intros e [<-|[]]. vm_compute. reflexivity.
  - apply (@query_rag_no_match W q sources 5 Sample.empty_state);
      [reflexivity|reflexivity|]. intros e [].
Defined.

End Retrieval.

(** ** The pipeline *)

Module PipelineFacts.

Import Services Worker RetrievalFacts LlmFacts.

Lemma parse_pdf_run W path s :
  parse_pdf W path s
  = (match pdf_reader W path with
     | inl e => inl e
     | inr pages =>
         inr (List.concat (map (fun page => page ++ blank) pages))
     end,
     {| log := log s ++ [EvReadPdf path]; db := db s |}).
Proof.
  unfold parse_pdf, bind, emit. destruct (pdf_reader W path); reflexivity.
Qed.

(** The run of the task is the run of the four blocks in their order,
    stopped at the first that raises. *)
Lemma run_task_stages W job_id cv_path report_path job_title s :
  run_task W job_id cv_path report_path job_title s
  = match extract_stage W cv_path report_path s with
    | (inl e, s1) => (FAILURE e, s1)
    | (inr (cv_text, report_text), s1) =>
        match cv_stage W job_title cv_text s1 with
        | (inl e, s2) => (FAILURE e, s2)
        | (inr cv_eval, s2) =>
            match project_stage W report_text s2 with
            | (inl e, s3) => (FAILURE e, s3)
            | (inr project_eval, s3) =>
                match summary_stage W cv_eval project_eval s3 with
                | (inl e, s4) => (FAILURE e, s4)
                | (inr summary_eval, s4) =>
                    (SUCCESS (assemble cv_eval project_eval summary_eval),
                     s4)
                end
            end
        end
    end.
Proof.
  unfold run_task, evaluate_candidate_task, run_real_evaluation_pipeline,
    extract_stage, cv_stage, project_stage, summary_stage, invoke, assemble,
    try_except, bind, lift, ret, raise.
  repeat match goal with
         | |- context [match ?f ?x with (_, _) => _ end] =>
             destruct (f x) as [[?|?] ?]; try reflexivity
         | |- context [match parse_llm_json ?a ?b ?c with _ => _ end] =>
             destruct (parse_llm_json a b c); try reflexivity
         end.
Qed.

(** The CV stage when the three attempts of its call fail: two
    retrievals, three attempts, the error of the third. *)
Lemma cv_stage_fails W g job_title cv_text s e1 e2 e3 :
  llm_model W = Some g ->
  collection_loaded W = true -> store_up W = true ->
  (forall p, g (llm_calls (log s)) p = inl e1) ->
  (forall p, g (llm_calls (log s) + 1) p = inl e2) ->
  (forall p, g (llm_calls (log s) + 2) p = inl e3) ->
  exists jd_context cv_rubric_context,
    cv_stage W job_title cv_text s
    = (inl e3,
       {| log := log s
                 ++ cv_stage_calls job_title
                      (create_cv_prompt W cv_text jd_context
                         cv_rubric_context);
          db := db s |}).
Proof.
  intros HW HL HU H1 H2 H3. unfold cv_stage.
  destruct (@query_rag_run W (Py.lit "skills untuk " ++ job_title)
              [Py.lit "job_description"] default_n_results s HL HU)
    as [jd Hjd].
  unfold bind at 1. rewrite Hjd.
  set (s1 := {| log := _; db := _ |}).
  destruct (@query_rag_run W (Py.lit "rubrik penilaian cv")
              [Py.lit "cv_rubric"] default_n_results s1 HL HU)
    as [ru Hru].
  unfold bind at 1. rewrite Hru.
  set (s2 := {| log := _; db := _ |}).
  assert (C : llm_calls (log s2) = llm_calls (log s)).
  { subst s2 s1. cbn [log]. rewrite !llm_calls_app. cbn. lia. }
  exists jd, ru. unfold invoke, bind.
  set (prompt := create_cv_prompt W cv_text jd ru).
  change default_retries with 3%Z.
  rewrite (@retry_three W g prompt default_delay s2 e1 e2 (inl e3) HW);
    [|unfold default_delay; lia
     |rewrite C; apply H1|rewrite C; apply H2|rewrite C; apply H3].
  subst s2 s1. cbn [log db]. unfold cv_stage_calls.
  rewrite <- !app_assoc. reflexivity.
Qed.

(** A run in which every call succeeds: the calls are made in the order
    of the stages. *)
Lemma run_task_sample_success :
  let W := Sample.world (Sample.flaky 0 Sample.full_answer) in
  let cv := Py.lit "cv.pdf" in
  let report := Py.lit "report.pdf" in
  let title := Py.lit "Backend Engineer" in
  exists result cv_prompt project_prompt summary_prompt,
    run_task W (Py.lit "job-1") cv report title Sample.empty_state
    = (SUCCESS result,
       {| log := [EvReadPdf cv; EvReadPdf report;
                  EvQuery (Py.lit "skills untuk " ++ title)
                    [Py.lit "job_description"] 5;
                  EvQuery (Py.lit "rubrik penilaian cv")
                    [Py.lit "cv_rubric"] 5;
                  EvGenerate cv_prompt;
                  EvQuery (Py.lit "persyaratan case study")
                    [Py.lit "case_study_brief"] 5;
                  EvQuery (Py.lit "rubrik penilaian proyek")
                    [Py.lit "project_rubric"] 5;
                  EvGenerate project_prompt;
                  EvGenerate summary_prompt];
          db := [] |}).
Proof.
  intros W cv report title. do 4 eexists. vm_compute. reflexivity.
Qed.

End PipelineFacts.

Module Pipeline.

Import Services Worker LlmFacts PipelineFacts.

(** C4: the task runs the extraction, the CV stage, the project stage and
    the summary stage in this order; the first of them that raises ends
    the task as failed with that exception, in the state that stage left
    (nothing of a later stage is run) and without a result; a result is
    returned only when the four succeed.  In particular, when the three
    attempts of the CV stage's call fail, the task fails with the error
    of the third attempt and the calls made are the two readings, the two
    retrievals of the CV stage and the three attempts: no retrieval and
    no call of the project or summary stage. *)
Theorem run_task_aborts_at_first_failure (W : World)
    (job_id cv_path report_path job_title : str) (s : state) :
  run_task W job_id cv_path report_path job_title s
  = match extract_stage W cv_path report_path s with
    | (inl e, s1) => (FAILURE e, s1)
    | (inr (cv_text, report_text), s1) =>
        match cv_stage W job_title cv_text s1 with
        | (inl e, s2) => (FAILURE e, s2)
        | (inr cv_eval, s2) =>
            match project_stage W report_text s2 with
            | (inl e, s3) => (FAILURE e, s3)
            | (inr project_eval, s3) =>
                match summary_stage W cv_eval project_eval s3 with
                | (inl e, s4) => (FAILURE e, s4)
                | (inr summary_eval, s4) =>
                    (SUCCESS (assemble cv_eval project_eval summary_eval),
                     s4)
                end
            end
        end
    end
  /\ forall g cv_pages report_pages e1 e2 e3,
       llm_model W = Some g ->
       collection_loaded W = true -> store_up W = true ->
       pdf_reader W cv_path = inr cv_pages ->
       pdf_reader W report_path = inr report_pages ->
       (forall p, g (llm_calls (log s)) p = inl e1) ->
       (forall p, g (llm_calls (log s) + 1) p = inl e2) ->
       (forall p, g (llm_calls (log s) + 2) p = inl e3) ->
       exists cv_prompt,
         run_task W job_id cv_path report_path job_title s
         = (FAILURE e3,
            {| log := log s
                      ++ [EvReadPdf cv_path; EvReadPdf report_path]
                      ++ cv_stage_calls job_title cv_prompt;
               db := db s |}).
Proof.
  split; [apply run_task_stages|].
  intros g cv_pages report_pages e1 e2 e3 HW HL HU Hcv Hrp H1 H2 H3.
  rewrite run_task_stages.
  unfold extract_stage, bind, ret. rewrite !parse_pdf_run, Hcv.
  cbn [log db]. rewrite Hrp.
  set (s1 := {| log := _; db := _ |}).
  assert (C : llm_calls (log s1) = llm_calls (log s)).
  { subst s1. cbn [log]. rewrite !llm_calls_app. cbn. lia. }
  destruct (@cv_stage_fails W g job_title
              (List.concat (map (fun page => page ++ blank) cv_pages))
              s1 e1 e2 e3 HW HL HU)
    as (jd & ru & Hcvs);
    [intros p; rewrite C; apply H1|intros p; rewrite C; apply H2
    |intros p; rewrite C; apply H3|].
  rewrite Hcvs. eexists. subst s1. cbn [log db].
  rewrite <- !app_assoc. reflexivity.
Qed.

(** A service that is unavailable at the first three calls: the task
    fails with that error after the three attempts of the CV stage. *)
Lemma run_task_aborts_at_first_failure_witness :
  let W := Sample.world (Sample.flaky 3 (Py.lit "{}")) in
  let cv := Py.lit "cv.pdf" in
  let report := Py.lit "report.pdf" in
  let title := Py.lit "Backend Engineer" in
  exists cv_prompt,
    run_task W (Py.lit "job-1") cv report title Sample.empty_state
    = (FAILURE Sample.unavailable,
       {| log := [EvReadPdf cv; EvReadPdf report]
                 ++ cv_stage_calls title cv_prompt;
          db := [] |}).
Proof.
  intros W cv report title.
  apply (proj2 (@run_task_aborts_at_first_failure W (Py.lit "job-1") cv
                  report title Sample.empty_state)
           (Sample.flaky 3 (Py.lit "{}"))
           [Py.lit "page of " ++ cv] [Py.lit "page of " ++ report]
           Sample.unavailable Sample.unavailable Sample.unavailable);
    try reflexivity.
Defined.

End Pipeline.

(** ** Ingestion *)

Module StoreFacts.

Import Chroma.

Lemma eqb_eq a b : Py.eqb a b = true <-> a = b.
Proof.
  revert b. induction a as [|x a IH]; intros [|y b]; simpl;
    try (split; [discriminate|discriminate]); [tauto|].
  rewrite andb_true_iff, IH. unfold Py.char_eqb. rewrite N.eqb_eq.
  split; [intros [-> ->]; reflexivity|intros E; injection E; auto].
Qed.

Lemma eqb_refl a : Py.eqb a a = true.
Proof. now apply eqb_eq. Qed.

Lemma has_id_In i c : has_id i c = true <-> In i (map id c).
Proof.
  unfold has_id. rewrite existsb_exists, in_map_iff.
  split; intros (x & H1 & H2).
  - apply eqb_eq in H2. now exists x.
  - exists x. split; [assumption|]. apply eqb_eq. assumption.
Qed.

(** Overwriting in place changes no id. *)
Lemma map_overwrite_ids e c :
  map id (map (fun x => if Py.eqb (id x) (id e) then e else x) c)
  = map id c.
Proof.
  rewrite map_map. apply map_ext. intros x.
  destruct (Py.eqb (id x) (id e)) eqn:E; [|reflexivity].
  apply eqb_eq in E. now symmetry.
Qed.

Lemma upsert_one_ids e c :
  map id (upsert_one e c)
  = if has_id (id e) c then map id c else map id c ++ [id e].
Proof.
  unfold upsert_one. destruct (has_id (id e) c).
  - apply map_overwrite_ids.
  - now rewrite map_app.
Qed.

Lemma upsert_one_has_id e c : has_id (id e) (upsert_one e c) = true.
Proof.
  apply has_id_In. rewrite upsert_one_ids.
  destruct (has_id (id e) c) eqn:E.
  - now apply has_id_In.
  - apply in_or_app. right. now left.
Qed.

Lemma upsert_one_keeps_id i e c :
  has_id i c = true -> has_id i (upsert_one e c) = true.
Proof.
  rewrite !has_id_In, upsert_one_ids. intros H.
  destruct (has_id (id e) c); [assumption|].
  apply in_or_app. now left.
Qed.

Lemma upsert_one_NoDup e c :
  NoDup (map id c) -> NoDup (map id (upsert_one e c)).
Proof.
  intros H. rewrite upsert_one_ids.
  destruct (has_id (id e) c) eqn:E; [assumption|].
  apply NoDup_app; [assumption|repeat constructor; intros []|].
  intros i Hi [<-|[]]. apply has_id_In in Hi. congruence.
Qed.

Local Abbreviation apply_batch :=
  (fold_left (fun acc e => upsert_one e acc)).

Lemma batch_keeps_id i batch c :
  has_id i c = true -> has_id i (apply_batch batch c) = true.
Proof.
  revert c. induction batch as [|e batch IH]; intros c H; [assumption|].
  simpl. apply IH. now apply upsert_one_keeps_id.
Qed.

(** After a batch every id of the batch is present. *)
Lemma batch_has_ids batch c e :
  In e batch -> has_id (id e) (apply_batch batch c) = true.
Proof.
  revert c. induction batch as [|x batch IH]; intros c []; simpl.
  - subst. apply batch_keeps_id, upsert_one_has_id.
  - now apply IH.
Qed.

Lemma batch_NoDup batch c :
  NoDup (map id c) -> NoDup (map id (apply_batch batch c)).
Proof.
  revert c. induction batch as [|e batch IH]; intros c H; [assumption|].
  simpl. apply IH. now apply upsert_one_NoDup.
Qed.

Lemma final_id batch x : id (final batch x) = id x.
Proof.
  unfold final. revert x.
  induction batch as [|e batch IH]; intros x; [reflexivity|].
  simpl. rewrite IH. destruct (Py.eqb (id x) (id e)) eqn:E; [|reflexivity].
  apply eqb_eq in E. now symmetry.
Qed.

Lemma final_app batch e x :
  final (batch ++ [e]) x
  = if Py.eqb (id (final batch x)) (id e) then e else final batch x.
Proof. unfold final. now rewrite fold_left_app. Qed.

(** When its ids are all present, a batch overwrites in place. *)
Lemma batch_overwrites batch c :
  (forall e, In e batch -> has_id (id e) c = true) ->
  apply_batch batch c = map (final batch) c.
Proof.
  revert c. induction batch as [|e batch IH]; intros c H.
  - simpl. now rewrite map_id.
  - simpl. unfold upsert_one at 2. rewrite (H e (or_introl eq_refl)).
    rewrite IH.
    + rewrite map_map. reflexivity.
    + intros e' He'. apply has_id_In. rewrite map_overwrite_ids.
      apply has_id_In, H. now right.
Qed.

Lemma in_upsert_one x e c :
  In x (upsert_one e c) ->
  x = e \/ (In x c /\ Py.eqb (id x) (id e) = false).
Proof.
  unfold upsert_one. destruct (has_id (id e) c) eqn:E.
  - rewrite in_map_iff. intros (y & Hy & Hin).
    destruct (Py.eqb (id y) (id e)) eqn:E'; [now left|].
    subst y. right. now split.
  - intros H. apply in_app_or in H. destruct H as [H|[<-|[]]]; [|now left].
    right. split; [assumption|].
    destruct (Py.eqb (id x) (id e)) eqn:E'; [|reflexivity].
    apply eqb_eq in E'. rewrite <- E' in E.
    assert (has_id (id x) c = true) by (apply has_id_In; now apply in_map).
    congruence.
Qed.

Lemma apply_batch_app batch e c :
  apply_batch (batch ++ [e]) c = upsert_one e (apply_batch batch c).
Proof. now rewrite fold_left_app. Qed.

(** An entry of the store after a batch is an entry of the batch, or an
    entry that was there and whose id the batch does not have. *)
Lemma in_batch x batch c :
  In x (apply_batch batch c) ->
  In x batch
  \/ (In x c /\ forall e, In e batch -> Py.eqb (id x) (id e) = false).
Proof.
  revert x. induction batch as [|e batch IH] using rev_ind; intros x H.
  - right. split; [assumption|intros e []].
  - rewrite apply_batch_app in H. apply in_upsert_one in H.
    destruct H as [->|[H Hne]].
    + left. apply in_or_app. right. now left.
    + destruct (IH x H) as [Hb|[Hc Hall]].
      * left. apply in_or_app. now left.
      * right. split; [assumption|].
        intros e' He'. apply in_app_or in He'.
        destruct He' as [He'|[<-|[]]]; [now apply Hall|assumption].
Qed.

(** The entries of the store after a batch are the ones the batch leaves
    in place. *)
Lemma batch_stable batch c x :
  In x (apply_batch batch c) -> final batch x = x.
Proof.
  revert x. induction batch as [|e batch IH] using rev_ind; intros x H.
  - reflexivity.
  - rewrite apply_batch_app in H. rewrite final_app, final_id.
    apply in_upsert_one in H. destruct H as [->|[H Hne]].
    + now rewrite eqb_refl.
    + rewrite Hne. now apply IH.
Qed.

(** Applying a batch a second time changes nothing. *)
Lemma batch_idempotent batch c :
  apply_batch batch (apply_batch batch c) = apply_batch batch c.
Proof.
  rewrite (@batch_overwrites batch (apply_batch batch c)).
  - rewrite <- (map_id (apply_batch batch c)) at 2.
    apply map_ext_in. intros x Hx. now apply batch_stable with (c := c).
  - intros e He. now apply batch_has_ids.
Qed.

Lemma stored_once i c :
  NoDup (map id c) -> has_id i c = true -> stored_under i c = 1.
Proof.
  unfold stored_under. induction c as [|x c IH]; intros Hn Hi.
  - discriminate.
  - simpl in Hn. inversion Hn as [|? ? Hx Hn']; subst.
    simpl. destruct (Py.eqb (id x) i) eqn:E.
    + apply eqb_eq in E. subst i. simpl. f_equal.
      rewrite (@RetrievalFacts.filter_none _ _ c); [reflexivity|].
      intros y Hy. destruct (Py.eqb (id y) (id x)) eqn:E'; [|reflexivity].
      apply eqb_eq in E'. exfalso. apply Hx. rewrite <- E'.
      now apply in_map.
    + apply IH; [assumption|]. unfold has_id in Hi. simpl in Hi.
      rewrite E in Hi. exact Hi.
Qed.

End StoreFacts.

Module IngestFacts.

Import Services StoreFacts.

(** Reading the uploaded file touches neither the log nor the index. *)
Lemma read_content_state W file_bytes file_name s :
  snd (read_content W file_bytes file_name s) = s.
Proof.
  unfold read_content, try_except, lift, raise, ret.
  destruct (Py.endswith file_name (Py.lit ".pdf")).
  - destruct (pdf_reader_bytes W file_bytes); reflexivity.
  - destruct (Py.endswith file_name (Py.lit ".txt")); [|reflexivity].
    destruct (Bytes.decode_utf8 file_bytes); reflexivity.
Qed.

Lemma read_content_any W file_bytes file_name s t :
  fst (read_content W file_bytes file_name s)
  = fst (read_content W file_bytes file_name t).
Proof.
  unfold read_content, try_except, lift, raise, ret.
  destruct (Py.endswith file_name (Py.lit ".pdf")).
  - destruct (pdf_reader_bytes W file_bytes); reflexivity.
  - destruct (Py.endswith file_name (Py.lit ".txt")); [|reflexivity].
    destruct (Bytes.decode_utf8 file_bytes); reflexivity.
Qed.

Lemma read_content_run W file_bytes file_name s t content :
  read_content W file_bytes file_name s = (inr content, s) ->
  read_content W file_bytes file_name t = (inr content, t).
Proof.
  intros H.
  rewrite (surjective_pairing (read_content W file_bytes file_name t)).
  rewrite read_content_state, (@read_content_any _ _ _ t s), H.
  reflexivity.
Qed.

(** The three lists the loop fills: the texts, the metadata and, chunk
    by chunk, the id of the text. *)
Lemma collect_chunks_inv chunks texts0 metas0 ids0 texts metas all_ids :
  collect_chunks chunks (texts0, metas0, ids0) = inr (texts, metas, all_ids) ->
  exists ids,
    texts = texts0 ++ map Ingest.text chunks
    /\ metas = metas0 ++ map Ingest.meta chunks
    /\ all_ids = ids0 ++ ids
    /\ Forall2 (fun chunk chunk_id =>
                  Ingest.generate_document_id (Ingest.text chunk)
                  = inr chunk_id) chunks ids.
Proof.
  revert texts0 metas0 ids0.
  induction chunks as [|chunk chunks IH]; intros texts0 metas0 ids0 H.
  - simpl in H. injection H as <- <- <-. exists [].
    rewrite !app_nil_r. now repeat split.
  - simpl in H.
    destruct (Ingest.generate_document_id (Ingest.text chunk))
      as [e|chunk_id] eqn:E; [discriminate|].
    apply IH in H. destruct H as (ids & -> & -> & -> & HF).
    exists (chunk_id :: ids). rewrite <- !app_assoc.
    repeat split. now constructor.
Qed.

Lemma collect_chunks_run chunks ids texts0 metas0 ids0 :
  Forall2 (fun chunk chunk_id =>
             Ingest.generate_document_id (Ingest.text chunk) = inr chunk_id)
    chunks ids ->
  collect_chunks chunks (texts0, metas0, ids0)
  = inr (texts0 ++ map Ingest.text chunks,
         metas0 ++ map Ingest.meta chunks, ids0 ++ ids).
Proof.
  intros HF. revert texts0 metas0 ids0.
  induction HF as [|chunk chunk_id chunks ids Hid HF IH];
    intros texts0 metas0 ids0; simpl.
  - now rewrite !app_nil_r.
  - rewrite Hid, IH, <- !app_assoc. reflexivity.
Qed.

Lemma zip3_chunks chunks ids :
  Forall2 (fun chunk chunk_id =>
             Ingest.generate_document_id (Ingest.text chunk) = inr chunk_id)
    chunks ids ->
  map Chroma.id
    (Chroma.zip3 ids (map Ingest.text chunks) (map Ingest.meta chunks))
  = ids
  /\ forall e,
       In e (Chroma.zip3 ids (map Ingest.text chunks)
               (map Ingest.meta chunks)) ->
       exists chunk,
         In chunk chunks
         /\ Ingest.generate_document_id (Ingest.text chunk)
            = inr (Chroma.id e)
         /\ e = stored_chunk (Chroma.id e) chunk.
Proof.
  induction 1 as [|chunk chunk_id chunks ids Hid HF [IH1 IH2]].
  - split; [reflexivity|intros e []].
  - simpl. split; [now rewrite IH1|].
    intros e [<-|He].
    + exists chunk. repeat split; [now left|assumption].
    + destruct (IH2 e He) as (ch & Hin & Hg & He').
      exists ch. repeat split; [now right|assumption|assumption].
Qed.

(** A successful ingestion: what was collected, the state it leaves, and
    its run from any other state. *)
Lemma ingest_document_inv W file_bytes file_name source_name s r s1 :
  ingest_document W file_bytes file_name source_name s = (inr r, s1) ->
  exists content ids,
    let chunks := Ingest.split_text_into_chunks content source_name
                    Ingest.default_chunk_size Ingest.default_chunk_overlap in
    let texts := map Ingest.text chunks in
    let metas := map Ingest.meta chunks in
    read_content W file_bytes file_name s = (inr content, s)
    /\ Forall2 (fun chunk chunk_id =>
                  Ingest.generate_document_id (Ingest.text chunk)
                  = inr chunk_id) chunks ids
    /\ s1 = {| log := log s ++ [EvUpsert ids];
               db := Chroma.upsert ids texts metas (db s) |}
    /\ forall t,
         ingest_document W file_bytes file_name source_name t
         = (inr r,
            {| log := log t ++ [EvUpsert ids];
               db := Chroma.upsert ids texts metas (db t) |}).
Proof.
  unfold ingest_document. unfold bind at 1.
  pose proof (read_content_state W file_bytes file_name s) as Hs.
  destruct (read_content W file_bytes file_name s) as [[e|content] s0] eqn:R;
    [discriminate|].
  simpl in Hs. subst s0.
  unfold bind at 1, lift at 1.
  destruct (collect_chunks _ _) as [e|[[texts metas] all_ids]] eqn:C;
    [discriminate|].
  apply collect_chunks_inv in C. destruct C as (ids & -> & -> & -> & HF).
  simpl app.
  destruct (_get_chroma_collection W) eqn:G; [|discriminate].
  cbn [negb]. unfold collection_upsert, bind, emit, get_state, set_db, ret.
  destruct (store_up W) eqn:U; [|discriminate].
  cbn [log db]. intros H. injection H as <- <-.
  exists content, ids. cbn zeta. repeat split; [assumption|].
  intros t.
  rewrite (@read_content_run W file_bytes file_name s t content R).
  unfold lift. rewrite (@collect_chunks_run _ _ [] [] [] HF).
  reflexivity.
Qed.

End IngestFacts.


(** ** The chunker: edge cases and packing *)

Module PackFacts.

Import PyFacts ChunkFacts SquashFacts.

Lemma maximal_drop_empty cs runs :
  maximal cs (runs ++ [[]]) -> maximal cs runs.
Proof.
  induction runs as [|h l IH]; [intros _; exact I|].
  cbn [app maximal]. intros [H1 H2]. split; [|now apply IH].
  destruct l as [|x l]; [exact I|exact H1].
Qed.

Lemma len_render_cons p g :
  Py.len (render (p :: g)) = (Py.len p + 2 + Py.len (render g))%Z.
Proof.
  change (render (p :: g)) with ((p ++ Ingest.blank) ++ render g).
  unfold Py.len. rewrite !length_app. simpl. lia.
Qed.

Lemma len_render_nonneg g : (0 <= Py.len (render g))%Z.
Proof. unfold Py.len. lia. Qed.

Lemma len_render_app g h :
  Py.len (render (g ++ h)) = (Py.len (render g) + Py.len (render h))%Z.
Proof. rewrite render_app. unfold Py.len. rewrite length_app. lia. Qed.

(** The groups the loop closes, with what makes it close them: the
    group at hand extends [g], and every group is closed by a paragraph
    that did not fit. *)
Ltac split_all :=
  split; [|split; [|split; [|split; [|split; [|split]]]]].

Lemma pack_loop_tight src cs ps :
  Forall clean ps ->
  forall chunks g,
    Forall clean g -> (g = [] \/ fits cs g) ->
    exists gs g',
      Ingest.pack_loop src cs ps (chunks, render g)
      = (chunks ++ map (chunk_of src) gs, render g')
      /\ g ++ ps = List.concat gs ++ g'
      /\ Forall (fun h => h <> [] /\ fits cs h) gs
      /\ Forall clean g'
      /\ (g' = [] \/ fits cs g')
      /\ maximal cs (gs ++ [g'])
      /\ exists t rest, gs ++ [g'] = (g ++ t) :: rest.
Proof.
  induction ps as [|p ps IH]; intros HF chunks g Hg Hfit.
  - exists [], g. unfold Ingest.pack_loop. simpl.
    rewrite (app_nil_r chunks), (app_nil_r g).
    split_all; auto. exists [], []. now rewrite app_nil_r.
  - inversion HF as [|? ? Hp Hps]; subst.
    rewrite pack_loop_cons.
    destruct (Z_le_gt_dec (Py.len (render g) + Py.len p + 2) cs) as [E|E].
    + rewrite (pack_step_fit _ _ _ _ E).
      assert (R : render g ++ p ++ Ingest.blank = render (g ++ [p])).
      { now rewrite render_app, render_single. }
      rewrite R.
      destruct (IH Hps chunks (g ++ [p]))
        as (gs & g' & H1 & H2 & H3 & H4 & H5 & H6 & t & rest & H7).
      * apply Forall_app. split; auto.
      * right. left. rewrite <- R. unfold Py.len in *.
        rewrite !length_app. simpl. lia.
      * exists gs, g'. split_all; auto.
        -- now rewrite <- H2, <- app_assoc.
        -- exists ([p] ++ t), rest. now rewrite H7, <- app_assoc.
    + rewrite pack_step_close by lia.
      rewrite <- render_single.
      destruct g as [|q g].
      * cbn [render map List.concat Py.truthy].
        destruct (IH Hps chunks [p])
          as (gs & g' & H1 & H2 & H3 & H4 & H5 & H6 & t & rest & H7).
        { now constructor. }
        { right. right. now exists p. }
        exists gs, g'. split_all; auto.
        exists ([p] ++ t), rest. exact H7.
      * rewrite truthy_render by discriminate.
        rewrite mk_chunk_render by (auto; discriminate).
        destruct (IH Hps (chunks ++ [chunk_of src (q :: g)]) [p])
          as (gs & g' & H1 & H2 & H3 & H4 & H5 & H6 & t & rest & H7).
        { now constructor. }
        { right. right. now exists p. }
        exists ((q :: g) :: gs), g'. split_all; auto.
        -- etransitivity; [exact H1|]. cbn [map]. now rewrite <- app_assoc.
        -- cbn [List.concat]. rewrite <- app_assoc, <- H2. reflexivity.
        -- constructor; auto. split; [discriminate|].
           destruct Hfit as [Hfit|Hfit]; [discriminate|exact Hfit].
        -- cbn [app]. rewrite H7. cbn [app maximal]. split.
           ++ rewrite (@len_render_join (q :: g)) in E by discriminate. lia.
           ++ rewrite H7 in H6. exact H6.
        -- exists [], (gs ++ [g']). now rewrite app_nil_r.
Qed.

(** The chunks are the paragraphs cut into consecutive non-empty runs,
    each as long as the loop could make it. *)
Lemma chunks_tight_structure text src cs ov :
  exists gs,
    Ingest.split_text_into_chunks text src cs ov = map (chunk_of src) gs
    /\ List.concat gs = Ingest.paragraphs text
    /\ Forall (fun h => h <> [] /\ fits cs h) gs
    /\ maximal cs gs.
Proof.
  unfold Ingest.split_text_into_chunks.
  destruct (@pack_loop_tight src cs (Ingest.paragraphs text)
              (paragraphs_clean text) [] [])
    as (gs & g' & H1 & H2 & H3 & H4 & H5 & H6 & _); auto.
  match goal with
  | |- context [Ingest.pack_loop ?a ?b ?c ?d] =>
      replace (Ingest.pack_loop a b c d)
        with ([] ++ map (chunk_of src) gs, render g')
        by (symmetry; exact H1)
  end.
  simpl in H2. cbn [app].
  destruct g' as [|q g'].
  - simpl. exists gs. rewrite app_nil_r in H2.
    split; [reflexivity|]. split; [now symmetry|]. split; [exact H3|].
    now apply maximal_drop_empty.
  - rewrite truthy_render by discriminate.
    rewrite mk_chunk_render by (auto; discriminate).
    exists (gs ++ [q :: g']).
    split; [|split; [|split]].
    + now rewrite map_app.
    + rewrite concat_app. simpl. now rewrite app_nil_r.
    + apply Forall_app. split; auto. constructor; auto.
      split; [discriminate|]. destruct H5; [discriminate|auto].
    + exact H6.
Qed.

Lemma chunk_texts src gs :
  map Ingest.text (map (chunk_of src) gs) = map (Py.join Ingest.blank) gs.
Proof. rewrite map_map. apply map_ext. reflexivity. Qed.

Lemma clean_not_ws p : clean p -> squash p <> [].
Proof.
  intros [(c & r & -> & Hc) _]. unfold squash. simpl. rewrite Hc.
  discriminate.
Qed.

(** A text has no paragraph exactly when it is made of whitespace. *)
Lemma paragraphs_nil_iff text :
  Ingest.paragraphs text = [] <-> squash text = [].
Proof.
  rewrite <- squash_paragraphs. split; [now intros ->|].
  pose proof (paragraphs_clean text) as HF.
  destruct (Ingest.paragraphs text) as [|p ps]; [reflexivity|].
  inversion HF as [|? ? Hp _]; subst. cbn [List.concat].
  rewrite squash_app. intros H. apply app_eq_nil in H as [H _].
  now apply clean_not_ws in Hp.
Qed.

Lemma runs_of_singletons (gs : list (list str)) :
  Forall (fun h => exists p, h = [p]) gs ->
  map (Py.join Ingest.blank) gs = List.concat gs.
Proof.
  induction 1 as [|h gs [p ->] _ IH]; [reflexivity|].
  simpl. now rewrite IH.
Qed.

Lemma length_concat_nonempty (gs : list (list str)) :
  Forall (fun h => h <> []) gs ->
  (List.length gs <= List.length (List.concat gs))%nat.
Proof.
  induction 1 as [|h gs Hh _ IH]; [reflexivity|].
  simpl. rewrite length_app. destruct h; [congruence|]. simpl. lia.
Qed.

End PackFacts.

Module ChunkerEdges.

Import PyFacts ChunkFacts SquashFacts PackFacts.

(** X1: the chunker returns no chunk exactly when the text holds nothing
    but whitespace (the empty text included), whatever the size asked
    for. *)
Theorem no_chunk_iff_blank_text (text source_name : str)
    (chunk_size chunk_overlap : Z) :
  Ingest.split_text_into_chunks text source_name chunk_size chunk_overlap
  = []
  <-> squash text = [].
Proof.
  destruct (chunks_structure text source_name chunk_size chunk_overlap)
    as (gs & -> & Hcat & Hgs).
  rewrite <- paragraphs_nil_iff, <- Hcat. split.
  - intros H. apply map_eq_nil in H. now subst.
  - intros H. destruct gs as [|g gs]; [reflexivity|].
    inversion Hgs as [|? ? [Hne _] _]; subst.
    cbn [List.concat] in H. apply app_eq_nil in H as [H _]. congruence.
Qed.

(** X2: every chunk carries the source name it was asked for, its text
    starts and ends with a character that is not whitespace (so it is
    not empty and stripping it changes nothing), and there are at most
    as many chunks as the text has non-empty paragraphs. *)
Theorem chunks_well_formed (text source_name : str)
    (chunk_size chunk_overlap : Z) :
  let chunks :=
    Ingest.split_text_into_chunks text source_name chunk_size
      chunk_overlap in
  Forall (fun c =>
            Ingest.source (Ingest.meta c) = source_name
            /\ clean (Ingest.text c)
            /\ Py.strip (Ingest.text c) = Ingest.text c) chunks
  /\ (List.length chunks <= List.length (Ingest.paragraphs text))%nat.
Proof.
  destruct (chunks_structure text source_name chunk_size chunk_overlap)
    as (gs & -> & Hcat & Hgs).
  pose proof (paragraphs_clean text) as Hcl. rewrite <- Hcat in Hcl.
  cbn zeta. split.
  - apply Forall_forall. intros c Hc.
    apply in_map_iff in Hc as (g & <- & Hg).
    pose proof (proj1 (Forall_forall _ _) Hgs g Hg) as [Hne _].
    assert (Hg' : Forall clean g).
    { apply Forall_forall. intros p Hp.
      apply (proj1 (Forall_forall _ _) Hcl). apply in_concat.
      now exists g. }
    cbn [chunk_of Ingest.text Ingest.meta Ingest.source].
    pose proof (join_clean Hne Hg') as J.
    repeat split; try apply J. now apply strip_of_clean.
  - rewrite length_map, <- Hcat. apply length_concat_nonempty.
    eapply Forall_impl; [|exact Hgs]. now intros g [H _].
Qed.

(** X3: the packing is tight.  The chunks are consecutive runs of
    paragraphs such that a run of two paragraphs or more, with the blank
    line the loop keeps after it, is at most [chunk_size] characters
    long (its text is at most [chunk_size - 2]), and no run could have
    taken the first paragraph of the next run. *)
Theorem chunks_packed_tight (text source_name : str)
    (chunk_size chunk_overlap : Z) :
  exists runs : list (list str),
    map Ingest.text
        (Ingest.split_text_into_chunks text source_name chunk_size
           chunk_overlap)
    = map (Py.join Ingest.blank) runs
    /\ List.concat runs = Ingest.paragraphs text
    /\ Forall (fun run =>
                 (2 <= List.length run)%nat ->
                 (Py.len (Py.join Ingest.blank run) + 2 <= chunk_size)%Z)
              runs
    /\ maximal chunk_size runs.
Proof.
  destruct (chunks_tight_structure text source_name chunk_size
              chunk_overlap) as (gs & -> & Hcat & Hgs & Hmax).
  exists gs. rewrite chunk_texts.
  split; [reflexivity|]. split; [exact Hcat|]. split; [|exact Hmax].
  eapply Forall_impl; [|exact Hgs]. intros g [Hne Hfit] Hlen.
  destruct Hfit as [Hfit|[p ->]]; [|simpl in Hlen; lia].
  rewrite (len_render_join Hne) in Hfit. lia.
Qed.

(** X4: with a size below three no two paragraphs are ever put
    together: the texts of the chunks are the paragraphs, one each.
    This holds for zero and for negative sizes. *)
Theorem small_size_one_paragraph_per_chunk (text source_name : str)
    (chunk_size chunk_overlap : Z) :
  (chunk_size < 3)%Z ->
  map Ingest.text
      (Ingest.split_text_into_chunks text source_name chunk_size
         chunk_overlap)
  = Ingest.paragraphs text.
Proof.
  intros Hcs.
  destruct (chunks_structure text source_name chunk_size chunk_overlap)
    as (gs & -> & Hcat & Hgs).
  pose proof (paragraphs_clean text) as Hcl. rewrite <- Hcat in Hcl.
  rewrite chunk_texts, <- Hcat. apply runs_of_singletons.
  apply Forall_forall. intros g Hg.
  pose proof (proj1 (Forall_forall _ _) Hgs g Hg) as [Hne [Hfit|Hp]];
    [exfalso|exact Hp].
  destruct g as [|p g]; [congruence|].
  assert (Hp : clean p).
  { apply (proj1 (Forall_forall _ _) Hcl). apply in_concat.
    exists (p :: g). split; [exact Hg|now left]. }
  rewrite len_render_cons in Hfit.
  pose proof (len_render_nonneg g).
  destruct Hp as [(c & r & -> & _) _]. unfold Py.len in *.
  cbn [List.length] in Hfit. lia.
Qed.

Lemma small_size_one_paragraph_per_chunk_witness :
  let text := Py.lit "a" ++ Ingest.blank ++ Py.lit "b" in
  map Ingest.text
      (Ingest.split_text_into_chunks text (Py.lit "rubric") 0 100)
  = [Py.lit "a"; Py.lit "b"].
Proof.
  intros text.
  apply (@small_size_one_paragraph_per_chunk text (Py.lit "rubric") 0 100).
  lia.
Defined.

(** X5: a text of two paragraphs or more comes out as one chunk exactly
    when its paragraphs joined by blank lines, plus two characters, fit
    in [chunk_size]: two characters of the size are never used. *)
Theorem single_chunk_iff_all_fit (text source_name : str)
    (chunk_size chunk_overlap : Z) :
  let ps := Ingest.paragraphs text in
  (2 <= List.length ps)%nat ->
  Ingest.split_text_into_chunks text source_name chunk_size chunk_overlap
  = [chunk_of source_name ps]
  <-> (Py.len (Py.join Ingest.blank ps) + 2 <= chunk_size)%Z.
Proof.
  intros ps Hlen.
  destruct (chunks_tight_structure text source_name chunk_size
              chunk_overlap) as (gs & -> & Hcat & Hgs & Hmax).
  fold ps in Hcat.
  assert (Hps : ps <> []) by (destruct ps; [simpl in Hlen; lia|discriminate]).
  split.
  - intros H. destruct gs as [|g [|g2 gs]]; try discriminate.
    simpl in Hcat. rewrite app_nil_r in Hcat. subst g.
    inversion Hgs as [|? ? [_ Hfit] _]; subst.
    destruct Hfit as [Hfit|[p Hp]].
    + rewrite (len_render_join Hps) in Hfit. lia.
    + rewrite Hp in Hlen. simpl in Hlen. lia.
  - intros Hfit. destruct gs as [|g [|g2 gs]].
    + simpl in Hcat. congruence.
    + simpl in Hcat. rewrite app_nil_r in Hcat. now subst g.
    + exfalso.
      inversion Hgs as [|? ? [Hg _] Hgs']; subst.
      inversion Hgs' as [|? ? [Hg2 _] _]; subst.
      destruct g2 as [|p g2]; [congruence|].
      cbn [maximal] in Hmax. destruct Hmax as [Hmax _].
      rewrite <- (len_render_join Hps) in Hfit.
      rewrite <- Hcat in Hfit. cbn [List.concat] in Hfit.
      rewrite !len_render_app, len_render_cons in Hfit.
      rewrite (len_render_join Hg) in Hfit.
      pose proof (len_render_nonneg g2).
      pose proof (len_render_nonneg (List.concat gs)). lia.
Qed.

Lemma single_chunk_iff_all_fit_witness :
  let text := Py.lit "ab" ++ Ingest.blank ++ Py.lit "cd" in
  (Ingest.split_text_into_chunks text (Py.lit "rubric") 8 100
   = [chunk_of (Py.lit "rubric") [Py.lit "ab"; Py.lit "cd"]]
   <-> (6 + 2 <= 8)%Z)
  /\ (Ingest.split_text_into_chunks text (Py.lit "rubric") 7 100
      = [chunk_of (Py.lit "rubric") [Py.lit "ab"; Py.lit "cd"]]
      <-> (6 + 2 <= 7)%Z).
Proof.
  intros text. split.
  - apply (@single_chunk_iff_all_fit text (Py.lit "rubric") 8 100).
    vm_compute. lia.
  - apply (@single_chunk_iff_all_fit text (Py.lit "rubric") 7 100).
    vm_compute. lia.
Defined.

End ChunkerEdges.

(** ** The LLM client: any number of retries *)

Module RetryFacts.

Import Services LlmFacts.

Lemma pauses_app t u : pauses (t ++ u) = pauses t + pauses u.
Proof. unfold pauses. now rewrite filter_app, length_app. Qed.

Lemma failed_attempts_succ prompt delay k :
  failed_attempts prompt delay (S k)
  = [EvGenerate prompt; EvSleep delay] ++ failed_attempts prompt delay k.
Proof. reflexivity. Qed.


Lemma pauses_failed_attempts prompt delay k :
  pauses (failed_attempts prompt delay k) = k.
Proof.
  induction k as [|k IH]; [reflexivity|].
  rewrite failed_attempts_succ, pauses_app, IH. reflexivity.
Qed.



(** What any run of the loop adds to the log: calls on [prompt] and
    pauses of [delay], at most [remaining] calls, and fewer pauses than
    calls. *)
Lemma retry_loop_footprint g prompt retries delay :
  forall remaining attempt s,
    (Z.of_nat remaining = retries - attempt)%Z ->
    let s' := snd (retry_loop g prompt retries delay remaining attempt s) in
    db s' = db s
    /\ exists t,
         log s' = log s ++ t
         /\ Forall (fun ev => ev = EvGenerate prompt \/ ev = EvSleep delay) t
         /\ llm_calls t <= remaining
         /\ (1 <= remaining -> 1 <= llm_calls t)
         /\ pauses t <= llm_calls t - 1.
Proof.
  assert (One : forall s : state,
             db {| log := log s ++ [EvGenerate prompt]; db := db s |} = db s
             /\ exists t,
                  log {| log := log s ++ [EvGenerate prompt]; db := db s |}
                  = log s ++ t
                  /\ Forall (fun ev => ev = EvGenerate prompt
                                       \/ ev = EvSleep delay) t
                  /\ llm_calls t = 1 /\ pauses t = 0).
  { intros s. split; [reflexivity|]. exists [EvGenerate prompt].
    split; [reflexivity|]. split; [|split; reflexivity].
    constructor; [now left|constructor]. }
  induction remaining as [|k IH]; intros attempt s Hrem.
  - cbn. split; [reflexivity|]. exists []. rewrite app_nil_r.
    split; [reflexivity|]. split; [constructor|].
    cbn. repeat split; lia.
  - cbn zeta. rewrite retry_loop_step.
    destruct (g (llm_calls (log s)) prompt) as [e|text].
    + cbn zeta. destruct (attempt <? retries - 1)%Z eqn:Ea.
      * apply Z.ltb_lt in Ea. unfold bind, sleep.
        destruct (delay <? 0)%Z.
        -- cbn [raise snd fst].
           destruct (One s) as [Hdb (t & Ht & HF & Hc & Hp)].
           split; [exact Hdb|]. exists t. rewrite Hc, Hp.
           repeat split; auto; lia.
        -- cbn [emit raise snd fst log db].
           specialize (IH (attempt + 1)%Z
                          {| log := (log s ++ [EvGenerate prompt])
                                    ++ [EvSleep delay];
                             db := db s |}).
           cbn zeta in IH. cbn [log db] in IH.
           destruct IH as [Hdb (t & Ht & HF & Hc & Hone & Hp)]; [lia|].
           split; [exact Hdb|].
           exists ([EvGenerate prompt; EvSleep delay] ++ t).
           split; [rewrite Ht, <- !app_assoc; reflexivity|].
           split; [constructor; [now left|constructor; [now right|exact HF]]|].
           rewrite llm_calls_app, pauses_app.
           change (llm_calls [EvGenerate prompt; EvSleep delay]) with 1.
           change (pauses [EvGenerate prompt; EvSleep delay]) with 1.
           assert (1 <= llm_calls t) by (apply Hone; lia).
           repeat split; lia.
      * cbn [snd].
        destruct (One s) as [Hdb (t & Ht & HF & Hc & Hp)].
        split; [exact Hdb|]. exists t. rewrite Hc, Hp.
        repeat split; auto; lia.
    + cbn [snd].
      destruct (One s) as [Hdb (t & Ht & HF & Hc & Hp)].
      split; [exact Hdb|]. exists t. rewrite Hc, Hp.
      repeat split; auto; lia.
Qed.

End RetryFacts.

Module LlmRetry.

Import Services LlmFacts RetryFacts.





(** X8: whatever the service does and whatever [retries] and [delay]
    are, the client leaves the index alone and adds to the log only
    calls on its prompt and pauses of [delay], at most [retries] calls.
    Without a configured model, or with [retries <= 0], it adds nothing
    at all: no call and no pause.  Otherwise it makes at least one call
    and strictly fewer pauses than calls. *)
Theorem retry_budget_never_exceeded (W : World) (prompt : str)
    (retries delay : Z) (s : state) :
  let s' := snd (call_gemini_with_retry W prompt retries delay s) in
  db s' = db s
  /\ exists t,
       log s' = log s ++ t
       /\ Forall (fun ev => ev = EvGenerate prompt \/ ev = EvSleep delay) t
       /\ llm_calls t <= Z.to_nat retries
       /\ match llm_model W with
          | None => t = []
          | Some _ =>
              if (retries <=? 0)%Z then t = []
              else 1 <= llm_calls t /\ pauses t < llm_calls t
          end.
Proof.
  unfold call_gemini_with_retry. destruct (llm_model W) as [g|].
  - destruct (Z.leb_spec retries 0) as [Hr|Hr].
    + assert (E : Z.to_nat retries = 0) by lia. rewrite E.
      split; [reflexivity|]. exists []. rewrite app_nil_r.
      split; [reflexivity|]. split; [constructor|]. split; [|reflexivity].
      cbn. lia.
    + destruct (@retry_loop_footprint g prompt retries delay
                  (Z.to_nat retries) 0%Z s)
        as [Hdb (t & Ht & HF & Hc & Hone & Hp)]; [lia|].
      split; [exact Hdb|]. exists t.
      split; [exact Ht|]. split; [exact HF|]. split; [exact Hc|].
      assert (1 <= llm_calls t) by (apply Hone; lia). split; lia.
  - split; [reflexivity|]. exists []. rewrite app_nil_r.
    split; [reflexivity|]. split; [constructor|]. split; [|reflexivity].
    cbn. lia.
Qed.



End LlmRetry.

(** ** The pipeline: budget and outcomes *)

Module BudgetFacts.

Import Services Worker LlmFacts RetryFacts RetrievalFacts PipelineFacts.

Lemma count_app p t u : count p (t ++ u) = count p t + count p u.
Proof. unfold count. now rewrite filter_app, length_app. Qed.

Lemma spends_nil b : spends [] b.
Proof. unfold spends. cbn. repeat split; lia. Qed.

Lemma spends_app t u a b :
  spends t a -> spends u b -> spends (t ++ u) (both a b).
Proof.
  unfold spends. intros (A1 & A2 & A3 & A4 & A5) (B1 & B2 & B3 & B4 & B5).
  rewrite !count_app, llm_calls_app, pauses_app. cbn [both reads queries calls naps].
  repeat split; lia.
Qed.

Lemma spends_weaken t a b :
  spends t a ->
  reads a <= reads b -> queries a <= queries b -> calls a <= calls b ->
  naps a <= naps b ->
  spends t b.
Proof.
  unfold spends. intros (A1 & A2 & A3 & A4 & A5) ? ? ? ?.
  repeat split; lia.
Qed.

Lemma within_weaken a b {A} (m : M A) :
  within a m ->
  reads a <= reads b -> queries a <= queries b -> calls a <= calls b ->
  naps a <= naps b ->
  within b m.
Proof.
  intros H ? ? ? ? s. destruct (H s) as [Hdb (t & Ht & Hs)].
  split; [exact Hdb|]. exists t. split; [exact Ht|].
  now apply spends_weaken with (a := a).
Qed.

Lemma within_ret b {A} (a : A) : within b (ret a).
Proof.
  intros s. split; [reflexivity|]. exists []. cbn.
  rewrite app_nil_r. split; [reflexivity|apply spends_nil].
Qed.

Lemma within_raise b {A} (e : exn) : within b (@raise A e).
Proof.
  intros s. split; [reflexivity|]. exists []. cbn.
  rewrite app_nil_r. split; [reflexivity|apply spends_nil].
Qed.

Lemma within_lift b {A} (r : exn + A) : within b (lift r).
Proof.
  intros s. split; [reflexivity|]. exists []. cbn.
  rewrite app_nil_r. split; [reflexivity|apply spends_nil].
Qed.

(** Budgets add up along a sequence. *)
Lemma within_bind a b {A B} (m : M A) (k : A -> M B) :
  within a m -> (forall x, within b (k x)) ->
  within (both a b) (bind m k).
Proof.
  intros Hm Hk s. unfold bind.
  destruct (Hm s) as [Hdb (t & Ht & Hs)].
  destruct (m s) as [[e|x] s1]; cbn [snd] in *.
  - split; [exact Hdb|]. exists t. split; [exact Ht|].
    rewrite <- (app_nil_r t). apply spends_app; [exact Hs|apply spends_nil].
  - destruct (Hk x s1) as [Hdb' (t' & Ht' & Hs')].
    split; [congruence|]. exists (t ++ t').
    split; [rewrite Ht', Ht, app_assoc; reflexivity|].
    now apply spends_app.
Qed.

Lemma within_try_reraise b {A} (m : M A) :
  within b m -> within b (try_except m (fun e => raise e)).
Proof.
  intros Hm s. unfold try_except, raise.
  destruct (Hm s) as [Hdb (t & Ht & Hs)].
  destruct (m s) as [[e|x] s1]; cbn [snd] in *;
    (split; [exact Hdb|exists t; split; assumption]).
Qed.

Lemma within_parse_pdf W path : within one_read (parse_pdf W path).
Proof.
  intros s. rewrite parse_pdf_run. cbn [snd log db].
  split; [reflexivity|]. exists [EvReadPdf path].
  split; [reflexivity|]. unfold spends. cbn. repeat split; lia.
Qed.

Lemma within_query_rag W q sources n :
  within one_query (query_rag W q sources n).
Proof.
  intros s. unfold query_rag.
  destruct (collection_loaded W); cbn [negb].
  - unfold collection_query, bind, emit, get_state, ret, raise.
    assert (Q : spends [EvQuery q sources n] one_query).
    { unfold spends. cbn. repeat split; lia. }
    destruct (store_up W); cbn [log db snd].
    + match goal with
      | |- context [Chroma.documents ?r] =>
          destruct (Chroma.documents r) as [[|[|d0 ?] ?]|]
      end; cbn [snd log db];
        (split; [reflexivity|]; exists [EvQuery q sources n];
         split; [reflexivity|exact Q]).
    + split; [reflexivity|]. exists [EvQuery q sources n].
      split; [reflexivity|exact Q].
  - apply within_raise.
Qed.

Lemma within_call_gemini W prompt :
  within three_calls
    (call_gemini_with_retry W prompt default_retries default_delay).
Proof.
  intros s. unfold call_gemini_with_retry.
  destruct (llm_model W) as [g|]; [|apply within_raise].
  destruct (@retry_loop_footprint g prompt default_retries default_delay
              (Z.to_nat default_retries) 0%Z s)
    as [Hdb (t & Ht & HF & Hc & _ & Hp)]; [reflexivity|].
  split; [exact Hdb|]. exists t. split; [exact Ht|].
  assert (Hn : forall p : event -> bool,
             (forall prompt', p (EvGenerate prompt') = false) ->
             (forall d, p (EvSleep d) = false) ->
             count p t = 0).
  { intros p Hg Hs. clear - HF Hg Hs. unfold count.
    induction HF as [|ev t [->| ->] _ IH]; [reflexivity| |]; cbn [filter].
    - now rewrite Hg.
    - now rewrite Hs. }
  change (Z.to_nat default_retries) with 3 in Hc.
  unfold spends. cbn [three_calls reads queries calls naps].
  rewrite !Hn by reflexivity. repeat split; lia.
Qed.

Lemma within_invoke W prompt {T} (m : Pydantic.model T) :
  within three_calls (invoke W prompt m).
Proof.
  unfold invoke.
  apply within_weaken with (a := both three_calls nothing);
    [|cbn; lia..].
  apply within_bind; [apply within_call_gemini|].
  intros x. apply within_lift.
Qed.

(** The first call answers: one call, no pause. *)
Lemma call_first_answer W g prompt s text :
  llm_model W = Some g ->
  g (llm_calls (log s)) prompt = inr text ->
  call_gemini_with_retry W prompt default_retries default_delay s
  = (inr text, {| log := log s ++ [EvGenerate prompt]; db := db s |}).
Proof.
  intros HW Hg. unfold call_gemini_with_retry. rewrite HW.
  change (Z.to_nat default_retries) with 3.
  now apply retry_loop_success.
Qed.

Lemma invoke_first_answer W g prompt {T} (m : Pydantic.model T) s text :
  llm_model W = Some g ->
  g (llm_calls (log s)) prompt = inr text ->
  invoke W prompt m s
  = (parse_llm_json (coercions W) text m,
     {| log := log s ++ [EvGenerate prompt]; db := db s |}).
Proof.
  intros HW Hg. unfold invoke, bind.
  rewrite (call_first_answer _ _ _ HW Hg). unfold lift.
  now destruct (parse_llm_json (coercions W) text m).
Qed.

(** A stage whose call is answered at once: its two retrievals, one
    call, and the outcome of parsing the answer. *)
Lemma cv_stage_first_answer W g job_title cv_text s text :
  llm_model W = Some g ->
  collection_loaded W = true -> store_up W = true ->
  (forall p, g (llm_calls (log s)) p = inr text) ->
  exists jd_context cv_rubric_context,
    cv_stage W job_title cv_text s
    = (parse_llm_json (coercions W) text CvEvaluationOutput_model,
       {| log := log s
                 ++ [EvQuery (Py.lit "skills untuk " ++ job_title)
                       [Py.lit "job_description"] default_n_results;
                     EvQuery (Py.lit "rubrik penilaian cv")
                       [Py.lit "cv_rubric"] default_n_results;
                     EvGenerate (create_cv_prompt W cv_text jd_context
                                   cv_rubric_context)];
          db := db s |}).
Proof.
  intros HW HL HU Hg. unfold cv_stage.
  destruct (@query_rag_run W (Py.lit "skills untuk " ++ job_title)
              [Py.lit "job_description"] default_n_results s HL HU)
    as [jd Hjd].
  unfold bind at 1. rewrite Hjd.
  set (s1 := {| log := _; db := _ |}).
  destruct (@query_rag_run W (Py.lit "rubrik penilaian cv")
              [Py.lit "cv_rubric"] default_n_results s1 HL HU)
    as [ru Hru].
  unfold bind at 1. rewrite Hru.
  set (s2 := {| log := _; db := _ |}).
  assert (C : llm_calls (log s2) = llm_calls (log s)).
  { subst s2 s1. cbn [log]. rewrite !llm_calls_app. cbn. lia. }
  exists jd, ru.
  rewrite (@invoke_first_answer W g _ _ _ s2 text HW);
    [|rewrite C; apply Hg].
  subst s2 s1. cbn [log db]. rewrite <- !app_assoc. reflexivity.
Qed.

Lemma project_stage_first_answer W g report_text s text :
  llm_model W = Some g ->
  collection_loaded W = true -> store_up W = true ->
  (forall p, g (llm_calls (log s)) p = inr text) ->
  exists brief_context project_rubric_context,
    project_stage W report_text s
    = (parse_llm_json (coercions W) text ProjectEvaluationOutput_model,
       {| log := log s
                 ++ [EvQuery (Py.lit "persyaratan case study")
                       [Py.lit "case_study_brief"] default_n_results;
                     EvQuery (Py.lit "rubrik penilaian proyek")
                       [Py.lit "project_rubric"] default_n_results;
                     EvGenerate (create_project_prompt W report_text
                                   brief_context project_rubric_context)];
          db := db s |}).
Proof.
  intros HW HL HU Hg. unfold project_stage.
  destruct (@query_rag_run W (Py.lit "persyaratan case study")
              [Py.lit "case_study_brief"] default_n_results s HL HU)
    as [br Hbr].
  unfold bind at 1. rewrite Hbr.
  set (s1 := {| log := _; db := _ |}).
  destruct (@query_rag_run W (Py.lit "rubrik penilaian proyek")
              [Py.lit "project_rubric"] default_n_results s1 HL HU)
    as [ru Hru].
  unfold bind at 1. rewrite Hru.
  set (s2 := {| log := _; db := _ |}).
  assert (C : llm_calls (log s2) = llm_calls (log s)).
  { subst s2 s1. cbn [log]. rewrite !llm_calls_app. cbn. lia. }
  exists br, ru.
  rewrite (@invoke_first_answer W g _ _ _ s2 text HW);
    [|rewrite C; apply Hg].
  subst s2 s1. cbn [log db]. rewrite <- !app_assoc. reflexivity.
Qed.

Lemma extract_stage_run W cv_path report_path s cv_pages report_pages :
  pdf_reader W cv_path = inr cv_pages ->
  pdf_reader W report_path = inr report_pages ->
  extract_stage W cv_path report_path s
  = (inr (List.concat (map (fun page => page ++ blank) cv_pages),
          List.concat (map (fun page => page ++ blank) report_pages)),
     {| log := log s ++ [EvReadPdf cv_path; EvReadPdf report_path];
        db := db s |}).
Proof.
  intros Hcv Hrp. unfold extract_stage, bind, ret.
  rewrite !parse_pdf_run, Hcv. cbn [log db]. rewrite Hrp.
  now rewrite <- app_assoc.
Qed.

End BudgetFacts.

Module PipelineRuns.

Import Services Worker LlmFacts RetryFacts RetrievalFacts PipelineFacts
  BudgetFacts.

(** X10: whatever the collaborators do, a run of the evaluation task
    never writes to the index and makes at most two PDF reads, four
    retrievals, nine LLM calls and six pauses; it only adds to the log
    of calls. *)
Theorem run_task_budget (W : World)
    (job_id cv_path report_path job_title : str) (s : state) :
  let s' := snd (run_task W job_id cv_path report_path job_title s) in
  db s' = db s
  /\ exists t,
       log s' = log s ++ t
       /\ count is_read t <= 2
       /\ count is_query t <= 4
       /\ llm_calls t <= 9
       /\ pauses t <= 6
       /\ count is_upsert t = 0.
Proof.
  assert (H : within {| reads := 2; queries := 4; calls := 9; naps := 6 |}
                (evaluate_candidate_task W job_id cv_path report_path
                   job_title)).
  { unfold evaluate_candidate_task, run_real_evaluation_pipeline.
    do 2 apply within_try_reraise.
    set (b := three_calls).
    apply within_weaken
      with (a := both one_read (both one_read
                   (both one_query (both one_query (both b (both nothing
                   (both one_query (both one_query (both b (both nothing
                   (both b (both nothing nothing))))))))))));
      [|cbn; lia..].
    repeat (apply within_bind;
            [first [apply within_parse_pdf | apply within_query_rag
                   | apply within_call_gemini | apply within_lift]
            |intros ?]).
    apply within_ret. }
  cbn zeta. unfold run_task. specialize (H s).
  destruct (evaluate_candidate_task W job_id cv_path report_path job_title s)
    as [[e|r] s1]; exact H.
Qed.

(** X11: a PDF that cannot be read ends the task with the error of the
    reader.  When it is the CV, the report is not read; in both cases no
    retrieval and no LLM call is made. *)
Theorem unreadable_pdf_fails_task (W : World)
    (job_id cv_path report_path job_title : str) (s : state) :
  (forall e,
      pdf_reader W cv_path = inl e ->
      run_task W job_id cv_path report_path job_title s
      = (FAILURE e, {| log := log s ++ [EvReadPdf cv_path]; db := db s |}))
  /\ (forall cv_pages e,
         pdf_reader W cv_path = inr cv_pages ->
         pdf_reader W report_path = inl e ->
         run_task W job_id cv_path report_path job_title s
         = (FAILURE e,
            {| log := log s ++ [EvReadPdf cv_path; EvReadPdf report_path];
               db := db s |})).
Proof.
  split.
  - intros e He. rewrite run_task_stages.
    unfold extract_stage, bind. rewrite parse_pdf_run, He. reflexivity.
  - intros cv_pages e Hcv He. rewrite run_task_stages.
    unfold extract_stage, bind. rewrite !parse_pdf_run, Hcv.
    cbn [log db]. rewrite He, <- app_assoc. reflexivity.
Qed.

Lemma unreadable_pdf_fails_task_witness :
  let cv := Py.lit "cv.pdf" in
  let report := Py.lit "report.pdf" in
  let W := set_pdf_reader (Sample.world (Sample.flaky 0 Sample.full_answer))
             (unreadable cv) in
  run_task W (Py.lit "job-1") cv report (Py.lit "Backend Engineer")
    Sample.empty_state
  = (FAILURE (ServiceError (Py.lit "not a PDF")),
     {| log := [EvReadPdf cv]; db := [] |}).
Proof.
  intros cv report W.
  apply (proj1 (@unreadable_pdf_fails_task W (Py.lit "job-1") cv report
                  (Py.lit "Backend Engineer") Sample.empty_state)).
  reflexivity.
Defined.

(** X12: when the collection handle was not obtained at start-up, the
    task fails at its first retrieval with the error of [query_rag],
    after reading the two PDFs: the store is not queried and the LLM is
    not called. *)
Theorem missing_collection_fails_task (W : World)
    (job_id cv_path report_path job_title : str) (s : state)
    (cv_pages report_pages : list str) :
  pdf_reader W cv_path = inr cv_pages ->
  pdf_reader W report_path = inr report_pages ->
  collection_loaded W = false ->
  run_task W job_id cv_path report_path job_title s
  = (FAILURE (Exception (Py.lit "Koneksi ChromaDB tidak tersedia.")),
     {| log := log s ++ [EvReadPdf cv_path; EvReadPdf report_path];
        db := db s |}).
Proof.
  intros Hcv Hrp HL. rewrite run_task_stages.
  rewrite (extract_stage_run _ _ _ _ Hcv Hrp).
  unfold cv_stage, bind, query_rag. rewrite HL. reflexivity.
Qed.

Lemma missing_collection_fails_task_witness :
  let cv := Py.lit "cv.pdf" in
  let report := Py.lit "report.pdf" in
  let W := set_collection (Sample.world (Sample.flaky 0 Sample.full_answer))
             false true in
  run_task W (Py.lit "job-1") cv report (Py.lit "Backend Engineer")
    Sample.empty_state
  = (FAILURE (Exception (Py.lit "Koneksi ChromaDB tidak tersedia.")),
     {| log := [EvReadPdf cv; EvReadPdf report]; db := [] |}).
Proof.
  intros cv report W.
  apply (@missing_collection_fails_task W (Py.lit "job-1") cv report
           (Py.lit "Backend Engineer") Sample.empty_state
           [Py.lit "page of " ++ cv] [Py.lit "page of " ++ report]);
    reflexivity.
Defined.

(** X13: when the LLM model was not configured at start-up, the task
    fails with the error of the client, but only after the two PDFs were
    read and the two retrievals of the CV stage were made; no call to
    the LLM is made. *)
Theorem missing_model_fails_task (W : World)
    (job_id cv_path report_path job_title : str) (s : state)
    (cv_pages report_pages : list str) :
  pdf_reader W cv_path = inr cv_pages ->
  pdf_reader W report_path = inr report_pages ->
  collection_loaded W = true -> store_up W = true ->
  llm_model W = None ->
  run_task W job_id cv_path report_path job_title s
  = (FAILURE
       (Exception (Py.lit "Model LLM (Gemini) tidak terinisialisasi.")),
     {| log := log s
               ++ [EvReadPdf cv_path; EvReadPdf report_path;
                   EvQuery (Py.lit "skills untuk " ++ job_title)
                     [Py.lit "job_description"] default_n_results;
                   EvQuery (Py.lit "rubrik penilaian cv")
                     [Py.lit "cv_rubric"] default_n_results];
        db := db s |}).
Proof.
  intros Hcv Hrp HL HU HW. rewrite run_task_stages.
  rewrite (extract_stage_run _ _ _ _ Hcv Hrp).
  set (s0 := {| log := _; db := _ |}).
  unfold cv_stage.
  destruct (@query_rag_run W (Py.lit "skills untuk " ++ job_title)
              [Py.lit "job_description"] default_n_results s0 HL HU)
    as [jd Hjd].
  unfold bind at 1. rewrite Hjd.
  set (s1 := {| log := _; db := _ |}).
  destruct (@query_rag_run W (Py.lit "rubrik penilaian cv")
              [Py.lit "cv_rubric"] default_n_results s1 HL HU)
    as [ru Hru].
  unfold bind at 1. rewrite Hru.
  unfold invoke, bind, call_gemini_with_retry. rewrite HW.
  subst s1 s0. cbn [raise log db]. rewrite <- !app_assoc. reflexivity.
Qed.

Lemma missing_model_fails_task_witness :
  let cv := Py.lit "cv.pdf" in
  let report := Py.lit "report.pdf" in
  let title := Py.lit "Backend Engineer" in
  let W := set_llm_model (Sample.world (Sample.flaky 0 Sample.full_answer))
             None in
  run_task W (Py.lit "job-1") cv report title Sample.empty_state
  = (FAILURE
       (Exception (Py.lit "Model LLM (Gemini) tidak terinisialisasi.")),
     {| log := [EvReadPdf cv; EvReadPdf report;
                EvQuery (Py.lit "skills untuk " ++ title)
                  [Py.lit "job_description"] 5;
                EvQuery (Py.lit "rubrik penilaian cv")
                  [Py.lit "cv_rubric"] 5];
        db := [] |}).
Proof.
  intros cv report title W.
  apply (@missing_model_fails_task W (Py.lit "job-1") cv report title
           Sample.empty_state
           [Py.lit "page of " ++ cv] [Py.lit "page of " ++ report]);
    reflexivity.
Defined.

(** X14: an answer of the CV stage that [parse_llm_json] refuses ends
    the task with the error of the parser after one single LLM call: the
    call is not repeated and the project and summary stages do not
    run. *)
Theorem refused_answer_fails_task (W : World)
    (g : nat -> str -> exn + str)
    (job_id cv_path report_path job_title : str) (s : state)
    (cv_pages report_pages : list str) (answer : str) (e : exn) :
  pdf_reader W cv_path = inr cv_pages ->
  pdf_reader W report_path = inr report_pages ->
  collection_loaded W = true -> store_up W = true ->
  llm_model W = Some g ->
  (forall p, g (llm_calls (log s)) p = inr answer) ->
  parse_llm_json (coercions W) answer CvEvaluationOutput_model = inl e ->
  exists jd_context cv_rubric_context,
    run_task W job_id cv_path report_path job_title s
    = (FAILURE e,
       {| log := log s
                 ++ [EvReadPdf cv_path; EvReadPdf report_path;
                     EvQuery (Py.lit "skills untuk " ++ job_title)
                       [Py.lit "job_description"] default_n_results;
                     EvQuery (Py.lit "rubrik penilaian cv")
                       [Py.lit "cv_rubric"] default_n_results;
                     EvGenerate
                       (create_cv_prompt W
                          (List.concat
                             (map (fun page => page ++ blank) cv_pages))
                          jd_context cv_rubric_context)];
          db := db s |}).
Proof.
  intros Hcv Hrp HL HU HW Hg He. rewrite run_task_stages.
  rewrite (extract_stage_run _ _ _ _ Hcv Hrp).
  set (s0 := {| log := _; db := _ |}).
  assert (C : llm_calls (log s0) = llm_calls (log s)).
  { subst s0. cbn [log]. rewrite !llm_calls_app. cbn. lia. }
  destruct (@cv_stage_first_answer W g job_title
              (List.concat (map (fun page => page ++ blank) cv_pages))
              s0 answer HW HL HU) as (jd & ru & Hst);
    [intros p; rewrite C; apply Hg|].
  exists jd, ru. rewrite Hst, He. subst s0. cbn [log db].
  rewrite <- !app_assoc. reflexivity.
Qed.

Lemma refused_answer_fails_task_witness :
  let cv := Py.lit "cv.pdf" in
  let report := Py.lit "report.pdf" in
  let title := Py.lit "Backend Engineer" in
  let W := Sample.world (Sample.flaky 0 (Py.lit "not json")) in
  exists jd_context cv_rubric_context,
    run_task W (Py.lit "job-1") cv report title Sample.empty_state
    = (FAILURE
         (Exception
            (Py.lit "Invalid JSON response from LLM: Expecting value")),
       {| log := [EvReadPdf cv; EvReadPdf report;
                  EvQuery (Py.lit "skills untuk " ++ title)
                    [Py.lit "job_description"] 5;
                  EvQuery (Py.lit "rubrik penilaian cv")
                    [Py.lit "cv_rubric"] 5;
                  EvGenerate
                    (create_cv_prompt W
                       (List.concat
                          (map (fun page => page ++ blank)
                             [Py.lit "page of " ++ cv]))
                       jd_context cv_rubric_context)];
          db := [] |}).
Proof.
  intros cv report title W.
  apply (@refused_answer_fails_task W (Sample.flaky 0 (Py.lit "not json"))
           (Py.lit "job-1") cv report title Sample.empty_state
           [Py.lit "page of " ++ cv] [Py.lit "page of " ++ report]
           (Py.lit "not json")
           (Exception
              (Py.lit "Invalid JSON response from LLM: Expecting value")));
    reflexivity.
Defined.

(** X15: when each stage's first call is answered and the three answers
    are accepted, the task succeeds after exactly three LLM calls and
    four retrievals, with no pause; the result takes the rate and the
    feedback of the CV answer, the score and the feedback of the project
    answer and the summary of the third answer, and the summary prompt
    is built from the two accepted evaluations. *)
Theorem task_succeeds_on_first_answers (W : World)
    (g : nat -> str -> exn + str)
    (job_id cv_path report_path job_title : str) (s : state)
    (cv_pages report_pages : list str) (a1 a2 a3 : str)
    (cv_eval : CvEvaluationOutput) (project_eval : ProjectEvaluationOutput)
    (summary_eval : FinalSummaryOutput) :
  pdf_reader W cv_path = inr cv_pages ->
  pdf_reader W report_path = inr report_pages ->
  collection_loaded W = true -> store_up W = true ->
  llm_model W = Some g ->
  (forall p, g (llm_calls (log s)) p = inr a1) ->
  (forall p, g (llm_calls (log s) + 1) p = inr a2) ->
  (forall p, g (llm_calls (log s) + 2) p = inr a3) ->
  parse_llm_json (coercions W) a1 CvEvaluationOutput_model = inr cv_eval ->
  parse_llm_json (coercions W) a2 ProjectEvaluationOutput_model
  = inr project_eval ->
  parse_llm_json (coercions W) a3 FinalSummaryOutput_model
  = inr summary_eval ->
  exists jd_context cv_rubric_context brief_context project_rubric_context,
    run_task W job_id cv_path report_path job_title s
    = (SUCCESS
         {| Models.cv_match_rate := cv_match_rate cv_eval;
            Models.cv_feedback := cv_feedback cv_eval;
            Models.project_score := project_score project_eval;
            Models.project_feedback := project_feedback project_eval;
            Models.overall_summary := overall_summary summary_eval |},
       {| log := log s
                 ++ [EvReadPdf cv_path; EvReadPdf report_path;
                     EvQuery (Py.lit "skills untuk " ++ job_title)
                       [Py.lit "job_description"] default_n_results;
                     EvQuery (Py.lit "rubrik penilaian cv")
                       [Py.lit "cv_rubric"] default_n_results;
                     EvGenerate
                       (create_cv_prompt W
                          (List.concat
                             (map (fun page => page ++ blank) cv_pages))
                          jd_context cv_rubric_context);
                     EvQuery (Py.lit "persyaratan case study")
                       [Py.lit "case_study_brief"] default_n_results;
                     EvQuery (Py.lit "rubrik penilaian proyek")
                       [Py.lit "project_rubric"] default_n_results;
                     EvGenerate
                       (create_project_prompt W
                          (List.concat
                             (map (fun page => page ++ blank) report_pages))
                          brief_context project_rubric_context);
                     EvGenerate
                       (create_summary_prompt W cv_eval project_eval)];
          db := db s |}).
Proof.
  intros Hcv Hrp HL HU HW H1 H2 H3 P1 P2 P3. rewrite run_task_stages.
  rewrite (extract_stage_run _ _ _ _ Hcv Hrp).
  set (s0 := {| log := _; db := _ |}).
  assert (C0 : llm_calls (log s0) = llm_calls (log s)).
  { subst s0. cbn [log]. rewrite !llm_calls_app. cbn. lia. }
  destruct (@cv_stage_first_answer W g job_title
              (List.concat (map (fun page => page ++ blank) cv_pages))
              s0 a1 HW HL HU) as (jd & ru & Hst1);
    [intros p; rewrite C0; apply H1|].
  rewrite Hst1, P1.
  set (s1 := {| log := _; db := _ |}).
  assert (C1 : llm_calls (log s1) = llm_calls (log s) + 1).
  { subst s1. cbn [log]. rewrite llm_calls_app, C0. cbn. lia. }
  destruct (@project_stage_first_answer W g
              (List.concat (map (fun page => page ++ blank) report_pages))
              s1 a2 HW HL HU) as (br & pru & Hst2);
    [intros p; rewrite C1; apply H2|].
  rewrite Hst2, P2.
  set (s2 := {| log := _; db := _ |}).
  assert (C2 : llm_calls (log s2) = llm_calls (log s) + 2).
  { subst s2. cbn [log]. rewrite llm_calls_app, C1. cbn. lia. }
  unfold summary_stage.
  rewrite (@invoke_first_answer W g _ _ _ s2 a3 HW);
    [|rewrite C2; apply H3].
  rewrite P3. exists jd, ru, br, pru. unfold assemble.
  subst s2 s1 s0. cbn [log db]. rewrite <- !app_assoc. reflexivity.
Qed.

Lemma task_succeeds_on_first_answers_witness :
  let cv := Py.lit "cv.pdf" in
  let report := Py.lit "report.pdf" in
  let title := Py.lit "Backend Engineer" in
  let W := Sample.world (Sample.flaky 0 Sample.full_answer) in
  exists result final_state,
    run_task W (Py.lit "job-1") cv report title Sample.empty_state
    = (SUCCESS result, final_state)
    /\ Models.overall_summary result = Py.lit "hire"
    /\ llm_calls (log final_state) = 3
    /\ pauses (log final_state) = 0.
Proof.
  intros cv report title W.
  destruct (@task_succeeds_on_first_answers W
              (Sample.flaky 0 Sample.full_answer)
              (Py.lit "job-1") cv report title Sample.empty_state
              [Py.lit "page of " ++ cv] [Py.lit "page of " ++ report]
              Sample.full_answer Sample.full_answer Sample.full_answer
              {| cv_match_rate := Json.FDec false 8 (-1);
                 cv_feedback := Py.lit "ok" |}
              {| project_score := Json.FDec false 45 (-1);
                 project_feedback := Py.lit "fine" |}
              {| overall_summary := Py.lit "hire" |})
    as (jd & ru & br & pru & H);
    try reflexivity; try (vm_compute; reflexivity).
  eexists. eexists. split; [exact H|]. repeat split.
Defined.

End PipelineRuns.

(** ** Ingestion: identifiers, failures and what is touched *)

Module TextFacts.

Import PyFacts ChunkFacts SquashFacts PackFacts StoreFacts IngestFacts.

Lemma encodable_range c :
  (c < 55296 \/ (57343 < c /\ c < 1114112))%N -> encodable c = true.
Proof.
  intros H. unfold encodable, Bytes.encode_char.
  destruct (N.ltb_spec c 128); [reflexivity|].
  destruct (N.ltb_spec c 2048); [reflexivity|].
  destruct (N.leb_spec 55296 c); cbn [andb].
  - destruct (N.leb_spec c 57343); [lia|].
    destruct (N.ltb_spec c 65536); [reflexivity|].
    destruct (N.ltb_spec c 1114112); [reflexivity|lia].
  - destruct (N.ltb_spec c 65536); [reflexivity|lia].
Qed.

Lemma isspace_encodable c : Py.isspace c = true -> encodable c = true.
Proof.
  intros H. apply encodable_range. left. unfold Py.isspace in H.
  repeat match type of H with
         | (_ || _)%bool = true => apply orb_prop in H as [H|H]
         | (_ && _)%bool = true => apply andb_prop in H as [? H]
         end;
    repeat match goal with
           | X : (_ <=? _)%N = true |- _ => apply N.leb_le in X
           | X : (_ =? _)%N = true |- _ => apply N.eqb_eq in X
           end; lia.
Qed.

Lemma in_range_spec lo hi b :
  Bytes.in_range lo hi b = true <-> (lo <= b /\ b <= hi)%N.
Proof.
  unfold Bytes.in_range. rewrite andb_true_iff, !N.leb_le. reflexivity.
Qed.

Lemma push_inr c rest s :
  Bytes.push c rest = inr s ->
  exists s', s = c :: s' /\ rest = inr s'.
Proof.
  destruct rest as [e|s']; [discriminate|]. cbn. intros H.
  injection H as <-. now exists s'.
Qed.

(** A text that [decode] returns holds only code points that [encode]
    accepts. *)
Lemma decode_encodable n :
  forall b s,
    List.length b <= n ->
    Bytes.decode_utf8 b = inr s -> forallb encodable s = true.
Proof.
  induction n as [|n IH]; intros b s Hn H.
  - destruct b; [|simpl in Hn; lia]. injection H as <-. reflexivity.
  - destruct b as [|b0 r0]; [injection H as <-; reflexivity|].
    cbn [Bytes.decode_utf8] in H. simpl in Hn.
    destruct (N.ltb_spec b0 128) as [H0|H0].
    { apply push_inr in H as (s' & -> & H). cbn [forallb].
      rewrite (IH r0 s') by (auto; lia).
      rewrite encodable_range by lia. reflexivity. }
    destruct r0 as [|b1 r1]; [discriminate|]. simpl in Hn.
    destruct (Bytes.in_range 194 223 b0) eqn:E2.
    { apply in_range_spec in E2.
      destruct (Bytes.in_range 128 191 b1) eqn:E2'; [|discriminate].
      apply in_range_spec in E2'.
      apply push_inr in H as (s' & -> & H). cbn [forallb].
      rewrite (IH r1 s') by (auto; lia).
      rewrite encodable_range by lia. reflexivity. }
    destruct r1 as [|b2 r2]; [discriminate|]. simpl in Hn.
    destruct (Bytes.in_range 224 239 b0) eqn:E3.
    { apply in_range_spec in E3.
      match type of H with
      | (if ?c then _ else _) = _ => destruct c eqn:E3'; [|discriminate]
      end.
      apply andb_prop in E3' as [Ea Eb].
      apply in_range_spec in Ea, Eb.
      apply push_inr in H as (s' & -> & H). cbn [forallb].
      rewrite (IH r2 s') by (auto; lia).
      rewrite encodable_range; [reflexivity|].
      destruct (N.eqb_spec b0 224), (N.eqb_spec b0 237); lia. }
    destruct r2 as [|b3 r3]; [discriminate|]. simpl in Hn.
    match type of H with
    | (if ?c then _ else _) = _ => destruct c eqn:E4; [|discriminate]
    end.
    apply andb_prop in E4 as [E4 Ed]. apply andb_prop in E4 as [E4 Ec].
    apply andb_prop in E4 as [Ea Eb].
    apply in_range_spec in Ea, Eb, Ec, Ed.
    apply push_inr in H as (s' & -> & H). cbn [forallb].
    rewrite (IH r3 s') by (auto; lia).
    rewrite encodable_range; [reflexivity|].
    destruct (N.eqb_spec b0 240), (N.eqb_spec b0 244); lia.
Qed.

Lemma encode_utf8_cases s :
  match Bytes.encode_utf8 s with
  | inr _ => forallb encodable s = true
  | inl e =>
      forallb encodable s = false
      /\ e = UnicodeEncodeError (Py.lit "surrogates not allowed")
  end.
Proof.
  induction s as [|c r IH]; [reflexivity|].
  cbn [Bytes.encode_utf8 forallb].
  assert (Ec : encodable c
               = match Bytes.encode_char c with
                 | Some _ => true
                 | None => false
                 end) by reflexivity.
  destruct (Bytes.encode_char c); rewrite Ec; [|now split].
  destruct (Bytes.encode_utf8 r); cbn [andb]; exact IH.
Qed.

Lemma generate_document_id_encodable text :
  forallb encodable text = true ->
  exists i, Ingest.generate_document_id text = inr i.
Proof.
  intros H. unfold Ingest.generate_document_id.
  pose proof (encode_utf8_cases text) as C.
  destruct (Bytes.encode_utf8 text) as [e|b]; [|now eexists].
  destruct C as [C _]. congruence.
Qed.

(** The chunks and the text are the same once whitespace is left
    out. *)
Lemma squash_chunks text src cs ov :
  squash (List.concat
            (map Ingest.text (Ingest.split_text_into_chunks text src cs ov)))
  = squash text.
Proof.
  destruct (chunks_structure text src cs ov) as (gs & -> & Hcat & _).
  now rewrite chunk_texts, squash_concat_join, Hcat, squash_paragraphs.
Qed.

Lemma in_squash x s : In x s -> Py.isspace x = true \/ In x (squash s).
Proof.
  intros H. destruct (Py.isspace x) eqn:E; [now left|right].
  apply filter_In. split; [exact H|]. now rewrite E.
Qed.

Lemma squash_subset x s : In x (squash s) -> In x s.
Proof. intros H. now apply filter_In in H. Qed.

(** Every character of a chunk is whitespace or a character of the
    text. *)
Lemma chunk_chars text src cs ov c x :
  In c (Ingest.split_text_into_chunks text src cs ov) ->
  In x (Ingest.text c) ->
  Py.isspace x = true \/ In x text.
Proof.
  intros Hc Hx. destruct (in_squash _ _ Hx) as [H|H]; [now left|right].
  apply squash_subset with (s := text).
  rewrite <- (squash_chunks text src cs ov).
  apply filter_In. apply filter_In in H as [H1 H2]. split; [|exact H2].
  apply in_concat. exists (Ingest.text c). split; [|exact H1].
  now apply in_map.
Qed.

(** The ids of the chunks of a text that can be encoded. *)
Lemma chunk_ids_exist text src cs ov :
  forallb encodable text = true ->
  exists ids,
    Forall2 (fun chunk chunk_id =>
               Ingest.generate_document_id (Ingest.text chunk)
               = inr chunk_id)
      (Ingest.split_text_into_chunks text src cs ov) ids.
Proof.
  intros H.
  assert (A : forall c,
             In c (Ingest.split_text_into_chunks text src cs ov) ->
             exists i, Ingest.generate_document_id (Ingest.text c) = inr i).
  { intros c Hc. apply generate_document_id_encodable.
    apply forallb_forall. intros x Hx.
    destruct (chunk_chars _ _ _ _ _ _ Hc Hx) as [Hs|Hin].
    - now apply isspace_encodable.
    - exact (proj1 (forallb_forall _ _) H x Hin). }
  induction (Ingest.split_text_into_chunks text src cs ov) as [|c l IH].
  - exists []. constructor.
  - destruct (A c (or_introl eq_refl)) as [i Hi].
    destruct IH as [ids Hids]; [intros c' Hc'; apply A; now right|].
    exists (i :: ids). now constructor.
Qed.

Lemma blank_text_no_chunk text src cs ov :
  squash text = [] -> Ingest.split_text_into_chunks text src cs ov = [].
Proof.
  intros H. apply paragraphs_nil_iff in H.
  destruct (chunks_structure text src cs ov) as (gs & -> & Hcat & Hgs).
  rewrite H in Hcat. destruct gs as [|g gs]; [reflexivity|].
  inversion Hgs as [|? ? [Hne _] _]; subst.
  cbn [List.concat] in Hcat. apply app_eq_nil in Hcat as [Hg _]. congruence.
Qed.

Lemma chunk_source text src cs ov c :
  In c (Ingest.split_text_into_chunks text src cs ov) ->
  Ingest.source (Ingest.meta c) = src.
Proof.
  destruct (chunks_structure text src cs ov) as (gs & -> & _ & _).
  intros H. apply in_map_iff in H as (g & <- & _). reflexivity.
Qed.

Lemma hex_char_is_hex y : (y < 16)%N -> is_hex (Md5.hex_char y) = true.
Proof.
  intros H. unfold is_hex, Md5.hex_char.
  destruct (N.ltb_spec y 10).
  - replace (48 <=? 48 + y)%N with true by (symmetry; apply N.leb_le; lia).
    replace (48 + y <=? 57)%N with true by (symmetry; apply N.leb_le; lia).
    reflexivity.
  - replace (97 <=? 87 + y)%N with true by (symmetry; apply N.leb_le; lia).
    replace (87 + y <=? 102)%N with true by (symmetry; apply N.leb_le; lia).
    apply orb_true_r.
Qed.

Lemma le_bytes_length n x : List.length (Md5.le_bytes n x) = n.
Proof. unfold Md5.le_bytes. now rewrite length_map, length_seq. Qed.

Lemma le_bytes_small n x : Forall (fun b => (b < 256)%N) (Md5.le_bytes n x).
Proof.
  unfold Md5.le_bytes. apply Forall_forall. intros b Hb.
  apply in_map_iff in Hb as (i & <- & _). now apply N.mod_lt.
Qed.

Lemma digest_shape msg :
  List.length (Md5.digest msg) = 16
  /\ Forall (fun b => (b < 256)%N) (Md5.digest msg).
Proof.
  unfold Md5.digest.
  destruct (fold_left Md5.compress _ Md5.IV) as [[[a b] c] d].
  split.
  - rewrite !length_app, !le_bytes_length. reflexivity.
  - repeat (apply Forall_app; split); apply le_bytes_small.
Qed.

Lemma hex_of_bytes (l : Bytes.bytes) :
  Forall (fun b => (b < 256)%N) l ->
  let h := flat_map (fun x => [Md5.hex_char (x / 16);
                               Md5.hex_char (x mod 16)]%N) l in
  List.length h = 2 * List.length l /\ forallb is_hex h = true.
Proof.
  induction 1 as [|b l Hb _ IH]; [now split|].
  cbn zeta in *. destruct IH as [I1 I2].
  cbn [flat_map app List.length forallb].
  rewrite I1, I2, !hex_char_is_hex.
  - split; [lia|reflexivity].
  - now apply N.mod_lt.
  - apply N.Div0.div_lt_upper_bound. lia.
Qed.

Lemma hexdigest_shape msg :
  List.length (Md5.hexdigest msg) = 32
  /\ forallb is_hex (Md5.hexdigest msg) = true.
Proof.
  unfold Md5.hexdigest. destruct (digest_shape msg) as [Hl Hs].
  destruct (hex_of_bytes Hs) as [H1 H2]. rewrite Hl in H1.
  split; [exact H1|exact H2].
Qed.

End TextFacts.

Module IngestRuns.

Import Services PyFacts ChunkFacts StoreFacts IngestFacts TextFacts.

Local Abbreviation apply_batch :=
  (fold_left (fun acc e => Chroma.upsert_one e acc)).

Lemma read_content_error W file_bytes file_name s e s' :
  read_content W file_bytes file_name s = (inl e, s') ->
  exists e0, e = parse_failure e0.
Proof.
  unfold read_content, try_except, lift, raise, ret, parse_failure.
  destruct (Py.endswith file_name (Py.lit ".pdf")).
  - destruct (pdf_reader_bytes W file_bytes) as [e0|pages]; intros H;
      [|discriminate]. injection H as <- _. now exists e0.
  - destruct (Py.endswith file_name (Py.lit ".txt")).
    + destruct (Bytes.decode_utf8 file_bytes) as [e0|content]; intros H;
        [|discriminate]. injection H as <- _. now exists e0.
    + intros H. injection H as <- _.
      now exists (ValueError
                    (Py.lit "Tipe file tidak didukung. Hanya .pdf atau .txt")).
Qed.

Lemma collect_chunks_error chunks acc e :
  collect_chunks chunks acc = inl e ->
  e = UnicodeEncodeError (Py.lit "surrogates not allowed").
Proof.
  revert acc. induction chunks as [|c l IH]; intros [[a b] d] H.
  - discriminate.
  - cbn [collect_chunks] in H.
    unfold Ingest.generate_document_id in H.
    pose proof (encode_utf8_cases (Ingest.text c)) as C.
    destruct (Bytes.encode_utf8 (Ingest.text c)) as [e0|bs].
    + destruct C as [_ ->]. now injection H as <-.
    + now apply IH in H.
Qed.

Lemma read_text_file W file_bytes file_name s :
  Py.endswith file_name (Py.lit ".pdf") = false ->
  Py.endswith file_name (Py.lit ".txt") = true ->
  read_content W file_bytes file_name s
  = (match Bytes.decode_utf8 file_bytes with
     | inl e => inl (parse_failure e)
     | inr content => inr content
     end, s).
Proof.
  intros Hp Ht. unfold read_content, try_except, lift, raise.
  rewrite Hp, Ht. now destruct (Bytes.decode_utf8 file_bytes).
Qed.

(** The run of an ingestion once the text is read and the ids are
    computed. *)
Lemma ingest_document_run W file_bytes file_name source_name s content ids :
  read_content W file_bytes file_name s = (inr content, s) ->
  Forall2 (fun chunk chunk_id =>
             Ingest.generate_document_id (Ingest.text chunk) = inr chunk_id)
    (Ingest.split_text_into_chunks content source_name
       Ingest.default_chunk_size Ingest.default_chunk_overlap) ids ->
  _get_chroma_collection W = true -> store_up W = true ->
  let chunks := Ingest.split_text_into_chunks content source_name
                  Ingest.default_chunk_size Ingest.default_chunk_overlap in
  ingest_document W file_bytes file_name source_name s
  = (inr (ingested source_name (Py.len_list chunks)),
     {| log := log s ++ [EvUpsert ids];
        db := Chroma.upsert ids (map Ingest.text chunks)
                (map Ingest.meta chunks) (db s) |}).
Proof.
  intros R HF G U chunks. unfold ingest_document. unfold bind at 1.
  rewrite R. unfold bind at 1, lift at 1.
  rewrite (@collect_chunks_run _ _ [] [] [] HF). cbn [app].
  rewrite G. cbn [negb].
  unfold collection_upsert, bind, emit, get_state, set_db, ret. rewrite U.
  cbn [log db]. unfold ingested, Py.len_list. now rewrite length_map.
Qed.

Lemma keeps_other_entry x e c :
  In x c -> Chroma.id x <> Chroma.id e -> In x (Chroma.upsert_one e c).
Proof.
  intros Hx Hne. unfold Chroma.upsert_one.
  destruct (Chroma.has_id (Chroma.id e) c).
  - apply in_map_iff. exists x. split; [|exact Hx].
    destruct (Py.eqb (Chroma.id x) (Chroma.id e)) eqn:E; [|reflexivity].
    apply eqb_eq in E. congruence.
  - apply in_or_app. now left.
Qed.

Lemma batch_keeps_other_entry x batch c :
  In x c -> ~ In (Chroma.id x) (map Chroma.id batch) ->
  In x (apply_batch batch c).
Proof.
  revert c. induction batch as [|e batch IH]; intros c Hx Hn; [exact Hx|].
  cbn [fold_left]. apply IH.
  - apply keeps_other_entry; [exact Hx|]. intros E. apply Hn. left.
    now symmetry.
  - intros H. apply Hn. now right.
Qed.

Lemma upsert_one_length e c :
  List.length c <= List.length (Chroma.upsert_one e c)
  /\ List.length (Chroma.upsert_one e c) <= S (List.length c).
Proof.
  unfold Chroma.upsert_one. destruct (Chroma.has_id (Chroma.id e) c).
  - rewrite length_map. lia.
  - rewrite length_app. simpl. lia.
Qed.

Lemma batch_length batch c :
  List.length c <= List.length (apply_batch batch c)
  /\ List.length (apply_batch batch c)
     <= List.length c + List.length batch.
Proof.
  revert c. induction batch as [|e batch IH]; intros c.
  - simpl. lia.
  - cbn [fold_left List.length].
    pose proof (upsert_one_length e c).
    pose proof (IH (Chroma.upsert_one e c)). lia.
Qed.

Lemma zip3_length ids docs metas :
  List.length (Chroma.zip3 ids docs metas) <= List.length ids.
Proof.
  revert docs metas. induction ids as [|i ids IH]; intros docs metas.
  - reflexivity.
  - destruct docs as [|d docs]; [simpl; lia|].
    destruct metas as [|m metas]; [simpl; lia|].
    simpl. specialize (IH docs metas). lia.
Qed.

(** X16: the id of a chunk is always 32 lowercase hexadecimal digits,
    whatever the length of the text, and it is computed whenever the
    text holds no surrogate; a text with a surrogate makes
    [generate_document_id] raise [UnicodeEncodeError]. *)
Theorem generate_document_id_shape (text_chunk : str) :
  match Ingest.generate_document_id text_chunk with
  | inr chunk_id =>
      forallb encodable text_chunk = true
      /\ List.length chunk_id = 32
      /\ forallb is_hex chunk_id = true
  | inl e =>
      forallb encodable text_chunk = false
      /\ e = UnicodeEncodeError (Py.lit "surrogates not allowed")
  end.
Proof.
  unfold Ingest.generate_document_id.
  pose proof (encode_utf8_cases text_chunk) as C.
  destruct (Bytes.encode_utf8 text_chunk) as [e|b]; [exact C|].
  split; [exact C|]. apply hexdigest_shape.
Qed.

(** X17: a file whose name ends neither in [.pdf] nor in [.txt] (the
    test is case-sensitive) is refused with status 400 and the message
    of the source; nothing is sent to the store and the index is left as
    it is. *)
Theorem unsupported_file_type_refused (W : World)
    (file_bytes : Bytes.bytes) (file_name source_name : str) (s : state) :
  Py.endswith file_name (Py.lit ".pdf") = false ->
  Py.endswith file_name (Py.lit ".txt") = false ->
  ingest_document W file_bytes file_name source_name s
  = (inl (HTTPException 400
            (Py.lit "Gagal mem-parsing file: "
             ++ Py.lit "Tipe file tidak didukung. Hanya .pdf atau .txt")),
     s).
Proof.
  intros Hp Ht. unfold ingest_document. unfold bind at 1.
  unfold read_content, try_except, raise. rewrite Hp, Ht. reflexivity.
Qed.

Lemma unsupported_file_type_refused_witness :
  ingest_document (Sample.world (Sample.flaky 0 [])) Sample.notes
    (Py.lit "RUBRIC.TXT") (Py.lit "cv_rubric") Sample.other_state
  = (inl (HTTPException 400
            (Py.lit "Gagal mem-parsing file: "
             ++ Py.lit "Tipe file tidak didukung. Hanya .pdf atau .txt")),
     Sample.other_state).
Proof.
  apply (@unsupported_file_type_refused (Sample.world (Sample.flaky 0 []))
           Sample.notes (Py.lit "RUBRIC.TXT") (Py.lit "cv_rubric")
           Sample.other_state); reflexivity.
Defined.

(** X18: the outcomes of an ingestion.  A failure never changes the
    index, and it is one of four: the file could not be read (status
    400, nothing sent to the store), the id of a chunk could not be
    computed, no collection could be obtained (status 500, nothing sent
    to the store), or the store refused the upsert that was sent.  A
    success sends one upsert and reports the source name it was given
    and as many chunks as ids sent. *)
Theorem ingest_document_outcomes (W : World) (file_bytes : Bytes.bytes)
    (file_name sn : str) (s : state) :
  let '(outcome, s') := ingest_document W file_bytes file_name sn s in
  match outcome with
  | inr r =>
      exists ids,
        log s' = log s ++ [EvUpsert ids]
        /\ r = ingested sn (Py.len_list ids)
  | inl e =>
      db s' = db s
      /\ ((exists e0, e = parse_failure e0 /\ s' = s)
          \/ (e = UnicodeEncodeError (Py.lit "surrogates not allowed")
              /\ s' = s)
          \/ (e = HTTPException 500 (Py.lit "Database Chroma tidak tersedia")
              /\ s' = s)
          \/ (exists ids,
                 e = ServiceError (Py.lit "StoreUnavailable")
                 /\ log s' = log s ++ [EvUpsert ids]))
  end.
Proof.
  unfold ingest_document. unfold bind at 1.
  pose proof (read_content_state W file_bytes file_name s) as Hs.
  destruct (read_content W file_bytes file_name s) as [[e|content] s0] eqn:R;
    simpl in Hs; subst s0.
  - split; [reflexivity|]. left.
    destruct (read_content_error _ _ _ _ R) as [e0 ->]. now exists e0.
  - unfold bind at 1, lift at 1.
    destruct (collect_chunks _ _) as [e|[[texts metas] ids]] eqn:C.
    + split; [reflexivity|]. right. left.
      split; [now apply collect_chunks_error in C|reflexivity].
    + apply collect_chunks_inv in C.
      destruct C as (ids' & -> & -> & -> & HF). cbn [app].
      destruct (_get_chroma_collection W); cbn [negb].
      * unfold collection_upsert, bind, emit, get_state, set_db, ret, raise.
        destruct (store_up W); cbn [log db].
        -- exists ids'. split; [reflexivity|].
           unfold ingested, Py.len_list. rewrite length_map.
           now rewrite (Forall2_length HF).
        -- split; [reflexivity|]. right. right. right. now exists ids'.
      * split; [reflexivity|]. right. right. left. now split.
Qed.

(** The ids of the chunks, once each of them could be computed. *)
Lemma ids_of_chunks chunks ids :
  Forall2 (fun chunk chunk_id =>
             Ingest.generate_document_id (Ingest.text chunk) = inr chunk_id)
    chunks ids ->
  ids = map (fun chunk => id_of (Ingest.text chunk)) chunks.
Proof.
  induction 1 as [|chunk chunk_id chunks ids Hid HF IH]; [reflexivity|].
  cbn [map]. unfold id_of at 1. rewrite Hid. now rewrite IH.
Qed.

(** An ingestion whose text is read and whose ids are computed is the
    upsert of its chunks, whatever the store then answers. *)
Lemma ingest_document_sends W file_bytes file_name source_name s content ids :
  read_content W file_bytes file_name s = (inr content, s) ->
  Forall2 (fun chunk chunk_id =>
             Ingest.generate_document_id (Ingest.text chunk) = inr chunk_id)
    (Ingest.split_text_into_chunks content source_name
       Ingest.default_chunk_size Ingest.default_chunk_overlap) ids ->
  _get_chroma_collection W = true ->
  ingest_document W file_bytes file_name source_name s
  = send_chunks W
      (Ingest.split_text_into_chunks content source_name
         Ingest.default_chunk_size Ingest.default_chunk_overlap)
      source_name s.
Proof.
  intros R HF G. unfold ingest_document, send_chunks. unfold bind at 1.
  rewrite R. unfold bind at 1, lift at 1.
  rewrite (@collect_chunks_run _ _ [] [] [] HF). cbn [app].
  rewrite G. cbn [negb]. rewrite <- (ids_of_chunks HF).
  unfold bind.
  destruct (collection_upsert W _ _ ids s) as [[e|u] s1]; [reflexivity|].
  unfold ret, ingested, Py.len_list. now rewrite length_map.
Qed.

(** X19: a text file that holds only whitespace (or nothing) is not
    refused by the ingestion itself: its text is read, no chunk is
    made, and what is left is one upsert with no id, no document and no
    metadata, sent to the store, and the report of zero chunks if the
    store accepts it.  The index is left as it is whatever the store
    answers. *)
Theorem blank_text_file_upserts_nothing (W : World)
    (file_bytes : Bytes.bytes) (file_name source_name content : str)
    (s : state) :
  Py.endswith file_name (Py.lit ".pdf") = false ->
  Py.endswith file_name (Py.lit ".txt") = true ->
  Bytes.decode_utf8 file_bytes = inr content ->
  squash content = [] ->
  _get_chroma_collection W = true ->
  let run := ingest_document W file_bytes file_name source_name s in
  run = send_chunks W [] source_name s
  /\ log (snd run) = log s ++ [EvUpsert []]
  /\ db (snd run) = db s.
Proof.
  intros Hp Ht Hd Hb G run.
  assert (R : read_content W file_bytes file_name s = (inr content, s)).
  { rewrite (read_text_file _ _ _ _ Hp Ht), Hd. reflexivity. }
  pose proof (blank_text_no_chunk content source_name
                Ingest.default_chunk_size Ingest.default_chunk_overlap Hb)
    as E.
  assert (Hrun : run = send_chunks W [] source_name s).
  { unfold run.
    rewrite (@ingest_document_sends W file_bytes file_name source_name s
               content [] R); [now rewrite E| |exact G].
    rewrite E. constructor. }
  split; [exact Hrun|]. rewrite Hrun.
  unfold send_chunks, bind, collection_upsert, emit, get_state, set_db,
    ret, raise.
  cbn [map]. destruct (store_up W); split; reflexivity.
Qed.

Lemma blank_text_file_upserts_nothing_witness :
  let W := Sample.world (Sample.flaky 0 []) in
  let run := ingest_document W [32; 10; 10; 9]%N (Py.lit "empty.txt")
               (Py.lit "cv_rubric") Sample.other_state in
  run = send_chunks W [] (Py.lit "cv_rubric") Sample.other_state
  /\ log (snd run) = [EvUpsert []]
  /\ db (snd run) = db Sample.other_state.
Proof.
  apply (@blank_text_file_upserts_nothing
           (Sample.world (Sample.flaky 0 [])) [32; 10; 10; 9]%N
           (Py.lit "empty.txt") (Py.lit "cv_rubric") [32; 10; 10; 9]%N
           Sample.other_state); reflexivity.
Defined.

(** X20: for a [.txt] file, with the collection available, the
    ingestion is refused with status 400, the state untouched, exactly
    when the bytes are not valid UTF-8.  When they are valid the id of
    every chunk of the text can be computed, and the ingestion is one
    upsert of the texts of the chunks, their source and their ids,
    followed by the report of one chunk per chunk of the text if the
    store accepts the upsert: whether it does is the store's answer. *)
Theorem text_file_sent_iff_utf8 (W : World)
    (file_bytes : Bytes.bytes) (file_name source_name : str)
    (s : state) :
  Py.endswith file_name (Py.lit ".pdf") = false ->
  Py.endswith file_name (Py.lit ".txt") = true ->
  _get_chroma_collection W = true ->
  match Bytes.decode_utf8 file_bytes with
  | inr content =>
      let chunks := Ingest.split_text_into_chunks content source_name
                      Ingest.default_chunk_size
                      Ingest.default_chunk_overlap in
      Forall (fun chunk =>
                Ingest.generate_document_id (Ingest.text chunk)
                = inr (id_of (Ingest.text chunk))) chunks
      /\ ingest_document W file_bytes file_name source_name s
         = send_chunks W chunks source_name s
  | inl e =>
      ingest_document W file_bytes file_name source_name s
      = (inl (parse_failure e), s)
  end.
Proof.
  intros Hp Ht G.
  pose proof (@read_text_file W file_bytes file_name s Hp Ht) as R.
  destruct (Bytes.decode_utf8 file_bytes) as [e|content] eqn:D.
  - unfold ingest_document. unfold bind at 1. now rewrite R.
  - cbn zeta.
    destruct (@chunk_ids_exist content source_name
                Ingest.default_chunk_size Ingest.default_chunk_overlap)
      as [ids Hids].
    { now apply decode_encodable with (n := List.length file_bytes)
                                      (b := file_bytes). }
    split.
    + pose proof (ids_of_chunks Hids) as E. subst ids.
      clear - Hids. remember (Ingest.split_text_into_chunks _ _ _ _) as cs.
      clear Heqcs. induction cs as [|c cs IH]; [constructor|].
      inversion Hids; subst. constructor; [assumption|]. now apply IH.
    + now apply ingest_document_sends with (content := content) (ids := ids).
Qed.

Lemma text_file_sent_iff_utf8_witness :
  let W := Sample.world (Sample.flaky 0 []) in
  let text := Py.lit "first paragraph" ++ Ingest.blank
              ++ Py.lit "second paragraph" in
  (Ingest.generate_document_id text
   = inr (Py.lit "51a3aede2bebc9fa90428af43bd348dc")
   /\ ingest_document W Sample.notes (Py.lit "rubric.txt")
        (Py.lit "cv_rubric") Sample.empty_state
      = send_chunks W
          [{| Ingest.text := text;
              Ingest.meta := {| Ingest.source := Py.lit "cv_rubric" |} |}]
          (Py.lit "cv_rubric") Sample.empty_state)
  /\ ingest_document W [255%N] (Py.lit "rubric.txt") (Py.lit "cv_rubric")
       Sample.empty_state
     = (inl (parse_failure Bytes.decode_error), Sample.empty_state).
Proof.
  intros W text. split.
  - destruct (@text_file_sent_iff_utf8 W Sample.notes
                (Py.lit "rubric.txt") (Py.lit "cv_rubric")
                Sample.empty_state eq_refl eq_refl eq_refl)
      as [_ H].
    split; [vm_compute; reflexivity|exact H].
  - exact (@text_file_sent_iff_utf8 W [255%N]
             (Py.lit "rubric.txt") (Py.lit "cv_rubric")
             Sample.empty_state eq_refl eq_refl eq_refl).
Defined.

(** X21: an ingestion that succeeds touches only the entries stored
    under the ids of its chunks.  Every other entry of the index is
    still there, unchanged; every entry stored under one of its ids
    carries, afterwards, the source name of this ingestion (an entry
    with the same text that belonged to another source now belongs to
    this one); the index does not shrink and grows by at most the number
    of chunks. *)
Theorem ingestion_touches_only_its_ids (W : World)
    (file_bytes : Bytes.bytes) (file_name sn : str)
    (s s1 : state) (r : ingest_report) :
  ingest_document W file_bytes file_name sn s = (inr r, s1) ->
  exists ids,
    log s1 = log s ++ [EvUpsert ids]
    /\ (forall x, In x (db s) -> ~ In (Chroma.id x) ids -> In x (db s1))
    /\ (forall x,
           In x (db s1) -> In (Chroma.id x) ids ->
           Ingest.source (Chroma.metadata x) = sn)
    /\ (forall x, In x (db s1) -> ~ In (Chroma.id x) ids -> In x (db s))
    /\ List.length (db s) <= List.length (db s1)
    /\ List.length (db s1) <= List.length (db s) + List.length ids.
Proof.
  intros H.
  destruct (ingest_document_inv _ _ _ _ _ H)
    as (content & ids & R & HF & -> & _).
  cbn zeta in *. exists ids. cbn [log db].
  destruct (zip3_chunks HF) as [Hids Hin].
  unfold Chroma.upsert.
  set (batch := Chroma.zip3 ids _ _) in *.
  split; [reflexivity|]. split; [|split; [|split]].
  - intros x Hx Hn. apply batch_keeps_other_entry; [exact Hx|].
    now rewrite Hids.
  - intros x Hx Hi. apply in_batch in Hx.
    destruct Hx as [Hb|[_ Hall]].
    + destruct (Hin x Hb) as (chunk & Hc & _ & ->).
      cbn [stored_chunk Chroma.metadata].
      now apply chunk_source in Hc.
    + exfalso. rewrite <- Hids in Hi.
      apply in_map_iff in Hi as (e & He & Heb).
      specialize (Hall e Heb). rewrite <- He, eqb_refl in Hall.
      discriminate.
  - intros x Hx Hi. apply in_batch in Hx.
    destruct Hx as [Hb|[Hc _]]; [|exact Hc].
    exfalso. apply Hi. rewrite <- Hids. now apply in_map.
  - pose proof (batch_length batch (db s)) as [L1 L2].
    pose proof (zip3_length ids
                  (map Ingest.text
                     (Ingest.split_text_into_chunks content sn
                        Ingest.default_chunk_size
                        Ingest.default_chunk_overlap))
                  (map Ingest.meta
                     (Ingest.split_text_into_chunks content sn
                        Ingest.default_chunk_size
                        Ingest.default_chunk_overlap))) as L3.
    fold batch in L3. split; lia.
Qed.

Lemma ingestion_touches_only_its_ids_witness :
  let W := Sample.world (Sample.flaky 0 []) in
  exists r s1 ids,
    ingest_document W Sample.notes (Py.lit "rubric.txt")
      (Py.lit "cv_rubric") Sample.other_state = (inr r, s1)
    /\ log s1 = [EvUpsert ids]
    /\ In (Sample.entry "id0" "some text" "other_source") (db s1)
    /\ List.length (db s1) <= 1 + List.length ids.
Proof.
  intros W.
  eassert (E : ingest_document W Sample.notes (Py.lit "rubric.txt")
                 (Py.lit "cv_rubric") Sample.other_state = (inr _, _))
    by (vm_compute; reflexivity).
  destruct (@ingestion_touches_only_its_ids W Sample.notes
              (Py.lit "rubric.txt") (Py.lit "cv_rubric")
              Sample.other_state _ _ E)
    as (ids & H1 & H2 & _ & _ & _ & H4).
  eexists. eexists. exists ids. split; [exact E|].
  split; [exact H1|]. split; [|exact H4].
  apply H2; [now left|].
  intros Hin. clear - H1 Hin. vm_compute in H1.
  injection H1 as <-. vm_compute in Hin. destruct Hin as [Hin|[]].
  discriminate.
Defined.

End IngestRuns.

(** ** The listing of documents *)

Module CounterFacts.

Import Documents StoreFacts.

Lemma eqb_neq a b : Py.eqb a b = false <-> a <> b.
Proof.
  split.
  - intros H E. apply eqb_eq in E. congruence.
  - intros H. destruct (Py.eqb a b) eqn:E; [|reflexivity].
    apply eqb_eq in E. congruence.
Qed.

Lemma eqb_sym a b : Py.eqb a b = Py.eqb b a.
Proof.
  destruct (Py.eqb a b) eqn:E.
  - apply eqb_eq in E. subst. symmetry. apply eqb_refl.
  - apply eqb_neq in E. symmetry. apply eqb_neq. congruence.
Qed.

Lemma contains_keys d k : contains d k = true <-> In k (map fst d).
Proof.
  induction d as [|[k0 x] d IH]; simpl; [split; [discriminate|tauto]|].
  rewrite orb_true_iff, IH, eqb_eq. reflexivity.
Qed.

Lemma contains_getitem d k :
  contains d k = false <-> getitem d k = None.
Proof.
  induction d as [|[k0 x] d IH]; simpl; [tauto|].
  destruct (Py.eqb k0 k); simpl; [split; discriminate|exact IH].
Qed.

Lemma keys_setitem d k v :
  map fst (setitem d k v)
  = if contains d k then map fst d else map fst d ++ [k].
Proof.
  induction d as [|[k0 x] d IH]; [reflexivity|].
  simpl. destruct (Py.eqb k0 k) eqn:E; simpl; [reflexivity|].
  rewrite IH. now destruct (contains d k).
Qed.

Lemma getitem_setitem_same d k v : getitem (setitem d k v) k = Some v.
Proof.
  induction d as [|[k0 x] d IH]; simpl; [now rewrite eqb_refl|].
  destruct (Py.eqb k0 k) eqn:E; simpl; now rewrite E.
Qed.

Lemma getitem_setitem_other d k v k' :
  k <> k' -> getitem (setitem d k v) k' = getitem d k'.
Proof.
  intros Hne. induction d as [|[k0 x] d IH]; simpl.
  - apply eqb_neq in Hne. now rewrite Hne.
  - destruct (Py.eqb k0 k) eqn:E; simpl.
    + apply eqb_eq in E. subst k0.
      apply eqb_neq in Hne. now rewrite Hne.
    + destruct (Py.eqb k0 k'); [reflexivity|exact IH].
Qed.

Lemma total_setitem d k v :
  total (setitem d k v)
  = (total d - match getitem d k with Some n => n | None => 0 end + v)%Z.
Proof.
  unfold total. induction d as [|[k0 x] d IH]; simpl; [lia|].
  destruct (Py.eqb k0 k); simpl; [lia|]. rewrite IH. lia.
Qed.

Lemma occurrences_app k l m :
  occurrences k (l ++ m) = occurrences k l + occurrences k m.
Proof. unfold occurrences. now rewrite filter_app, length_app. Qed.

Lemma occurrences_one k k' :
  occurrences k [k'] = if Py.eqb k k' then 1 else 0.
Proof. unfold occurrences. simpl. now destruct (Py.eqb k k'). Qed.

Lemma occurrences_pos k l : In k l <-> 0 < occurrences k l.
Proof.
  unfold occurrences. induction l as [|x l IH]; simpl; [split; [tauto|lia]|].
  destruct (Py.eqb k x) eqn:E.
  - apply eqb_eq in E. subst. simpl. split; [lia|now left].
  - apply eqb_neq in E. rewrite <- IH. split; [|now right].
    intros [H|H]; [congruence|exact H].
Qed.

Lemma first_seen_app l k :
  first_seen (l ++ [k])
  = if existsb (Py.eqb k) (first_seen l) then first_seen l
    else first_seen l ++ [k].
Proof. unfold first_seen. now rewrite fold_left_app. Qed.

Lemma existsb_eqb_In k l : existsb (Py.eqb k) l = true <-> In k l.
Proof.
  rewrite existsb_exists. split.
  - intros (x & Hx & E). apply eqb_eq in E. now subst.
  - intros H. exists k. split; [exact H|apply eqb_refl].
Qed.

(** What the loop has built after the metadata of [l]: every name seen
    has its number of occurrences, in the order the names were first
    seen. *)
Lemma count_sources_inv (l : list mapping) :
  exists d,
    count_sources l = Some d
    /\ map fst d = first_seen (map source_of l)
    /\ NoDup (map fst d)
    /\ (forall k,
           getitem d k
           = if existsb (Py.eqb k) (map source_of l)
             then Some (Z.of_nat (occurrences k (map source_of l)))
             else None)
    /\ total d = Py.len_list l.
Proof.
  unfold count_sources.
  induction l as [|meta l IH] using rev_ind.
  - exists []. split; [reflexivity|]. split; [reflexivity|].
    split; [constructor|]. split; [intros k; reflexivity|reflexivity].
  - destruct IH as (d & Hd & Hk & Hn & Hg & Ht).
    rewrite fold_left_app, Hd. cbn [fold_left count_step].
    fold (source_of meta). set (name := source_of meta).
    rewrite map_app. cbn [map]. fold name.
    set (names := map source_of l) in *.
    assert (Hc : contains d name = existsb (Py.eqb name) names).
    { pose proof (Hg name) as Hgn.
      destruct (existsb (Py.eqb name) names);
        [|now apply contains_getitem].
      destruct (contains d name) eqn:Ec; [reflexivity|].
      apply contains_getitem in Ec. congruence. }
    set (d0 := if negb (contains d name) then setitem d name 0 else d).
    assert (G0 : getitem d0 name
                 = Some (Z.of_nat (occurrences name names))).
    { subst d0. destruct (contains d name) eqn:Ec; cbn [negb].
      - rewrite Hg, <- Hc. reflexivity.
      - rewrite getitem_setitem_same. f_equal.
        symmetry in Hc.
        assert (~ In name names).
        { intros Hin. apply existsb_eqb_In in Hin. congruence. }
        destruct (occurrences name names) eqn:Eo; [reflexivity|].
        exfalso. apply H. apply occurrences_pos. lia. }
    rewrite G0.
    exists (setitem d0 name (Z.of_nat (occurrences name names) + 1)).
    split; [reflexivity|].
    assert (K0 : map fst d0
                 = if contains d name then map fst d
                   else map fst d ++ [name]).
    { subst d0. destruct (contains d name) eqn:Ec; cbn [negb];
        [reflexivity|]. now rewrite keys_setitem, Ec. }
    assert (C0 : contains d0 name = true).
    { apply contains_keys. rewrite K0.
      destruct (contains d name) eqn:Ec.
      - now apply contains_keys.
      - apply in_or_app. right. now left. }
    assert (K1 : map fst (setitem d0 name
                            (Z.of_nat (occurrences name names) + 1))
                 = map fst d0).
    { now rewrite keys_setitem, C0. }
    split; [|split; [|split]].
    + rewrite K1, K0, first_seen_app, <- Hk.
      replace (existsb (Py.eqb name) (map fst d)) with (contains d name);
        [reflexivity|].
      destruct (contains d name) eqn:Ec; symmetry.
      * apply existsb_eqb_In. now apply contains_keys.
      * destruct (existsb (Py.eqb name) (map fst d)) eqn:Ex;
          [|reflexivity].
        apply existsb_eqb_In, contains_keys in Ex. congruence.
    + rewrite K1, K0. destruct (contains d name) eqn:Ec; [exact Hn|].
      apply NoDup_app; [exact Hn|repeat constructor; intros []|].
      intros k Hin [<-|[]]. apply contains_keys in Hin. congruence.
    + intros k. rewrite existsb_app, occurrences_app, occurrences_one.
      cbn [existsb]. rewrite orb_false_r.
      destruct (Py.eqb k name) eqn:E.
      * apply eqb_eq in E. subst k. rewrite getitem_setitem_same.
        rewrite orb_true_r. f_equal. lia.
      * apply eqb_neq in E.
        rewrite getitem_setitem_other by congruence.
        rewrite orb_false_r, Nat.add_0_r.
        subst d0. destruct (contains d name); cbn [negb];
          [apply Hg|].
        rewrite getitem_setitem_other by congruence. apply Hg.
    + rewrite total_setitem, G0.
      assert (T0 : total d0
                   = (total d + 0)%Z
                   /\ (contains d name = false ->
                       occurrences name names = 0)).
      { subst d0. destruct (contains d name) eqn:Ec; cbn [negb].
        - split; [lia|discriminate].
        - split.
          + rewrite total_setitem.
            apply contains_getitem in Ec. rewrite Ec. lia.
          + intros _. destruct (occurrences name names) eqn:Eo;
              [reflexivity|]. exfalso.
            assert (In name names) by (apply occurrences_pos; lia).
            apply existsb_eqb_In in H. congruence. }
      destruct T0 as [T0 _]. rewrite T0, Ht.
      unfold Py.len_list. rewrite length_app. simpl. lia.
Qed.

End CounterFacts.

Module ListingFacts.

Import Services Documents StoreFacts IngestFacts TextFacts IngestRuns
  CounterFacts.

Local Abbreviation apply_batch :=
  (fold_left (fun acc e => Chroma.upsert_one e acc)).

Lemma sources_of_metadatas c :
  map source_of (get_metadatas c) = sources_of c.
Proof.
  unfold get_metadatas, sources_of. rewrite map_map. apply map_ext.
  intros e. reflexivity.
Qed.

Lemma getitem_of_entry (d : counter) k n :
  NoDup (map fst d) -> In (k, n) d -> getitem d k = Some n.
Proof.
  induction d as [|[k0 x] d IH]; intros Hn Hin; [contradiction|].
  simpl in Hn. inversion Hn as [|? ? Hk Hn']; subst.
  destruct Hin as [E|Hin].
  - injection E as -> ->. simpl. now rewrite eqb_refl.
  - simpl. destruct (Py.eqb k0 k) eqn:E.
    + apply eqb_eq in E. subst k0. exfalso. apply Hk.
      apply in_map_iff. now exists (k, n).
    + now apply IH.
Qed.

(** The counts the loop returns. *)
Lemma count_sources_entries (l : list mapping) d :
  count_sources l = Some d ->
  Forall (fun kv =>
            snd kv = Z.of_nat (occurrences (fst kv) (map source_of l))
            /\ (0 < snd kv)%Z) d.
Proof.
  intros Hd. destruct (count_sources_inv l) as (d' & Hd' & _ & Hn & Hg & _).
  rewrite Hd in Hd'. injection Hd' as <-.
  apply Forall_forall. intros [k n] Hin. cbn [fst snd].
  pose proof (@getitem_of_entry d k n Hn Hin) as G. rewrite Hg in G.
  destruct (existsb (Py.eqb k) (map source_of l)) eqn:Ex; [|discriminate].
  injection G as <-. split; [reflexivity|].
  apply existsb_eqb_In, occurrences_pos in Ex. lia.
Qed.

(** The listing when the collection and the store answer. *)
Lemma listing_run W s :
  _get_chroma_collection W = true -> store_up W = true ->
  exists d,
    count_sources (get_metadatas (db s)) = Some d
    /\ list_ground_truth_documents W s = (inr (summaries d), s).
Proof.
  intros G U. destruct (count_sources_inv (get_metadatas (db s)))
    as (d & Hd & _). exists d. split; [exact Hd|].
  unfold list_ground_truth_documents. rewrite G. cbn [negb].
  unfold collection_get, bind, get_state, ret. rewrite U.
  destruct (get_metadatas (db s)) eqn:E.
  - cbn in Hd. now injection Hd as <-.
  - now rewrite Hd.
Qed.

Lemma first_seen_cons k l :
  first_seen (k :: l)
  = k :: filter (fun x => negb (Py.eqb x k)) (first_seen l).
Proof.
  induction l as [|x l IH] using rev_ind; [reflexivity|].
  rewrite app_comm_cons, !first_seen_app, IH. cbn [existsb].
  destruct (Py.eqb x k) eqn:E.
  - apply eqb_eq in E. subst x. cbn [orb].
    destruct (existsb (Py.eqb k) (first_seen l)); [reflexivity|].
    rewrite filter_app. cbn [filter]. rewrite eqb_refl. cbn [negb].
    now rewrite app_nil_r.
  - cbn [orb].
    replace (existsb (Py.eqb x)
               (filter (fun y => negb (Py.eqb y k)) (first_seen l)))
      with (existsb (Py.eqb x) (first_seen l)).
    + destruct (existsb (Py.eqb x) (first_seen l)); [reflexivity|].
      rewrite filter_app. cbn [filter]. rewrite E. reflexivity.
    + destruct (existsb (Py.eqb x) (first_seen l)) eqn:Ex; symmetry.
      * apply existsb_eqb_In. apply filter_In.
        split; [now apply existsb_eqb_In|]. now rewrite E.
      * destruct (existsb _ (filter _ _)) eqn:Ef; [|reflexivity].
        apply existsb_eqb_In, filter_In in Ef as [Ef _].
        apply existsb_eqb_In in Ef. congruence.
Qed.

Lemma first_seen_subset k l : In k (first_seen l) -> In k l.
Proof.
  induction l as [|x l IH] using rev_ind; [tauto|].
  rewrite first_seen_app.
  destruct (existsb (Py.eqb x) (first_seen l)); intros H.
  - apply in_or_app. left. now apply IH.
  - apply in_app_or in H as [H|H]; apply in_or_app; [left; now apply IH|].
    now right.
Qed.

(** Names that are all the same are seen once. *)
Lemma first_seen_same sn l :
  Forall (eq sn) l -> l <> [] -> first_seen l = [sn].
Proof.
  intros HF Hne. destruct l as [|x l]; [congruence|].
  inversion HF as [|? ? <- HF']; subst. rewrite first_seen_cons.
  f_equal. apply RetrievalFacts.filter_none. intros y Hy.
  apply first_seen_subset in Hy.
  rewrite <- (proj1 (Forall_forall _ _) HF' y Hy). now rewrite eqb_refl.
Qed.

Lemma occurrences_same sn l :
  Forall (eq sn) l -> occurrences sn l = List.length l.
Proof.
  unfold occurrences. induction 1 as [|x l <- _ IH]; [reflexivity|].
  simpl. rewrite eqb_refl. simpl. now rewrite IH.
Qed.

(** An ingestion that succeeds had a collection and a store. *)
Lemma ingest_needs_store W file_bytes file_name sn s r s1 :
  ingest_document W file_bytes file_name sn s = (inr r, s1) ->
  _get_chroma_collection W = true /\ store_up W = true.
Proof.
  unfold ingest_document. unfold bind at 1.
  destruct (read_content W file_bytes file_name s) as [[e|content] s0];
    [discriminate|].
  unfold bind at 1, lift at 1.
  destruct (collect_chunks _ _) as [e|[[texts metas] ids]];
    [discriminate|].
  destruct (_get_chroma_collection W); cbn [negb]; [|discriminate].
  unfold collection_upsert, bind, emit, get_state, set_db, ret, raise.
  destruct (store_up W); [now split|discriminate].
Qed.

Lemma zip3_nonempty i ids d docs m metas :
  Chroma.zip3 (i :: ids) (d :: docs) (m :: metas) <> [].
Proof. discriminate. Qed.

End ListingFacts.

Module Listing.

Import Services Documents StoreFacts IngestFacts TextFacts IngestRuns
  CounterFacts ListingFacts.

Local Abbreviation apply_batch :=
  (fold_left (fun acc e => Chroma.upsert_one e acc)).

(** X22: the counting loop never fails on a missing key, whatever the
    metadata are.  It returns one count per source name, the names in
    the order they were first met and each once; a metadata mapping
    without a [source] key is counted under [unknown]; each count is the
    number of mappings of that source, hence positive, and the counts
    add up to the number of mappings. *)
Theorem count_sources_counts (metadatas : list mapping) :
  let names := map source_of metadatas in
  exists sources,
    count_sources metadatas = Some sources
    /\ map fst sources = first_seen names
    /\ NoDup (map fst sources)
    /\ Forall (fun kv =>
                 snd kv = Z.of_nat (occurrences (fst kv) names)
                 /\ (0 < snd kv)%Z) sources
    /\ (forall name, In name names -> In name (map fst sources))
    /\ total sources = Py.len_list metadatas.
Proof.
  cbn zeta.
  destruct (count_sources_inv metadatas) as (d & Hd & Hk & Hn & Hg & Ht).
  exists d. split; [exact Hd|]. split; [exact Hk|]. split; [exact Hn|].
  split; [now apply count_sources_entries|]. split; [|exact Ht].
  intros name Hin. apply contains_keys.
  destruct (contains d name) eqn:Ec; [reflexivity|].
  apply contains_getitem in Ec. rewrite Hg in Ec.
  apply existsb_eqb_In in Hin. rewrite Hin in Ec. discriminate.
Qed.

(** X23: the listing of the ground-truth documents never changes the
    state.  When no collection can be obtained it returns the empty list
    and not an error; when the store does not answer the error of the
    store is raised; otherwise it returns one summary per source of the
    index, in the order the sources first appear, with the number of
    stored chunks of that source, and the counts add up to the size of
    the index. *)
Theorem list_ground_truth_documents_report (W : World) (s : state) :
  let '(outcome, s') := list_ground_truth_documents W s in
  s' = s
  /\ if _get_chroma_collection W
     then
       if store_up W
       then
         exists docs,
           outcome = inr docs
           /\ map source_name docs = first_seen (sources_of (db s))
           /\ Forall (fun d =>
                        chunk_count d
                        = Z.of_nat (occurrences (source_name d)
                                      (sources_of (db s)))
                        /\ (0 < chunk_count d)%Z) docs
           /\ fold_right Z.add 0%Z (map chunk_count docs)
              = Py.len_list (db s)
       else outcome = inl (ServiceError (Py.lit "StoreUnavailable"))
     else outcome = inr [].
Proof.
  destruct (_get_chroma_collection W) eqn:G.
  - destruct (store_up W) eqn:U.
    + destruct (listing_run W s G U) as (d & Hd & ->).
      split; [reflexivity|]. exists (summaries d).
      destruct (count_sources_inv (get_metadatas (db s)))
        as (d' & Hd' & Hk & _ & _ & Ht).
      rewrite Hd in Hd'. injection Hd' as <-.
      rewrite sources_of_metadatas in Hk.
      split; [reflexivity|]. unfold summaries. rewrite !map_map.
      cbn [source_name chunk_count]. split; [exact Hk|]. split.
      * pose proof (@count_sources_entries _ _ Hd) as HF.
        rewrite sources_of_metadatas in HF.
        apply Forall_forall. intros x Hx.
        apply in_map_iff in Hx as (kv & <- & Hkv).
        exact (proj1 (Forall_forall _ _) HF kv Hkv).
      * transitivity (total d); [reflexivity|]. rewrite Ht.
        unfold get_metadatas, Py.len_list. now rewrite length_map.
    + unfold list_ground_truth_documents. rewrite G. cbn [negb].
      unfold collection_get, bind, raise. rewrite U. now split.
  - unfold list_ground_truth_documents. rewrite G. now split.
Qed.

(** X24: after a first ingestion, into an empty index, the listing
    shows that document and nothing else: one summary under the source
    name of the ingestion, counting the entries of the index; the
    listing is empty exactly when the document had no chunk.  The count
    is at most the number of chunks reported (chunks with the same text
    share one entry). *)
Theorem listing_after_first_ingestion (W : World)
    (file_bytes : Bytes.bytes) (file_name sn : str)
    (s s1 : state) (r : ingest_report) :
  db s = [] ->
  ingest_document W file_bytes file_name sn s = (inr r, s1) ->
  list_ground_truth_documents W s1
  = (inr (match db s1 with
          | [] => []
          | _ :: _ =>
              [{| source_name := sn;
                  chunk_count := Py.len_list (db s1) |}]
          end), s1)
  /\ (db s1 = [] <-> chunks_added r = 0%Z)
  /\ (Py.len_list (db s1) <= chunks_added r)%Z.
Proof.
  intros Hempty H.
  destruct (@ingest_needs_store _ _ _ _ _ _ _ H) as [G U].
  destruct (ingest_document_inv _ _ _ _ _ H)
    as (content & ids & R & HF & Hs1 & _).
  cbn zeta in *.
  pose proof (@ingest_document_run W file_bytes file_name sn s content ids
                R HF G U) as Run.
  cbn zeta in Run. rewrite H in Run. injection Run as -> _.
  remember (Ingest.split_text_into_chunks content sn
              Ingest.default_chunk_size Ingest.default_chunk_overlap)
    as chunks eqn:Echunks.
  destruct (zip3_chunks HF) as [Hids Hin].
  remember (Chroma.zip3 ids (map Ingest.text chunks)
              (map Ingest.meta chunks)) as batch eqn:Ebatch.
  assert (Db : db s1 = apply_batch batch []).
  { rewrite Hs1, Ebatch. cbn [db]. rewrite Hempty. reflexivity. }
  assert (Src : Forall (eq sn) (sources_of (db s1))).
  { apply Forall_forall. intros x Hx. unfold sources_of in Hx.
    apply in_map_iff in Hx as (e & <- & He). rewrite Db in He.
    apply in_batch in He. destruct He as [He|[[] _]].
    destruct (Hin e He) as (chunk & Hc & _ & ->).
    cbn [stored_chunk Chroma.metadata]. symmetry.
    rewrite Echunks in Hc. now apply chunk_source in Hc. }
  assert (Len : (Py.len_list (db s1) <= Py.len_list chunks)%Z).
  { pose proof (batch_length batch []) as [_ L].
    pose proof (zip3_length ids (map Ingest.text chunks)
                  (map Ingest.meta chunks)) as L'. rewrite <- Ebatch in L'.
    pose proof (Forall2_length HF) as L''.
    rewrite Db. unfold Py.len_list. simpl in L. lia. }
  assert (Nil : db s1 = [] <-> chunks = []).
  { clear Echunks Hin Hids Src Len. split.
    - intros E. destruct chunks as [|c l]; [reflexivity|].
      exfalso. inversion HF as [|? i ? ids' _ _]; subst ids.
      cbn [map Chroma.zip3] in Ebatch.
      assert (Hb : In {| Chroma.id := i; Chroma.document := Ingest.text c;
                        Chroma.metadata := Ingest.meta c |} batch).
      { rewrite Ebatch. now left. }
      pose proof (batch_has_ids batch [] _ Hb) as Hh.
      rewrite <- Db, E in Hh. discriminate.
    - intros E. rewrite Db, Ebatch, E. inversion HF; subst; try discriminate.
      reflexivity. }
  split; [|split].
  - destruct (listing_run W s1 G U) as (d & Hd & ->). f_equal. f_equal.
    destruct (count_sources_inv (get_metadatas (db s1)))
      as (d' & Hd' & Hk & _ & Hg & _).
    rewrite Hd in Hd'. injection Hd' as <-.
    rewrite sources_of_metadatas in Hk, Hg.
    destruct (db s1) as [|x c] eqn:E.
    + cbn in Hd. now injection Hd as <-.
    + rewrite <- E in *.
      assert (Hne : sources_of (db s1) <> []) by (rewrite E; discriminate).
      rewrite (first_seen_same Src Hne) in Hk.
      destruct d as [|[k n] [|? ?]]; try discriminate.
      cbn in Hk. injection Hk as ->.
      specialize (Hg sn). cbn [getitem] in Hg. rewrite eqb_refl in Hg.
      replace (existsb (Py.eqb sn) (sources_of (db s1))) with true in Hg.
      * injection Hg as ->. rewrite (occurrences_same Src).
        unfold sources_of, Py.len_list. rewrite length_map. reflexivity.
      * symmetry. apply existsb_eqb_In.
        destruct (sources_of (db s1)) as [|y l] eqn:Ey; [congruence|].
        inversion Src; subst. now left.
  - rewrite Nil. cbn [ingested chunks_added]. unfold Py.len_list.
    destruct chunks; [tauto|]. split; [discriminate|simpl; lia].
  - exact Len.
Qed.

Lemma listing_after_first_ingestion_witness :
  let W := Sample.world (Sample.flaky 0 []) in
  exists r s1,
    ingest_document W Sample.notes (Py.lit "rubric.txt")
      (Py.lit "cv_rubric") Sample.empty_state = (inr r, s1)
    /\ list_ground_truth_documents W s1
       = (inr [{| source_name := Py.lit "cv_rubric"; chunk_count := 1 |}],
          s1).
Proof.
  intros W.
  eassert (E : ingest_document W Sample.notes (Py.lit "rubric.txt")
                 (Py.lit "cv_rubric") Sample.empty_state = (inr _, _))
    by (vm_compute; reflexivity).
  destruct (@listing_after_first_ingestion W Sample.notes
              (Py.lit "rubric.txt") (Py.lit "cv_rubric")
              Sample.empty_state _ _ eq_refl E) as [H _].
  eexists. eexists. split; [exact E|]. exact H.
Defined.

End Listing.

(** ** The endpoints of app/main.py *)

Module EndpointFacts.

Import Services Main StoreFacts IngestFacts IngestRuns.

Lemma lookup_store_same d k v : lookup (store d k v) k = Some v.
Proof.
  induction d as [|[k0 x] d IH]; simpl.
  - now rewrite eqb_refl.
  - destruct (Py.eqb k0 k) eqn:E; simpl; rewrite E; [reflexivity|exact IH].
Qed.

Lemma lookup_store_other d k v k' :
  k <> k' -> lookup (store d k v) k' = lookup d k'.
Proof.
  intros N. induction d as [|[k0 x] d IH]; simpl.
  - destruct (Py.eqb k k') eqn:E; [|reflexivity].
    apply eqb_eq in E. contradiction.
  - destruct (Py.eqb k0 k) eqn:E; simpl.
    + apply eqb_eq in E. subst k0.
      destruct (Py.eqb k k') eqn:E'; [|reflexivity].
      apply eqb_eq in E'. contradiction.
    + now rewrite IH.
Qed.

(** What an ingestion leaves: one upsert on success, the index as it
    was on failure. *)
Lemma ingest_document_cases W file_bytes file_name sn s :
  let '(outcome, s') := ingest_document W file_bytes file_name sn s in
  match outcome with
  | inr r =>
      exists ids,
        log s' = log s ++ [EvUpsert ids]
        /\ r = ingested sn (Py.len_list ids)
  | inl e => db s' = db s
  end.
Proof.
  unfold ingest_document. unfold bind at 1.
  pose proof (read_content_state W file_bytes file_name s) as Hs.
  destruct (read_content W file_bytes file_name s) as [[e|content] s0] eqn:R;
    simpl in Hs; subst s0; [reflexivity|].
  unfold bind at 1, lift at 1.
  destruct (collect_chunks _ _) as [e|[[texts metas] ids]] eqn:C;
    [reflexivity|].
  apply collect_chunks_inv in C.
  destruct C as (ids' & -> & -> & -> & HF). cbn [app].
  destruct (_get_chroma_collection W); cbn [negb]; [|reflexivity].
  unfold collection_upsert, bind, emit, get_state, set_db, ret, raise.
  destruct (store_up W); cbn [log db]; [|reflexivity].
  exists ids'. split; [reflexivity|].
  unfold ingested, Py.len_list. rewrite length_map.
  now rewrite (Forall2_length HF).
Qed.

End EndpointFacts.

Module Endpoints.

Import Services Main StoreFacts EndpointFacts.

(** X25: the mapping the worker's task returns for a result is read
    back by [GET /result/{id}] as that result: for a task recorded as
    [SUCCESS] with [model_dump] of [r], the endpoint answers
    [completed] with [r] itself, whatever the numbers and texts of [r]
    and whatever conversions the validation library makes. *)
Theorem completed_result_round_trip (co : Pydantic.coercions) (id : str)
    (r : Models.EvaluationResultData) (e : exn) :
  get_evaluation_result co id
    {| status := Py.lit "SUCCESS";
       result := Json.JDict (model_dump r);
       info := e |}
  = inr (JobStatusCompleted id r).
Proof.
  destruct r as [rate feedback score project summary].
  unfold get_evaluation_result, model_dump.
  cbn [status result Py.eqb Py.lit].
  reflexivity.
Qed.

(** X26: what [/upload] registers is what [/evaluate] finds.  When both
    files are declared as PDF, both can be written, the two identifiers
    drawn differ and the queue accepts the task, the upload answers with
    the two identifiers and writes each file's bytes under its path,
    and an evaluation asked for these two identifiers submits exactly
    one task, on these two paths and the given job title, and answers
    [queued] with the id the queue gave. *)
Theorem evaluate_after_upload (E : Env) (cv project_report : UploadFile)
    (title task_id : str) (st : api_state) :
  let a := uuid4 E (drawn st) in
  let b := uuid4 E (S (drawn st)) in
  is_pdf cv = true -> is_pdf project_report = true ->
  open_write E (cv_file a) = None ->
  open_write E (report_file b) = None ->
  a <> b ->
  delay E (List.length (queue st)) (cv_file a) (report_file b) title
  = inr task_id ->
  exists st1,
    upload_files E cv project_report st = (inr (uploaded a b), st1)
    /\ disk st1
       = disk st ++ [(cv_file a, content cv);
                     (report_file b, content project_report)]
    /\ evaluate_candidate E
         {| job_title := title; request_cv_id := a;
            request_project_report_id := b |} st1
       = (inr (JobStatusQueued task_id),
          {| file_database := file_database st1;
             disk := disk st1;
             queue := queue st ++ [(cv_file a, report_file b, title)];
             drawn := drawn st1 |}).
Proof.
  intros a b Hcv Hrep Wa Wb Nab D.
  unfold upload_files. rewrite Hcv, Hrep. cbn [negb orb].
  unfold catch, andthen, new_uuid, write_file, register, pure.
  cbn [file_database disk queue drawn].
  fold a b. fold (cv_file a) (report_file b). rewrite Wa, Wb.
  eexists. split; [reflexivity|].
  cbn [file_database disk queue drawn]. split.
  - now rewrite <- app_assoc.
  - unfold evaluate_candidate. cbn [file_database request_cv_id
      request_project_report_id job_title].
    rewrite lookup_store_same.
    rewrite lookup_store_other by (intros Eq; apply Nab; now symmetry).
    rewrite lookup_store_same.
    unfold andthen, submit, pure. cbn [file_database disk queue drawn path].
    rewrite D. reflexivity.
Qed.

Lemma evaluate_after_upload_witness :
  exists st1,
    upload_files sample_env (pdf_upload [1%N]) (pdf_upload [2%N]) fresh_api
    = (inr (uploaded (Py.lit "id-") (Py.lit "id-1")), st1)
    /\ disk st1
       = [(Py.lit "uploads/id-_cv.pdf", [1%N]);
          (Py.lit "uploads/id-1_project.pdf", [2%N])]
    /\ evaluate_candidate sample_env
         {| job_title := Py.lit "Backend Developer";
            request_cv_id := Py.lit "id-";
            request_project_report_id := Py.lit "id-1" |} st1
       = (inr (JobStatusQueued (Py.lit "task-")),
          {| file_database := file_database st1;
             disk := disk st1;
             queue := [(Py.lit "uploads/id-_cv.pdf",
                        Py.lit "uploads/id-1_project.pdf",
                        Py.lit "Backend Developer")];
             drawn := drawn st1 |}).
Proof.
  refine (@evaluate_after_upload sample_env (pdf_upload [1%N])
            (pdf_upload [2%N]) (Py.lit "Backend Developer")
            (Py.lit "task-") fresh_api eq_refl eq_refl eq_refl eq_refl _
            eq_refl).
  discriminate.
Defined.

(** X27: [/evaluate] looks both identifiers up before it submits
    anything.  An unknown CV id is answered 404 with the CV message,
    else an unknown report id is answered 404 with the report message,
    and nothing is submitted in either case; with both ids known, one
    task is submitted on the two registered paths, unless the queue
    refuses it.  The endpoint never changes the registry of uploaded
    files nor the files written. *)
Theorem evaluate_candidate_outcomes (E : Env) (request : EvaluateRequest)
    (st : api_state) :
  let '(outcome, st') := evaluate_candidate E request st in
  file_database st' = file_database st
  /\ disk st' = disk st
  /\ match lookup (file_database st) (request_cv_id request),
           lookup (file_database st) (request_project_report_id request)
     with
     | None, _ =>
         outcome = inl (unknown_cv (request_cv_id request)) /\ st' = st
     | Some _, None =>
         outcome
         = inl (unknown_report (request_project_report_id request))
         /\ st' = st
     | Some cv_entry, Some report_entry =>
         match delay E (List.length (queue st)) (path cv_entry)
                 (path report_entry) (job_title request)
         with
         | inl e => outcome = inl e /\ st' = st
         | inr task_id =>
             outcome = inr (JobStatusQueued task_id)
             /\ queue st'
                = queue st ++ [(path cv_entry, path report_entry,
                                job_title request)]
         end
     end.
Proof.
  unfold evaluate_candidate.
  destruct (lookup (file_database st) (request_cv_id request))
    as [cv_entry|]; [|now repeat split].
  destruct (lookup (file_database st) (request_project_report_id request))
    as [report_entry|]; [|now repeat split].
  unfold andthen, submit, pure.
  destruct (delay E _ _ _ _) as [e|task_id]; now repeat split.
Qed.

(** X28: [POST /documents] answers 201 with the report of the
    ingestion, after exactly one upsert, or fails with an HTTP error
    and leaves the index as it was.  A missing or empty file name is
    refused with status 400 before anything is read; an HTTP error of
    the ingestion passes as it is and every other exception becomes
    status 500, so that nothing but an HTTP error leaves the
    endpoint. *)
Theorem upload_document_outcomes (W : World) (file : UploadFile)
    (source_name : str) (s : state) :
  let '(outcome, s') := upload_document W file source_name s in
  match outcome with
  | inr (code, report) =>
      code = 201%Z
      /\ (exists name, filename file = Some name /\ name <> [])
      /\ exists ids,
           log s' = log s ++ [EvUpsert ids]
           /\ report = ingested source_name (Py.len_list ids)
  | inl e =>
      db s' = db s
      /\ (exists code, http_status e = Some code)
      /\ (Py.truthy (match filename file with
                     | Some name => name
                     | None => []
                     end) = false ->
          e = HTTPException 400 (Py.lit "Nama file tidak ditemukan")
          /\ s' = s)
  end.
Proof.
  unfold upload_document.
  destruct (filename file) as [[|c name]|].
  - unfold raise. split; [reflexivity|]. split; [now eexists|].
    intros _. now split.
  - unfold try_except, bind.
    pose proof (@ingest_document_cases W (content file) (c :: name)
                  source_name s) as H.
    destruct (ingest_document W (content file) (c :: name) source_name s)
      as [[e|report] s'].
    + destruct e; unfold raise; cbn [fst snd];
        (split; [exact H|]); (split; [now eexists|]); discriminate.
    + unfold ret. split; [reflexivity|].
      split; [exists (c :: name); split; [reflexivity|discriminate]|].
      exact H.
  - unfold raise. split; [reflexivity|]. split; [now eexists|].
    intros _. now split.
Qed.

End Endpoints.

(** ** The ingestion script *)

Module ScriptFacts.

Import Services Script StoreFacts IngestFacts TextFacts IngestRuns.

Lemma collect_documents_error docs acc e :
  collect_documents docs acc = inl e ->
  e = UnicodeEncodeError (Py.lit "surrogates not allowed").
Proof.
  revert acc. induction docs as [|doc docs IH]; intros acc H.
  - discriminate.
  - cbn [collect_documents] in H.
    destruct (collect_chunks _ acc) as [e0|acc'] eqn:C.
    + injection H as <-. now apply collect_chunks_error in C.
    + now apply IH in H.
Qed.

(** The three lists grow together. *)
Lemma collect_documents_lengths docs texts0 metas0 ids0 texts metas ids :
  collect_documents docs (texts0, metas0, ids0) = inr (texts, metas, ids) ->
  List.length texts0 = List.length ids0 ->
  List.length texts = List.length ids.
Proof.
  revert texts0 metas0 ids0.
  induction docs as [|doc docs IH]; intros texts0 metas0 ids0 H L.
  - injection H as <- <- <-. exact L.
  - cbn [collect_documents] in H.
    destruct (collect_chunks _ _) as [e0|[[t1 m1] i1]] eqn:C; [discriminate|].
    apply collect_chunks_inv in C.
    destruct C as (ids' & -> & -> & -> & HF).
    apply IH in H; [exact H|].
    rewrite !length_app, length_map, (Forall2_length HF). now rewrite L.
Qed.

Lemma text_name_is_no_pdf name :
  Py.endswith name (Py.lit ".txt") = true ->
  Py.endswith name (Py.lit ".pdf") = false.
Proof.
  unfold Py.endswith. destruct (rev name) as [|c r]; [discriminate|].
  change (rev (Py.lit ".txt")) with [116; 120; 116; 46]%N.
  change (rev (Py.lit ".pdf")) with [102; 100; 112; 46]%N.
  cbn [Py.startswith]. unfold Py.char_eqb.
  destruct (N.eqb_spec 116 c) as [<-|N]; [reflexivity|].
  cbn [andb]. intros H. discriminate H.
Qed.

(** A character below 128 of a decoded text is a byte of the file. *)
Lemma decode_ascii n :
  forall b s c,
    List.length b <= n ->
    Bytes.decode_utf8 b = inr s -> In c s -> (c < 128)%N -> In c b.
Proof.
  induction n as [|n IH]; intros b s c Hn H Hin Hc.
  - destruct b; [|simpl in Hn; lia]. injection H as <-. destruct Hin.
  - destruct b as [|b0 r0]; [injection H as <-; destruct Hin|].
    cbn [Bytes.decode_utf8] in H. simpl in Hn.
    destruct (N.ltb_spec b0 128) as [H0|H0].
    { apply push_inr in H as (s' & -> & H).
      destruct Hin as [<-|Hin]; [now left|].
      right. apply (IH r0 s' c); auto; lia. }
    destruct r0 as [|b1 r1]; [discriminate|]. simpl in Hn.
    destruct (Bytes.in_range 194 223 b0) eqn:E2.
    { apply in_range_spec in E2.
      destruct (Bytes.in_range 128 191 b1) eqn:E2'; [|discriminate].
      apply in_range_spec in E2'.
      apply push_inr in H as (s' & -> & H).
      destruct Hin as [<-|Hin]; [lia|].
      right. right. apply (IH r1 s' c); auto; lia. }
    destruct r1 as [|b2 r2]; [discriminate|]. simpl in Hn.
    destruct (Bytes.in_range 224 239 b0) eqn:E3.
    { apply in_range_spec in E3.
      match type of H with
      | (if ?c then _ else _) = _ => destruct c eqn:E3'; [|discriminate]
      end.
      apply andb_prop in E3' as [Ea Eb].
      apply in_range_spec in Ea, Eb.
      apply push_inr in H as (s' & -> & H).
      destruct Hin as [<-|Hin].
      - destruct (N.eqb_spec b0 224), (N.eqb_spec b0 237); lia.
      - right. right. right. apply (IH r2 s' c); auto; lia. }
    destruct r2 as [|b3 r3]; [discriminate|]. simpl in Hn.
    match type of H with
    | (if ?c then _ else _) = _ => destruct c eqn:E4; [|discriminate]
    end.
    apply andb_prop in E4 as [E4 Ed]. apply andb_prop in E4 as [E4 Ec].
    apply andb_prop in E4 as [Ea Eb].
    apply in_range_spec in Ea, Eb, Ec, Ed.
    apply push_inr in H as (s' & -> & H).
    destruct Hin as [<-|Hin].
    + destruct (N.eqb_spec b0 240), (N.eqb_spec b0 244); lia.
    + right. right. right. right. apply (IH r3 s' c); auto; lia.
Qed.

(** Reading in text mode changes nothing in a text without carriage
    return. *)
Lemma universal_newlines_id s : ~ In CR s -> universal_newlines s = s.
Proof.
  induction s as [|c r IH]; intros H; [reflexivity|].
  cbn [universal_newlines]. unfold Py.char_eqb.
  destruct (N.eqb_spec c CR) as [->|N].
  - destruct H. now left.
  - rewrite IH; [reflexivity|]. intros Hin. apply H. now right.
Qed.

Lemma read_text_of_bytes F path b :
  read_bytes F path = inr b -> ~ In CR b ->
  read_text F path = Bytes.decode_utf8 b.
Proof.
  intros R H. unfold read_text. rewrite R.
  destruct (Bytes.decode_utf8 b) as [e|text] eqn:D; [reflexivity|].
  rewrite universal_newlines_id; [reflexivity|].
  intros Hin. apply H.
  apply (@decode_ascii (List.length b) b text CR); auto.
  reflexivity.
Qed.

Lemma upsert_nothing docs metas c : Chroma.upsert [] docs metas c = c.
Proof. unfold Chroma.upsert. cbn [Chroma.zip3 fold_left]. reflexivity. Qed.

End ScriptFacts.

Module FolderIngestion.

Import Services Script StoreFacts IngestFacts IngestRuns ScriptFacts.

(** X29: a run of the ingestion script sends at most one upsert, and
    none when the folder yields no chunk.  It stops with an exception
    only when the collection cannot be set up, when the folder cannot
    be listed or when the id of a chunk cannot be computed, and then it
    has touched nothing; a file that cannot be read and a store that
    refuses the upsert do not stop it: once chunks are collected the
    script returns normally, with the index updated if the store
    answered and unchanged if it did not. *)
Theorem script_main_outcomes (W : World) (F : Folder) (s : state) :
  let '(outcome, s') := main W F s in
  match outcome with
  | inl e =>
      s' = s
      /\ (collection_setup F = Some e
          \/ listdir F (GROUND_TRUTH_DIR F) = inl e
          \/ e = UnicodeEncodeError (Py.lit "surrogates not allowed"))
  | inr _ =>
      s' = s
      \/ exists ids texts metas,
           ids <> []
           /\ log s' = log s ++ [EvUpsert ids]
           /\ db s' = if store_up W
                      then Chroma.upsert ids texts metas (db s)
                      else db s
  end.
Proof.
  unfold main.
  destruct (collection_setup F) as [e|] eqn:S.
  - unfold raise. split; [reflexivity|now left].
  - unfold bind at 1, lift at 1, load_documents_from_directory.
    destruct (listdir F (GROUND_TRUTH_DIR F)) as [e|names] eqn:L.
    + split; [reflexivity|]. right. now left.
    + unfold bind, lift.
      destruct (collect_documents _ _) as [e|[[texts metas] ids]] eqn:C.
      * split; [reflexivity|]. right. right.
        now apply collect_documents_error in C.
      * apply collect_documents_lengths in C; [|reflexivity].
        destruct texts as [|t texts]; [now left|].
        unfold try_except, collection_upsert, bind, emit, get_state,
          set_db, ret, raise.
        destruct (store_up W) eqn:U; cbn [log db];
          right; exists ids, (t :: texts), metas;
          (split; [intros ->; discriminate|]); now split.
Qed.

(** X30: the script and [POST /documents] index a text file in the
    same way, as long as the file holds no carriage return.  For a
    folder that holds one [.txt] file without carriage return, the
    index the script leaves is the index left by the endpoint's
    ingestion of the bytes of that file under the name of the file
    without its extension, provided the service can obtain the
    collection: the same chunks under the same ids and the same source
    name.  (The script reads the file in text mode, which turns every
    end of line into a line feed; the endpoint decodes the bytes as
    they are.) *)
Theorem script_and_endpoint_agree (W : World) (F : Folder)
    (name : str) (file_bytes : Bytes.bytes) (s : state) :
  collection_setup F = None ->
  listdir F (GROUND_TRUTH_DIR F) = inr [name] ->
  Py.endswith name (Py.lit ".txt") = true ->
  read_bytes F (OsPath.join (GROUND_TRUTH_DIR F) name) = inr file_bytes ->
  ~ In CR file_bytes ->
  _get_chroma_collection W = true ->
  db (snd (main W F s))
  = db (snd (ingest_document W file_bytes name
               (fst (OsPath.splitext name)) s)).
Proof.
  intros S L T R NoCR G.
  pose proof (text_name_is_no_pdf _ T) as P.
  pose proof (read_text_of_bytes _ _ R NoCR) as RT.
  unfold main, ingest_document. rewrite S.
  unfold bind at 1, lift at 1, load_documents_from_directory. rewrite L.
  cbn [fold_left]. unfold load_step, read_file. rewrite T, RT.
  unfold bind at 2. rewrite (@read_text_file W file_bytes name s P T).
  set (src := fst (OsPath.splitext name)).
  destruct (Bytes.decode_utf8 file_bytes) as [e|text]; [reflexivity|].
  destruct text as [|c text].
  - cbn [Py.truthy]. unfold bind, lift. cbn [collect_documents].
    cbn. rewrite G. cbn [negb].
    unfold collection_upsert, emit, get_state, set_db, ret, raise.
    destruct (store_up W); reflexivity.
  - cbn [Py.truthy app]. unfold bind at 1, lift at 1.
    cbn [collect_documents source content].
    unfold bind at 1, lift at 1.
    destruct (collect_chunks _ _) as [e|[[texts metas] ids]] eqn:C;
      [reflexivity|].
    cbn [collect_documents]. rewrite G. cbn [negb].
    apply collect_chunks_inv in C.
    destruct C as (ids' & -> & -> & -> & HF). cbn [app].
    destruct (map Ingest.text _) as [|t0 ts] eqn:M.
    + destruct ids' as [|i0 ids'].
      * unfold bind, collection_upsert, emit, get_state, set_db, ret, raise.
        destruct (store_up W); reflexivity.
      * apply Forall2_length in HF. apply (f_equal (@List.length _)) in M.
        rewrite length_map in M. rewrite M in HF. discriminate.
    + unfold try_except, bind, collection_upsert, emit, get_state, set_db,
        ret, raise.
      destruct (store_up W); reflexivity.
Qed.

Lemma script_and_endpoint_agree_witness :
  let W := Sample.world (Sample.flaky 0 []) in
  db (snd (main W sample_folder Sample.empty_state))
  = db (snd (ingest_document W Sample.notes (Py.lit "rubric.txt")
               (Py.lit "rubric") Sample.empty_state))
  /\ db (snd (main W crlf_folder Sample.empty_state))
     <> db (snd (ingest_document W notes_crlf (Py.lit "rubric.txt")
                   (Py.lit "rubric") Sample.empty_state)).
Proof.
  split.
  - refine (@script_and_endpoint_agree (Sample.world (Sample.flaky 0 []))
              sample_folder (Py.lit "rubric.txt")
              Sample.notes Sample.empty_state
              eq_refl eq_refl eq_refl eq_refl _ eq_refl).
    vm_compute. intuition discriminate.
  - vm_compute. discriminate.
Defined.

End FolderIngestion.

(** ** Ingestion twice *)

Module Ingestion.

Import Services StoreFacts IngestFacts TextFacts IngestRuns.

(** The id of a chunk is the MD5 of the UTF-8 form of its text. *)
Lemma ids_are_md5 chunks ids :
  Forall2 (fun chunk chunk_id =>
             Ingest.generate_document_id (Ingest.text chunk) = inr chunk_id)
    chunks ids ->
  Forall (fun chunk =>
            exists b,
              Bytes.encode_utf8 (Ingest.text chunk) = inr b
              /\ id_of (Ingest.text chunk) = Md5.hexdigest b) chunks.
Proof.
  induction 1 as [|chunk chunk_id chunks ids Hid HF IH]; constructor;
    [|exact IH].
  unfold id_of. unfold Ingest.generate_document_id in *.
  destruct (Bytes.encode_utf8 (Ingest.text chunk)) as [e|b];
    [discriminate|].
  now exists b.
Qed.

(** C3: the id of a chunk is the MD5 of its text and of nothing else,
    so an ingestion that succeeded, run a second time on the same file
    and source, sends the same ids, returns the same report and leaves
    the index as the first run left it.  The chunks sent are the whole
    document (the same characters, whitespace apart); after the first
    run and after the second, the id of every chunk is the id of
    exactly one entry of the index, and that entry holds the text and
    the source of the chunk, unless another chunk of the same document
    with another text has the same MD5. *)
Theorem ingest_document_idempotent (W : World) (file_bytes : Bytes.bytes)
    (file_name source_name : str) (s s1 : state) (r : ingest_report) :
  NoDup (map Chroma.id (db s)) ->
  ingest_document W file_bytes file_name source_name s = (inr r, s1) ->
  exists content,
    let chunks := Ingest.split_text_into_chunks content source_name
                    Ingest.default_chunk_size Ingest.default_chunk_overlap in
    let ids := map (fun chunk => id_of (Ingest.text chunk)) chunks in
    read_content W file_bytes file_name s = (inr content, s)
    /\ squash (List.concat (map Ingest.text chunks)) = squash content
    /\ Forall (fun chunk =>
                 exists b,
                   Bytes.encode_utf8 (Ingest.text chunk) = inr b
                   /\ id_of (Ingest.text chunk) = Md5.hexdigest b) chunks
    /\ log s1 = log s ++ [EvUpsert ids]
    /\ ingest_document W file_bytes file_name source_name s1
       = (inr r, {| log := log s1 ++ [EvUpsert ids]; db := db s1 |})
    /\ NoDup (map Chroma.id (db s1))
    /\ Forall (fun chunk =>
                 let chunk_id := id_of (Ingest.text chunk) in
                 stored_under chunk_id (db s1) = 1
                 /\ (In (stored_chunk chunk_id chunk) (db s1)
                     \/ exists other,
                          In other chunks
                          /\ id_of (Ingest.text other) = chunk_id
                          /\ Ingest.text other <> Ingest.text chunk))
         chunks.
Proof.
  intros Hn H.
  destruct (ingest_document_inv _ _ _ _ _ H)
    as (content & ids & R & HF & -> & Hrun).
  exists content. cbn zeta. cbn [log db].
  pose proof (ids_of_chunks HF) as E. rewrite <- E.
  destruct (zip3_chunks HF) as [Hids Hin].
  split; [exact R|]. split; [apply squash_chunks|].
  split; [exact (ids_are_md5 HF)|]. split; [reflexivity|].
  split; [|split].
  - rewrite Hrun. cbn [log db]. unfold Chroma.upsert.
    now rewrite batch_idempotent.
  - unfold Chroma.upsert. now apply batch_NoDup.
  - apply Forall_forall. intros c Hc.
    assert (Hi : In (id_of (Ingest.text c)) ids).
    { rewrite E. now apply (in_map (fun chunk => id_of (Ingest.text chunk))). }
    rewrite <- Hids in Hi.
    apply in_map_iff in Hi. destruct Hi as (e & He & Hein).
    assert (Hh : Chroma.has_id (id_of (Ingest.text c))
                   (Chroma.upsert ids
                      (map Ingest.text
                         (Ingest.split_text_into_chunks content source_name
                            Ingest.default_chunk_size
                            Ingest.default_chunk_overlap))
                      (map Ingest.meta
                         (Ingest.split_text_into_chunks content source_name
                            Ingest.default_chunk_size
                            Ingest.default_chunk_overlap)) (db s)) = true).
    { rewrite <- He. unfold Chroma.upsert. now apply batch_has_ids. }
    split.
    + apply stored_once; [|exact Hh].
      unfold Chroma.upsert. now apply batch_NoDup.
    + apply has_id_In, in_map_iff in Hh. destruct Hh as (x & Hx & Hxin).
      unfold Chroma.upsert in Hxin. pose proof Hxin as Hxin'.
      apply in_batch in Hxin'. destruct Hxin' as [Hb|[_ Hall]].
      * destruct (Hin x Hb) as (chunk & Hck & Hg & Hxe).
        rewrite Hx in Hg, Hxe.
        destruct (list_eq_dec N.eq_dec (Ingest.text chunk) (Ingest.text c))
          as [Heq|Hne].
        -- left. rewrite Hxe in Hxin.
           replace (stored_chunk (id_of (Ingest.text c)) c)
             with (stored_chunk (id_of (Ingest.text c)) chunk);
             [exact Hxin|].
           unfold stored_chunk. rewrite Heq. f_equal.
           pose proof (chunk_source _ _ _ _ _ Hck) as S1.
           pose proof (chunk_source _ _ _ _ _ Hc) as S2.
           destruct (Ingest.meta chunk), (Ingest.meta c).
           cbn in S1, S2. now subst.
        -- right. exists chunk. split; [exact Hck|]. split; [|exact Hne].
           unfold id_of at 1. now rewrite Hg.
      * specialize (Hall e Hein). rewrite Hx, <- He, eqb_refl in Hall.
        discriminate.
Qed.

(** A text file of two chunks ingested twice into an empty index: the
    ids are the MD5 of the two texts. *)
Lemma ingest_document_idempotent_witness :
  let W := Sample.world (Sample.flaky 0 []) in
  let file_name := Py.lit "rubric.txt" in
  let source_name := Py.lit "cv_rubric" in
  let ids := [Py.lit "f5091e6f3df8500fadf1c3ca00e10caf";
              Py.lit "95a13d4df13e9b2c95fb54d06d74ebaf"] in
  let s1 :=
    {| log := [EvUpsert ids];
       db := [{| Chroma.id := Py.lit "f5091e6f3df8500fadf1c3ca00e10caf";
                 Chroma.document := repeat 97%N 600;
                 Chroma.metadata := {| Ingest.source := source_name |} |};
              {| Chroma.id := Py.lit "95a13d4df13e9b2c95fb54d06d74ebaf";
                 Chroma.document := repeat 98%N 600;
                 Chroma.metadata := {| Ingest.source := source_name |} |}]
    |} in
  ingest_document W two_chunk_file file_name source_name Sample.empty_state
  = (inr (ingested source_name 2), s1)
  /\ ingest_document W two_chunk_file file_name source_name s1
     = (inr (ingested source_name 2),
        {| log := [EvUpsert ids; EvUpsert ids]; db := db s1 |})
  /\ stored_under (Py.lit "f5091e6f3df8500fadf1c3ca00e10caf") (db s1) = 1
  /\ stored_under (Py.lit "95a13d4df13e9b2c95fb54d06d74ebaf") (db s1) = 1.
Proof.
  intros W file_name source_name ids s1.
  assert (E : ingest_document W two_chunk_file file_name source_name
                Sample.empty_state = (inr (ingested source_name 2), s1))
    by (vm_compute; reflexivity).
  destruct (@ingest_document_idempotent W two_chunk_file file_name
              source_name Sample.empty_state s1 _ (NoDup_nil _) E)
    as (content & R & _ & _ & _ & H2 & _ & H3).
  assert (C : content = two_chunk_file).
  { vm_compute in R. injection R as <-. vm_compute. reflexivity. }
  subst content. clear R.
  pose proof (proj1 (Forall_forall _ _) H3) as H3'. clear H3.
  split; [exact E|]. split.
  - vm_compute in H2. vm_compute. exact H2.
  - split.
    + assert (I : In {| Ingest.text := repeat 97%N 600;
                        Ingest.meta := {| Ingest.source := source_name |} |}
                    (Ingest.split_text_into_chunks two_chunk_file source_name
                       Ingest.default_chunk_size
                       Ingest.default_chunk_overlap))
        by (vm_compute; left; reflexivity).
      pose proof (H3' _ I) as Ha. cbv beta zeta in Ha.
      destruct Ha as [Ha _]. vm_compute in Ha. vm_compute. exact Ha.
    + assert (I : In {| Ingest.text := repeat 98%N 600;
                        Ingest.meta := {| Ingest.source := source_name |} |}
                    (Ingest.split_text_into_chunks two_chunk_file source_name
                       Ingest.default_chunk_size
                       Ingest.default_chunk_overlap))
        by (vm_compute; right; left; reflexivity).
      pose proof (H3' _ I) as Hb. cbv beta zeta in Hb.
      destruct Hb as [Hb _]. vm_compute in Hb. vm_compute. exact Hb.
Defined.

End Ingestion.

(** ** The decoder under the limits of the interpreter *)

Module Decoding.

Import Cpython.

(** The interpreter's scanner answers as the grammar's, or raises one
    of the exceptions of its limits. *)
Definition agrees (py : limits) (c : res Json.value)
    (j : Json.res Json.value) : Prop :=
  match c with
  | Ok v r => j = Json.Ok v r
  | Err m => j = Json.Err m
  | OutOfFuel => j = Json.OutOfFuel
  | Raise e => interpreter_limit py e
  end.

Lemma scan_atom_agrees py s :
  agrees py (scan_atom py s) (Json.scan_atom s).
Proof.
  unfold scan_atom.
  destruct (Json.scan_atom s) as [v r|m|]; try reflexivity.
  destruct v; try reflexivity.
  destruct (too_long py (int_digits s)) eqn:E; [|reflexivity].
  right. right. now exists (int_digits s).
Qed.

Lemma scan_agrees py :
  forall fuel,
    (forall depth s,
        agrees py (scan_once py fuel depth s) (Json.scan_once fuel s))
    /\ (forall depth acc s,
           agrees py (members py fuel depth acc s)
             (Json.members fuel acc s))
    /\ (forall depth acc s,
           agrees py (elements py fuel depth acc s)
             (Json.elements fuel acc s)).
Proof.
  induction fuel as [|f (IHs & IHm & IHe)].
  - repeat split; intros; reflexivity.
  - split; [|split].
    + intros depth s. cbn [scan_once Json.scan_once].
      destruct s as [|c r]; [reflexivity|].
      destruct (c =? 34)%N.
      { destruct (Json.scan_string None [] r); reflexivity. }
      destruct (c =? 123)%N.
      { destruct depth as [|d]; [right; now left|].
        destruct (Json.skip_ws r) as [|c1 r1]; [apply IHm|].
        destruct (c1 =? 125)%N; [reflexivity|apply IHm]. }
      destruct (c =? 91)%N.
      { destruct depth as [|d]; [now left|].
        destruct (Json.skip_ws r) as [|c1 r1]; [apply IHe|].
        destruct (c1 =? 93)%N; [reflexivity|apply IHe]. }
      apply scan_atom_agrees.
    + intros depth acc s. cbn [members Json.members].
      destruct s as [|c r]; [reflexivity|].
      destruct (c =? 34)%N; [|reflexivity].
      destruct (Json.scan_string None [] r) as [key r1|m|]; try reflexivity.
      destruct (Json.skip_ws r1) as [|c2 r2]; [reflexivity|].
      destruct (c2 =? 58)%N; [|reflexivity].
      pose proof (IHs depth (Json.skip_ws r2)) as H.
      destruct (scan_once py f depth (Json.skip_ws r2)) as [v r3|m|e|];
        cbn [agrees] in H; try (rewrite H; reflexivity); [|exact H].
      rewrite H.
      destruct (Json.skip_ws r3) as [|c4 r4]; [reflexivity|].
      destruct (c4 =? 125)%N; [reflexivity|].
      destruct (c4 =? 44)%N; [apply IHm|reflexivity].
    + intros depth acc s. cbn [elements Json.elements].
      pose proof (IHs depth s) as H.
      destruct (scan_once py f depth s) as [v r1|m|e|];
        cbn [agrees] in H; try (rewrite H; reflexivity); [|exact H].
      rewrite H.
      destruct (Json.skip_ws r1) as [|c2 r2]; [reflexivity|].
      destruct (c2 =? 93)%N; [reflexivity|].
      destruct (c2 =? 44)%N; [apply IHe|reflexivity].
Qed.

(** What [loads] answers under limits: the value of the grammar, the
    syntax error of the grammar, or an exception of the limits; the
    budget of the definition is never used up. *)
Lemma loads_outcomes py s :
  match loads py s with
  | inr v => Json.loads s = inr v
  | inl (JSONDecodeError msg) => Json.loads s = inl (JSONDecodeError msg)
  | inl e => interpreter_limit py e
  end.
Proof.
  unfold loads, Json.loads.
  pose proof (JsonTotal.scan_once_fuel s) as F.
  destruct (scan_agrees py (Json.budget s)) as (Hs & _ & _).
  specialize (Hs (recursion_remaining py) (Json.skip_ws s)).
  destruct (scan_once py (Json.budget s) (recursion_remaining py)
              (Json.skip_ws s)) as [v rest|m|e|]; cbn [agrees] in Hs.
  - rewrite Hs. destruct (Json.skip_ws rest); reflexivity.
  - rewrite Hs. reflexivity.
  - destruct Hs as [E|[E|(digits & Hd & E)]]; rewrite E.
    + unfold recursion_error. left. reflexivity.
    + unfold recursion_error. right. left. reflexivity.
    + unfold digits_error. right. right. exists digits.
      split; [exact Hd|reflexivity].
  - contradiction.
Qed.

(** The conversions that are sure decide what is surely refused and
    what is surely taken. *)
Lemma surely_refused_spec co t d f :
  lax co -> surely_refused t (Json.dict_get d f) = true ->
  field_missing d f \/ field_mistyped co d f t.
Proof.
  intros (_ & _ & _ & Hs) H. unfold field_missing, field_mistyped.
  destruct (Json.dict_get d f) as [v|]; [right|now left].
  exists v. split; [reflexivity|].
  unfold Pydantic.accepts, Pydantic.validate_float, Pydantic.validate_str.
  destruct v, t; cbn in H; try discriminate; try reflexivity.
  now rewrite (Hs _ H).
Qed.

Lemma surely_accepted_spec co t d f :
  lax co -> surely_accepted t (Json.dict_get d f) = true ->
  exists v, Json.dict_get d f = Some v /\ Pydantic.accepts co t v = true.
Proof.
  intros (Hi & Hb & Hp & _) H.
  destruct (Json.dict_get d f) as [v|]; [|destruct t; discriminate].
  exists v. split; [reflexivity|].
  unfold Pydantic.accepts, Pydantic.validate_float, Pydantic.validate_str.
  destruct t, v; cbn in H; try discriminate; try reflexivity.
  - specialize (Hb b). now destruct (Pydantic.float_of_bool co b).
  - apply Z.leb_le in H. specialize (Hi z H).
    now destruct (Pydantic.float_of_int co z).
  - specialize (Hp s H). now destruct (Pydantic.float_of_str co s).
Qed.

Lemma lax_coercion_lax : lax lax_coercion.
Proof.
  split; [|split; [|split]].
  - intros z _. discriminate.
  - intros b. discriminate.
  - intros s H. cbn [lax_coercion Pydantic.float_of_str]. rewrite H.
    unfold plain_decimal in H. unfold Json.scan_number.
    destruct s as [|c r]; [discriminate|].
    cbn [Json.span_digits] in H.
    destruct (Json.is_digit c) eqn:D; [|discriminate].
    assert ((c =? 45)%N = false) as ->.
    { unfold Json.is_digit in D. apply andb_prop in D as [D _].
      apply N.leb_le in D. apply N.eqb_neq. lia. }
    unfold Json.span_int. rewrite D.
    destruct (c =? 48)%N.
    + destruct (Json.span_frac r) as [[ds rest]|];
        destruct (Json.span_exp _) as [[e rest']|]; discriminate.
    + destruct (Json.span_digits r) as [ds rest].
      destruct (Json.span_frac rest) as [[fs rest1]|];
        destruct (Json.span_exp _) as [[e rest']|]; discriminate.
  - intros s H. cbn [lax_coercion Pydantic.float_of_str].
    destruct (plain_decimal s) eqn:P; [|reflexivity].
    exfalso. unfold plain_decimal in P.
    destruct s as [|c r]; [discriminate|].
    cbn [Json.span_digits] in P. cbn [hopeless forallb] in H.
    destruct (Json.is_digit c); [|discriminate].
    rewrite andb_false_r in H. discriminate.
Qed.

End Decoding.

Module Validation.

Import Services Pydantic ParseFacts LlmFacts Decoding.

(** C6, as the code has it.  Under the limits of an interpreter and
    with a validation library in its default mode, the outcome of
    [parse_llm_json] is decided by the decoder and by the model.  A
    text the decoder refuses as malformed raises the invalid-JSON error
    (so does [not json]); an object the model refuses raises the
    schema-mismatch error, and it is refused for sure when a field is
    missing or holds [null], a list, an object, a value that is not a
    text in a text field or a text in which no number can be read in a
    number field; it is accepted when every field holds what its type
    takes for sure.  Every other exception is raised again as it is:
    the [TypeError] of a decoded value that is not an object, and the
    exceptions of the limits of the interpreter, which are raised on
    valid JSON.  What the interpreter decodes is what the grammar
    gives.  The model is not called again: when the first call answers
    and the answer is refused, the error is the outcome and one call
    was made. *)
Theorem parse_llm_json_raises {T} (k : output_model T)
    (py : Cpython.limits) (co : coercions) (llm_output : str) :
  lax co ->
  let m := model_of k in
  let decoded := Cpython.loads py (json_str llm_output) in
  let outcome := Cpython.parse_llm_json py co llm_output m in
  match decoded with
  | inl (JSONDecodeError msg) =>
      outcome
      = inl (Exception (Py.lit "Invalid JSON response from LLM: " ++ msg))
      /\ Json.loads (json_str llm_output) = inl (JSONDecodeError msg)
  | inl e => outcome = inl e /\ interpreter_limit py e
  | inr (Json.JDict d) =>
      Json.loads (json_str llm_output) = inr (Json.JDict d)
      /\ if conforms co (fields m) d
         then exists x, outcome = inr x
         else exists detail,
                outcome
                = inl (Exception
                         (Py.lit "LLM output schema mismatch: " ++ detail))
  | inr _ => exists detail, outcome = inl (TypeError detail)
  end
  /\ (forall d f t,
         In (f, t) (fields m) ->
         surely_refused t (Json.dict_get d f) = true ->
         conforms co (fields m) d = false)
  /\ (forall d,
         (forall f t,
             In (f, t) (fields m) ->
             surely_accepted t (Json.dict_get d f) = true) ->
         conforms co (fields m) d = true)
  /\ (exists detail,
         Cpython.parse_llm_json py co (Py.lit "not json") m
         = inl (Exception
                  (Py.lit "Invalid JSON response from LLM: " ++ detail)))
  /\ (forall W g prompt s answer e,
         llm_model W = Some g ->
         g (llm_calls (log s)) prompt = inr answer ->
         Cpython.parse_llm_json py (Services.coercions W) answer m = inl e ->
         Cpython.invoke py W prompt m s
         = (inl e,
            {| log := log s ++ [EvGenerate prompt]; db := db s |})).
Proof.
  intros Hlax m decoded outcome.
  pose proof (Structured.model_of_lawful k) as L. fold m in L.
  split; [|split; [|split; [|split]]].
  - pose proof (loads_outcomes py (json_str llm_output)) as O.
    fold decoded in O.
    unfold outcome, Cpython.parse_llm_json. fold decoded.
    destruct decoded as [e|v].
    + destruct e; try (split; [reflexivity|exact O]).
    + destruct v as [| | | | |l|d]; try (eexists; reflexivity).
      split; [exact O|].
      specialize (L co d).
      destruct (construct m co d) as [e|x].
      * destruct L as [-> ->]. eexists. reflexivity.
      * rewrite L. now exists x.
  - intros d f t Hin H. apply conforms_false_iff. exists f, t.
    split; [exact Hin|]. now apply surely_refused_spec.
  - intros d H. unfold conforms. apply forallb_forall.
    intros [f t] Hin. cbn [fst snd].
    destruct (@surely_accepted_spec co t d f Hlax (H f t Hin))
      as (v & -> & A).
    exact A.
  - eexists. unfold Cpython.parse_llm_json.
    change (json_str (Py.lit "not json")) with (Py.lit "not json").
    reflexivity.
  - intros W g prompt s answer e HW Hg He.
    unfold Cpython.invoke, call_gemini_with_retry, bind. rewrite HW.
    change (Z.to_nat default_retries) with 3%nat.
    rewrite (@retry_loop_success g prompt default_retries default_delay
               2 0%Z s answer Hg).
    unfold lift. now rewrite He.
Qed.

(** A rate given as a word, and an answer that is no JSON, under the
    sample interpreter and library. *)
Lemma parse_llm_json_raises_witness :
  (exists detail,
      Cpython.parse_llm_json interpreter lax_coercion worded_answer
        CvEvaluationOutput_model
      = inl (Exception (Py.lit "LLM output schema mismatch: " ++ detail)))
  /\ (exists detail,
         Cpython.parse_llm_json interpreter lax_coercion (Py.lit "not json")
           CvEvaluationOutput_model
         = inl (Exception
                  (Py.lit "Invalid JSON response from LLM: " ++ detail))).
Proof.
  pose proof (@parse_llm_json_raises _ CvModel interpreter lax_coercion
                worded_answer lax_coercion_lax) as H.
  cbv zeta in H. destruct H as (H1 & _ & _ & H4 & _).
  split; [|exact H4].
  exact (proj2 H1).
Defined.

(** C6, as stated, fails in both directions.  An answer that is valid
    JSON and matches the schema raises, and raises neither of the two
    errors, when its arrays are nested deeper than the interpreter
    allows; and an answer whose rate is [NaN], which is no JSON, is
    accepted. *)
Lemma conforming_answer_raises :
  parse_llm_json Sample.no_coercion (deep_answer 1100)
    CvEvaluationOutput_model
  = inr {| cv_match_rate := Json.FDec false 8 (-1);
           cv_feedback := Py.lit "ok" |}
  /\ Cpython.parse_llm_json interpreter Sample.no_coercion
       (deep_answer 1100) CvEvaluationOutput_model
     = inl (Cpython.recursion_error "array")
  /\ Cpython.parse_llm_json interpreter Sample.no_coercion nan_answer
       CvEvaluationOutput_model
     = inr {| cv_match_rate := Json.FNaN; cv_feedback := Py.lit "ok" |}.
Proof.
  split; [|split]; vm_compute; reflexivity.
Qed.

End Validation.
